(** * Landmark-prediction pipeline of Image-registration-gui

    A shallow embedding of [src/image_registration/CNN/CNN.py]: the
    geometric transforms on images and landmark tables, the train /
    validation split, the dataset loader, the rescaling of predictions and
    the checkpoint policy of [WindowCallback]; followed by the properties of
    the specification that these definitions satisfy or violate.

    Numbers.  Python [int] is [Z].  A Python [float] is a binary64 number
    of IEEE 754 and a NumPy [float32] a binary32 number: module [IEEE] gives
    their operations, rounding to nearest with ties to even, [inf] and
    [nan] included, from [SpecFloat] of the standard library.  The size of
    the validation table, the rescaling of the predictions and the rotation
    of module [Doubles] are computed with them.  The samples of an image
    are rationals, and the arithmetic on samples (means, normalisation) is
    exact.  Module [Transform] computes the coordinates of landmarks on
    rationals as well: it is the arithmetic of the source without rounding
    errors, and serves the properties that do not depend on them.

    Images.  A file holds a greyscale image, which [np.asarray] turns into
    an array of two dimensions with positive sizes; colour files, which
    give arrays of three dimensions, are outside the model.

    Libraries.  The samplers of [skimage.transform.resize],
    [scipy.ndimage.zoom] and [scipy.ndimage.rotate], the functions
    [math.cos], [math.sin] and the network's [predict] are parameters; only
    the shape of what they return is fixed, as their documentation states
    it. *)

From Stdlib Require Import ZArith QArith Qround Lia String Ascii.
From Stdlib Require Import DecimalString DecimalZ SpecFloat.
From stdpp Require Import base option list gmap strings fin_maps.

Set Default Proof Using "Type".
#[local] Set Warnings "-clear-no-such-hyp".
Local Open Scope Z_scope.

(** ** Exceptions and the result of a call *)

Inductive exn :=
  | KeyError
  | IndexError
  | ValueError
  | TypeError
  | AttributeError
  | ZeroDivisionError
  | OverflowError
  | FileNotFoundError
  | NameError.

Inductive outcome (A : Type) :=
  | Return (a : A)
  | Raise (e : exn).
Arguments Return {A} a.
Arguments Raise {A} e.

#[global] Instance outcome_ret : MRet outcome := @Return.
#[global] Instance outcome_bind : MBind outcome := λ A B f m,
  match m with
  | Return a => f a
  | Raise e => Raise e
  end.
#[global] Instance outcome_fmap : FMap outcome := λ A B f m,
  match m with
  | Return a => Return (f a)
  | Raise e => Raise e
  end.

(** A Python [for] loop whose body updates one piece of state and may
    raise. *)
Fixpoint for_each {A S : Type} (l : list A) (body : A → S → outcome S)
    (s : S) : outcome S :=
  match l with
  | [] => Return s
  | a :: l' => s' ← body a s; for_each l' body s'
  end.

(** ** Numbers *)

(** [int(q)] on a float: truncation toward zero. *)
Definition py_int (q : Q) : Z := Z.quot (Qnum q) (Z.pos (Qden q)).

(** [round(q)] on a float: to the nearest integer, ties to the even one. *)
Definition py_round (q : Q) : Z :=
  let f := Qfloor q in
  match (q - inject_Z f ?= 1 # 2)%Q with
  | Lt => f
  | Gt => f + 1
  | Eq => if Z.even f then f else f + 1
  end.

(** [a < b] on two floats. *)
Definition Qlt_bool (a b : Q) : bool := negb (Qle_bool b a).

(** [a / b] on two ints (true division). *)
Definition py_truediv (a b : Z) : outcome Q :=
  if decide (b = 0) then Raise ZeroDivisionError
  else Return (inject_Z a / inject_Z b)%Q.

(** ** Floating-point numbers *)

Module IEEE.

(** A number of a binary format: a zero, an infinity, [nan], or
    [± m * 2 ^ e]. *)
Definition float := spec_float.

Definition is_zero (x : float) : bool :=
  match x with
  | S754_zero _ => true
  | _ => false
  end.

Definition is_finite (x : float) : bool :=
  match x with
  | S754_zero _ | S754_finite _ _ _ => true
  | _ => false
  end.

(** The integer part of a finite number, toward zero; the nearest integer,
    ties to the even one. *)
Definition truncate (x : float) : Z :=
  match x with
  | S754_finite s m e =>
      cond_Zopp s (if decide (e < 0) then Z.pos m / 2 ^ (- e)
                   else Z.pos m * 2 ^ e)
  | _ => 0
  end.

Definition nearest (x : float) : Z :=
  match x with
  | S754_finite s m e =>
      cond_Zopp s
        (if decide (e < 0) then
           let q := Z.pos m / 2 ^ (- e) in
           match 2 * (Z.pos m mod 2 ^ (- e)) ?= 2 ^ (- e) with
           | Lt => q
           | Gt => q + 1
           | Eq => if Z.even q then q else q + 1
           end
         else Z.pos m * 2 ^ e)
  | _ => 0
  end.

(** What [int(x)] and [round(x)] raise for a number that is not finite. *)
Definition to_int (f : float → Z) (x : float) : outcome Z :=
  match x with
  | S754_nan => Raise ValueError
  | S754_infinity _ => Raise OverflowError
  | _ => Return (f x)
  end.

(** [int(x)] *)
Definition py_int (x : float) : outcome Z := to_int truncate x.

(** [round(x)] *)
Definition py_round (x : float) : outcome Z := to_int nearest x.

(** A conversion or a quotient of ints that is too large for the format
    raises. *)
Definition checked (x : float) : outcome float :=
  match x with
  | S754_infinity _ => Raise OverflowError
  | _ => Return x
  end.

Section Format.

(** The bits of the mantissa and the bound of the exponent: 53 and 1024
    for binary64, 24 and 128 for binary32. *)
Variables prec emax : Z.

(** [float(z)]: the number nearest to an int. *)
Definition of_int (z : Z) : outcome float :=
  checked (binary_normalize prec emax z 0 false).

Definition magnitude (z : Z) : float :=
  S754_finite (z <? 0) (Z.to_pos (Z.abs z)) 0.

(** [a / b] on two ints: the number nearest to the quotient. *)
Definition int_truediv (a b : Z) : outcome float :=
  if decide (b = 0) then Raise ZeroDivisionError
  else if decide (a = 0) then Return (S754_zero (b <? 0))
  else checked (SFdiv prec emax (magnitude a) (magnitude b)).

(** [x / y] on two floats. *)
Definition truediv (x y : float) : outcome float :=
  if is_zero y then Raise ZeroDivisionError
  else Return (SFdiv prec emax x y).

(** The number of the format nearest to a number of a wider one. *)
Definition narrow (x : float) : float :=
  match x with
  | S754_finite s m e => binary_round prec emax s m e
  | _ => x
  end.

End Format.

End IEEE.

(** A Python [float]. *)
Module Binary64.

Definition prec : Z := 53.
Definition emax : Z := 1024.

Definition of_int : Z → outcome IEEE.float := IEEE.of_int prec emax.
Definition int_truediv : Z → Z → outcome IEEE.float :=
  IEEE.int_truediv prec emax.
Definition truediv : IEEE.float → IEEE.float → outcome IEEE.float :=
  IEEE.truediv prec emax.
Definition add : IEEE.float → IEEE.float → IEEE.float := SFadd prec emax.
Definition sub : IEEE.float → IEEE.float → IEEE.float := SFsub prec emax.
Definition mul : IEEE.float → IEEE.float → IEEE.float := SFmul prec emax.
Definition opp : IEEE.float → IEEE.float := SFopp.

(** [x / n] for a float and an int. *)
Definition truediv_int (x : IEEE.float) (n : Z) : outcome IEEE.float :=
  d ← of_int n; truediv x d.

(** [math.pi] *)
Definition pi : IEEE.float := S754_finite false 7074237752028440 (-51).

End Binary64.

(** A NumPy [float32]. *)
Module Binary32.

Definition prec : Z := 24.
Definition emax : Z := 128.

Definition int_truediv : Z → Z → outcome IEEE.float :=
  IEEE.int_truediv prec emax.
Definition mul : IEEE.float → IEEE.float → IEEE.float := SFmul prec emax.

(** The conversion of a Python [float] that meets a [float32] array. *)
Definition of_double : IEEE.float → IEEE.float := IEEE.narrow prec emax.

End Binary32.

(** ** Text of a coordinate pair *)

(** [str(z)] for an int. *)
Definition str_int (z : Z) : string := NilEmpty.string_of_int (Z.to_int z).

(** [str([x, y])] for a list of two ints. *)
Definition str_pair (x y : Z) : string :=
  "[" +:+ str_int x +:+ ", " +:+ str_int y +:+ "]".

Definition is_digit (c : ascii) : bool :=
  (48 <=? N.to_nat (N_of_ascii c))%nat && (N.to_nat (N_of_ascii c) <=? 57)%nat.

Fixpoint all_chars (p : ascii → bool) (s : string) : bool :=
  match s with
  | EmptyString => true
  | String c s' => p c && all_chars p s'
  end.

(** A decimal integer literal of Python: digits, not empty, and no leading
    zero unless every digit is zero. *)
Definition decinteger (s : string) : bool :=
  match s with
  | EmptyString => false
  | String c s' =>
      all_chars is_digit s
      && (negb (Ascii.eqb c "0") || all_chars (Ascii.eqb "0"%char) s')
  end.

(** An optionally negated decimal integer literal. *)
Definition parse_int (s : string) : option Z :=
  let digits := match s with
                | String "-" s' => s'
                | _ => s
                end in
  if decinteger digits then Z.of_int <$> NilEmpty.int_of_string s else None.

(** Splits a string at the first occurrence of a character, which is
    dropped. *)
Fixpoint split_at (c : ascii) (s : string) : option (string * string) :=
  match s with
  | EmptyString => None
  | String a s' =>
      if Ascii.eqb a c then Some (EmptyString, s')
      else '(l, r) ← split_at c s'; Some (String a l, r)
  end.

Fixpoint skip_spaces (s : string) : string :=
  match s with
  | String " " s' => skip_spaces s'
  | _ => s
  end.

(** [ast.literal_eval(s)] followed by the unpacking [x, y = ...], on the
    fragment of Python's literals that the coordinate tables hold: a list
    of two int literals, ["[x, y]"], the comma followed by any number of
    blanks.  Any other text is reported as [ValueError]; Python reads more
    literals than this (floats, tuples, blanks elsewhere), which the tables
    written by [str([x, y])] never contain. *)
Definition parse_pair (s : string) : outcome (Z * Z) :=
  match s with
  | String "[" s1 =>
      match split_at "," s1 with
      | Some (sx, s2) =>
          match split_at "]" (skip_spaces s2) with
          | Some (sy, EmptyString) =>
              match parse_int sx, parse_int sy with
              | Some x, Some y => Return (x, y)
              | _, _ => Raise ValueError
              end
          | _ => Raise ValueError
          end
      | None => Raise ValueError
      end
  | _ => Raise ValueError
  end.

(** [os.path.join(a, b)] and [os.path.basename(p)] of [posixpath]. *)
Definition starts_with_slash (s : string) : bool :=
  match s with
  | String "/" _ => true
  | _ => false
  end.

Fixpoint ends_with_slash (s : string) : bool :=
  match s with
  | EmptyString => false
  | String c EmptyString => Ascii.eqb c "/"
  | String _ s' => ends_with_slash s'
  end.

Definition os_path_join (a b : string) : string :=
  if starts_with_slash b then b
  else if bool_decide (a = EmptyString) || ends_with_slash a then a +:+ b
  else a +:+ "/" +:+ b.

Fixpoint contains_slash (s : string) : bool :=
  match s with
  | EmptyString => false
  | String c s' => Ascii.eqb c "/" || contains_slash s'
  end.

Fixpoint os_path_basename (p : string) : string :=
  match p with
  | EmptyString => EmptyString
  | String _ p' => if contains_slash p then os_path_basename p' else p
  end.

(** ** Data frames *)

(** A cell of an object column: a text, or [NaN] for a missing entry. *)
Inductive cell :=
  | NaN
  | Str (s : string).

#[global] Instance cell_eq_dec : EqDecision cell.
Proof. solve_decision. Defined.

(** A row maps column names to cells.  A frame is its column names and its
    rows in order, each with its index label; a name absent from a row
    reads as [NaN]. *)
Record DataFrame := mkDF {
  df_columns : list string;
  df_rows : list (nat * gmap string cell)
}.

Module Table.

Definition row_get (r : gmap string cell) (col : string) : cell :=
  default NaN (r !! col).

(** The element-wise [==] of a column with a value: [NaN] equals nothing. *)
Definition cell_eqb (a b : cell) : bool :=
  match a, b with
  | Str s, Str t => bool_decide (s = t)
  | _, _ => false
  end.

Definition selects (kcol : string) (key : cell) (r : nat * gmap string cell)
    : bool :=
  cell_eqb (row_get r.2 kcol) key.

(** A column label taken from a cell; a missing name is not a label of the
    tables modelled here. *)
Definition col_label (c : cell) : outcome string :=
  match c with
  | Str s => Return s
  | NaN => Raise KeyError
  end.

(** [df[col]]: the values of a column, in row order. *)
Definition column (df : DataFrame) (col : string) : outcome (list cell) :=
  if decide (col ∈ df_columns df)
  then Return ((λ r, row_get r.2 col) <$> df_rows df)
  else Raise KeyError.

(** [Series.unique()]: the distinct values in order of first appearance. *)
Fixpoint unique_from (seen l : list cell) : list cell :=
  match l with
  | [] => []
  | c :: l' =>
      if decide (c ∈ seen) then unique_from seen l'
      else c :: unique_from (c :: seen) l'
  end.
Definition unique (l : list cell) : list cell := unique_from [] l.

(** [df.loc[df[kcol] == key, col].values[0]] *)
Definition loc_get (df : DataFrame) (kcol : string) (key : cell)
    (col : string) : outcome cell :=
  if decide (kcol ∈ df_columns df) then
    if decide (col ∈ df_columns df) then
      match List.filter (selects kcol key) (df_rows df) with
      | r :: _ => Return (row_get r.2 col)
      | [] => Raise IndexError
      end
    else Raise KeyError
  else Raise KeyError.

(** [df.loc[df[kcol] == key, col] = v]; a column that does not exist yet is
    added. *)
Definition loc_set (df : DataFrame) (kcol : string) (key : cell)
    (col : string) (v : cell) : outcome DataFrame :=
  if decide (kcol ∈ df_columns df) then
    Return {|
      df_columns := if decide (col ∈ df_columns df) then df_columns df
                    else df_columns df ++ [col];
      df_rows := (λ r, if selects kcol key r
                       then (r.1, <[col := v]> r.2) else r) <$> df_rows df
    |}
  else Raise KeyError.

(** [ast.literal_eval(c)] unpacked into two ints. *)
Definition literal_eval (c : cell) : outcome (Z * Z) :=
  match c with
  | Str s => parse_pair s
  | NaN => Raise ValueError
  end.

(** [df_model["name"].unique()] *)
Definition vocabulary (df_model : DataFrame) : outcome (list cell) :=
  unique <$> column df_model "name".

(** The coordinates a table holds for a file and a landmark. *)
Definition coords (df : DataFrame) (file_name lmk : string)
    : outcome (Z * Z) :=
  c ← loc_get df "file name" (Str file_name) lmk; literal_eval c.

End Table.

(** ** Images *)

(** A two-dimensional array: [shape = (height, width)], and the sample at
    row [i], column [j]. *)
Record image := mkImage {
  height : nat;
  width : nat;
  px : nat → nat → Q
}.

Module Transform.
Import Table.

(** The samples of an image, row by row. *)
Definition pixels (img : image) : list Q :=
  i ← seq 0 (height img); (λ j, px img i j) <$> seq 0 (width img).

Definition np_mean (l : list Q) : Q :=
  (foldr Qplus 0 l / inject_Z (Z.of_nat (length l)))%Q.

(** [np.mean(image[image > 0])] *)
Definition mean_positive (img : image) : Q :=
  np_mean (List.filter (Qlt_bool 0) (pixels img)).

Definition map_px (f : Q → Q) (img : image) : image :=
  {| height := height img; width := width img;
     px := λ i j, f (px img i j) |}.

(** [.astype('uint16')] *)
Definition astype_uint16 (img : image) : image :=
  map_px (λ q, inject_Z (py_int q mod 65536)) img.

(** The length of a non-negative array dimension given as an int. *)
Definition dimension (z : Z) : outcome nat :=
  if decide (z < 0) then Raise ValueError else Return (Z.to_nat z).

Section Library.

(** Samplers of the array libraries: the value of the output at a
    position. *)
Variable resize_px : image → nat → nat → nat → nat → Q.
Variable zoom_px : image → Q → Q → nat → nat → Q.
Variable rotate_px : image → Q → Q → nat → nat → Q.
Variables math_cos math_sin : Q → Q.
Variable math_pi : Q.

(** [skimage.transform.resize(img, (h, w), preserve_range=True,
    anti_aliasing=True)]: an array of the shape asked for. *)
Definition resize (img : image) (h w : nat) : image :=
  {| height := h; width := w; px := resize_px img h w |}.

(** [ndimage.zoom(img, zoom, mode='constant', cval=cval)]: each dimension
    is [int(round(n * zoom))]. *)
Definition ndimage_zoom (img : image) (zoom cval : Q) : image :=
  {| height := Z.to_nat (py_round (inject_Z (Z.of_nat (height img)) * zoom));
     width := Z.to_nat (py_round (inject_Z (Z.of_nat (width img)) * zoom));
     px := zoom_px img zoom cval |}.

(** [ndimage.rotate(img, angle, reshape=False, mode='constant',
    cval=cval)]: the shape of the input is kept. *)
Definition ndimage_rotate (img : image) (angle cval : Q) : image :=
  {| height := height img; width := width img;
     px := rotate_px img angle cval |}.

(** As in the source, [width] is computed from [shape[0]] and [height]
    from [shape[1]], and the image is resized to [(width, height)]. *)
Definition image_downsample (img : image) (binning : Z) (normalize : bool)
    : outcome image :=
  qw ← py_truediv (Z.of_nat (height img)) binning;
  qh ← py_truediv (Z.of_nat (width img)) binning;
  w ← dimension (py_int qw);
  h ← dimension (py_int qh);
  let img := astype_uint16 (resize img w h) in
  if normalize
  then let mean := mean_positive img in
       Return (map_px (λ q, q / mean)%Q img)
  else Return img.

Definition landmarks_downsample (file_name : string)
    (df_landmarks df_model : DataFrame) (binning : Z) : outcome DataFrame :=
  names ← vocabulary df_model;
  for_each names (λ lmk df,
    col ← col_label lmk;
    c ← loc_get df "file name" (Str file_name) col;
    '(x, y) ← literal_eval c;
    qx ← py_truediv x binning;
    qy ← py_truediv y binning;
    loc_set df "file name" (Str file_name) col
      (Str (str_pair (py_int qx) (py_int qy)))) df_landmarks.

Definition rotate_image (img : image) (angle : Q) : image :=
  let av_brightness := mean_positive img in
  ndimage_rotate img (- angle)%Q av_brightness.

(** [a[start:stop]] on an axis of length [n]: the first index taken and
    how many are.  A sliced assignment whose right-hand side has another
    shape raises (broadcasting of a dimension of length one is not
    modelled). *)
Definition slice (start stop : Z) (n : nat) : nat * nat :=
  let clip z := Z.to_nat (Z.min (Z.max 0 (if decide (z < 0) then z + Z.of_nat n else z))
                                (Z.of_nat n)) in
  (clip start, (clip stop - clip start)%nat).

Definition scale_image (img : image) (zoom : Q) : outcome image :=
  let av_color := mean_positive img in
  if Qlt_bool 1 zoom then
    let scaled_image := ndimage_zoom img zoom av_color in
    let '(o_y_s, o_x_s) := (height img, width img) in
    let '(n_y_s, n_x_s) := (height scaled_image, width scaled_image) in
    let startx := Z.of_nat n_x_s / 2 - Z.of_nat o_x_s / 2 in
    let starty := Z.of_nat n_y_s / 2 - Z.of_nat o_y_s / 2 in
    let '(y0, ny) := slice starty (starty + Z.of_nat o_y_s) n_y_s in
    let '(x0, nx) := slice startx (startx + Z.of_nat o_x_s) n_x_s in
    Return {| height := ny; width := nx;
              px := λ i j, px scaled_image (y0 + i)%nat (x0 + j)%nat |}
  else
    let scaled_image := ndimage_zoom img zoom av_color in
    let new_image := {| height := height img; width := width img;
                        px := λ _ _, (1 * av_color)%Q |} in
    let '(o_y_s, o_x_s) := (height img, width img) in
    let '(n_y_s, n_x_s) := (height scaled_image, width scaled_image) in
    let startx := Z.of_nat o_x_s / 2 - Z.of_nat n_x_s / 2 in
    let starty := Z.of_nat o_y_s / 2 - Z.of_nat n_y_s / 2 in
    let '(y0, ny) := slice starty (starty + Z.of_nat n_y_s) o_y_s in
    let '(x0, nx) := slice startx (startx + Z.of_nat n_x_s) o_x_s in
    if decide (ny = n_y_s ∧ nx = n_x_s) then
      Return {| height := height new_image; width := width new_image;
                px := λ i j,
                  if decide ((y0 ≤ i < y0 + ny) ∧ (x0 ≤ j < x0 + nx))%nat
                  then px scaled_image (i - y0)%nat (j - x0)%nat
                  else px new_image i j |}
    else Raise ValueError.

Definition scale_landmarks (img : image) (zoom : Q)
    (df_landmarks df_model : DataFrame) (filename : string)
    : outcome DataFrame :=
  let '(ox, oy) := (inject_Z (Z.of_nat (width img)) / 2,
                    inject_Z (Z.of_nat (height img)) / 2)%Q in
  names ← vocabulary df_model;
  for_each names (λ lmk df,
    col ← col_label lmk;
    c ← loc_get df "file name" (Str filename) col;
    '(x, y) ← literal_eval c;
    let qx := py_round (ox + zoom * (inject_Z x - ox))%Q in
    let qy := py_round (oy + zoom * (inject_Z y - oy))%Q in
    loc_set df "file name" (Str filename) col (Str (str_pair qx qy)))
    df_landmarks.

Definition rotate_landmarks (img : image) (angle : Q)
    (df_landmarks_train df_model : DataFrame) (filename : string)
    : outcome DataFrame :=
  let '(ox, oy) := (inject_Z (Z.of_nat (width img)) / 2,
                    inject_Z (Z.of_nat (height img)) / 2)%Q in
  let rad_angle := (angle * math_pi / 180)%Q in
  names ← vocabulary df_model;
  for_each names (λ lmk df,
    col ← col_label lmk;
    c ← loc_get df "file name" (Str filename) col;
    '(x, y) ← literal_eval c;
    let qx := py_round (ox + math_cos rad_angle * (inject_Z x - ox)
                        - math_sin rad_angle * (inject_Z y - oy))%Q in
    let qy := py_round (oy + math_sin rad_angle * (inject_Z x - ox)
                        + math_cos rad_angle * (inject_Z y - oy))%Q in
    loc_set df "file name" (Str filename) col (Str (str_pair qx qy)))
    df_landmarks_train.

End Library.

End Transform.

(** ** Train / validation split *)

Module Split.
Import Table.

(** [df.dropna()]: the rows without a missing entry. *)
Definition dropna (df : DataFrame) : DataFrame :=
  {| df_columns := df_columns df;
     df_rows := List.filter
       (λ r, forallb (λ col, bool_decide (row_get r.2 col ≠ NaN))
                     (df_columns df))
       (df_rows df) |}.

(** [df.reset_index(drop=True)]: the rows are labelled [0, 1, ...]. *)
Definition reset_index (df : DataFrame) : DataFrame :=
  {| df_columns := df_columns df;
     df_rows := imap (λ k r, (k, r.2)) (df_rows df) |}.

(** [df.index] *)
Definition index (df : DataFrame) : list nat := fst <$> df_rows df.

(** What the random generator hands to [sample]: [n] distinct positions
    of a frame of [len] rows. *)
Definition is_draw (n len : nat) (picks : list nat) : Prop :=
  length picks = n ∧ NoDup picks ∧ ∀ i, i ∈ picks → (i < len)%nat.

(** [df.sample(n, ignore_index=True)], the positions drawn being [picks]:
    the rows at these positions, labelled [0 .. n-1]. *)
Definition sample (df : DataFrame) (n : Z) (picks : list nat)
    : outcome DataFrame :=
  if decide (n < 0 ∨ Z.of_nat (length (df_rows df)) < n)
  then Raise ValueError
  else Return {|
    df_columns := df_columns df;
    df_rows := imap (λ k r, (k, r.2))
                 (omap (λ i, df_rows df !! i) picks) |}.

(** [df.drop(labels)]: the rows with these index labels are removed; a
    label that the frame does not have is an error. *)
Definition drop (df : DataFrame) (labels : list nat) : outcome DataFrame :=
  if decide (labels ⊆ index df) then
    Return {| df_columns := df_columns df;
              df_rows := List.filter (λ r, bool_decide (r.1 ∉ labels))
                           (df_rows df) |}
  else Raise KeyError.

(** Lines 284-291 of [training_data_preprocessing]: the cleaned copy of
    the table and its separation into a training and a validation table,
    returned in this order. *)
Definition training_data_split (df_landmarks : DataFrame) (test_size : Q)
    (picks : list nat) : outcome (DataFrame * DataFrame) :=
  let df_landmarks_copy := df_landmarks in
  let df_landmarks_copy := dropna df_landmarks_copy in
  let df_landmarks_copy := reset_index df_landmarks_copy in
  let n := py_int (test_size
                   * inject_Z (Z.of_nat (length (df_rows df_landmarks_copy))))%Q in
  sampled ← sample df_landmarks_copy n picks;
  let df_landmarks_val := reset_index sampled in
  dropped ← drop df_landmarks_copy (index df_landmarks_val);
  let df_landmarks_train := reset_index dropped in
  Return (df_landmarks_train, df_landmarks_val).

(** The file names of a table. *)
Definition file_names (df : DataFrame) : list cell :=
  (λ r, row_get r.2 "file name") <$> df_rows df.

End Split.

(** ** Arrays *)

(** An n-dimensional array of floats: its shape and its elements in row
    major order. *)
Record ndarray := mkArray {
  nd_shape : list nat;
  nd_data : list Q
}.

Definition nd_size (shape : list nat) : nat := foldr Nat.mul 1%nat shape.

(** [a.reshape(shape)] *)
Definition reshape (a : ndarray) (shape : list nat) : outcome ndarray :=
  if decide (nd_size shape = length (nd_data a))
  then Return {| nd_shape := shape; nd_data := nd_data a |}
  else Raise ValueError.

(** [np.asarray(images)] for a list of two-dimensional arrays, which must
    all have one shape. *)
Definition np_asarray_images (images : list image) : outcome ndarray :=
  match images with
  | [] => Return {| nd_shape := [0%nat]; nd_data := [] |}
  | img :: _ =>
      if decide (Forall (λ i, height i = height img ∧ width i = width img)
                        images)
      then Return {| nd_shape := [length images; height img; width img];
                     nd_data := images ≫= Transform.pixels |}
      else Raise ValueError
  end.

(** [np.array(rows, dtype=float)] for a list of lists of ints, which must
    all have one length. *)
Definition np_array_rows (rows : list (list Z)) : outcome ndarray :=
  match rows with
  | [] => Return {| nd_shape := [0%nat]; nd_data := [] |}
  | r :: _ =>
      if decide (Forall (λ r', length r' = length r) rows)
      then Return {| nd_shape := [length rows; length r];
                     nd_data := inject_Z <$> concat rows |}
      else Raise ValueError
  end.

(** ** Dataset loader *)

Module Loader.
Import Table.

(** The image files on disk, by path. *)
Definition filesystem := gmap string image.

(** [np.asarray(Image.open(path))] *)
Definition Image_open (fs : filesystem) (path : cell) : outcome image :=
  match path with
  | Str p =>
      match fs !! p with
      | Some img => Return img
      | None => Raise FileNotFoundError
      end
  | NaN => Raise AttributeError
  end.

Definition shape (img : image) : nat * nat := (height img, width img).

(** The loop of [check_image_shape], which leaves at the first image of
    another shape. *)
Fixpoint check_each (fs : filesystem) (img_shape : nat * nat)
    (paths : list cell) : outcome (option (nat * nat)) :=
  match paths with
  | [] => Return (Some img_shape)
  | img_path :: rest =>
      img ← Image_open fs img_path;
      if decide (img_shape ≠ shape img) then Return None
      else check_each fs img_shape rest
  end.

Definition check_image_shape (fs : filesystem) (df_files : DataFrame)
    : outcome (option (nat * nat)) :=
  paths ← column df_files "full path";
  match paths with
  | [] => Raise IndexError
  | img_path :: _ =>
      img ← Image_open fs img_path;
      let img_shape := shape img in
      check_each fs img_shape paths
  end.

(** [df["full path"] = os.path.join(folder, "") + df["file name"]] *)
Definition set_full_path (folder : string) (df : DataFrame)
    : outcome DataFrame :=
  if decide ("file name" ∈ df_columns df) then
    Return {|
      df_columns := if decide ("full path" ∈ df_columns df)
                    then df_columns df else df_columns df ++ ["full path"];
      df_rows := (λ r, (r.1, <["full path" :=
                     match row_get r.2 "file name" with
                     | Str name => Str (os_path_join folder "" +:+ name)
                     | NaN => NaN
                     end]> r.2)) <$> df_rows df |}
  else Raise KeyError.

(** Lines 382-407 of [import_data], after the path column is set. *)
Definition import_arrays (fs : filesystem)
    (df_landmarks df_files df_model : DataFrame)
    : outcome (option (ndarray * ndarray)) :=
  img_shape ← check_image_shape fs df_files;
  match img_shape with
  | Some img_shape =>
      (* [if img_shape:] holds for every tuple of two dimensions *)
      paths ← unique <$> column df_files "full path";
      '(images_array, all_landmarks_positions) ←
        for_each paths (λ image_path acc,
          image ← Image_open fs image_path;
          names ← vocabulary df_model;
          landmark_positions ← for_each names (λ lmk positions,
            col ← col_label lmk;
            c ← loc_get df_landmarks "full path" image_path col;
            '(x, y) ← literal_eval c;
            Return (positions ++ [x; y])) [];
          Return (acc.1 ++ [image], acc.2 ++ [landmark_positions]))
        ([], []);
      images ← np_asarray_images images_array;
      n ← length ∘ unique <$> column df_landmarks "full path";
      X ← reshape images [n; img_shape.1; img_shape.2; 1%nat];
      y ← np_array_rows all_landmarks_positions;
      Return (Some (X, y))
  | None => Return None
  end.

(** The tables are objects: [import_data] writes the path column into the
    table [df_landmarks] refers to, and reads the table [df_files] refers
    to afterwards; the two may be one object, as in
    [import_train_val_data]. *)
Definition heap := gmap nat DataFrame.

Definition import_data (fs : filesystem) (folder : string)
    (df_landmarks df_files : nat) (df_model : DataFrame) (σ : heap)
    : heap * outcome (option (ndarray * ndarray)) :=
  match σ !! df_landmarks with
  | Some landmarks =>
      match set_full_path folder landmarks with
      | Return landmarks' =>
          let σ' := <[df_landmarks := landmarks']> σ in
          match σ' !! df_files with
          | Some files => (σ', import_arrays fs landmarks' files df_model)
          | None => (σ', Raise NameError)
          end
      | Raise e => (σ, Raise e)
      end
  | None => (σ, Raise NameError)
  end.

End Loader.

(** ** Prediction *)

Module Predict.
Import Table Transform Loader.

(** A trained network: [input_shape = (None, model_height, model_width, 1)]
    and what [predict] answers on a batch. *)
Record keras_model := mkModel {
  model_height : nat;
  model_width : nat;
  predict : ndarray → ndarray
}.

(** [a[i, j, k]] for an array of three dimensions. *)
Definition nd_get3 (a : ndarray) (i j k : nat) : outcome Q :=
  match nd_shape a with
  | [n0; n1; n2] =>
      if decide (i < n0 ∧ j < n1 ∧ k < n2)%nat then
        match nd_data a !! ((i * n1 + j) * n2 + k)%nat with
        | Some q => Return q
        | None => Raise IndexError
        end
      else Raise IndexError
  | _ => Raise IndexError
  end.

(** [df[[col]].copy()] *)
Definition select_column (df : DataFrame) (col : string)
    : outcome DataFrame :=
  if decide (col ∈ df_columns df) then
    Return {| df_columns := [col];
              df_rows := (λ r, (r.1, {[ col := row_get r.2 col ]}))
                         <$> df_rows df |}
  else Raise KeyError.

(** [df[col] = np.nan] *)
Definition set_column_nan (df : DataFrame) (col : string) : DataFrame :=
  {| df_columns := if decide (col ∈ df_columns df) then df_columns df
                   else df_columns df ++ [col];
     df_rows := (λ r, (r.1, <[col := NaN]> r.2)) <$> df_rows df |}.

(** [df[col][i]]: the entry of the row labelled [i]. *)
Definition at_label (df : DataFrame) (col : string) (i : nat)
    : outcome cell :=
  if decide (col ∈ df_columns df) then
    match List.filter (λ r, bool_decide (r.1 = i)) (df_rows df) with
    | r :: _ => Return (row_get r.2 col)
    | [] => Raise KeyError
    end
  else Raise KeyError.

Section Library.

Variable resize_px : image → nat → nat → nat → nat → Q.

(** The table of predicted landmarks and the path of the CSV file it is
    written to.  The updates of the window are left out. *)
Definition predict_landmarks (fs : filesystem) (df_files df_model : DataFrame)
    (model : keras_model) (project_folder : string) (normalization : bool)
    (lmk_filename : string) : outcome (string * DataFrame) :=
  let model_width := model_width model in
  let model_height := model_height model in
  paths ← unique <$> column df_files "full path";
  '(images, last_image) ← for_each paths (λ image_name acc,
    image ← Image_open fs image_name;
    let image := if normalization
                 then let mean := mean_positive image in
                      map_px (λ q, q / mean)%Q image
                 else image in
    let resized_image := resize resize_px image model_height model_width in
    Return (acc.1 ++ [resized_image], Some image)) ([], None);
  image ← match last_image with
          | Some image => Return image
          | None => Raise NameError
          end;
  let image_width := width image in
  let image_height := height image in
  binning_w ← py_truediv (Z.of_nat image_width) (Z.of_nat model_width);
  binning_h ← py_truediv (Z.of_nat image_height) (Z.of_nat model_height);
  stacked ← np_asarray_images images;
  X ← reshape stacked [length paths; model_height; model_width; 1%nat];
  let train_predicts := predict model X in
  file_names ← column df_files "file name";
  targets ← column df_model "target";
  prediction ← reshape train_predicts [length file_names; length targets; 2%nat];
  let prediction :=
    {| nd_shape := nd_shape prediction;
       nd_data := imap (λ k q, if Nat.even k then binning_w * q
                               else binning_h * q)%Q (nd_data prediction) |} in
  landmark_names ← vocabulary df_model;
  df_pred_lmk ← select_column df_files "file name";
  df_pred_lmk ← for_each landmark_names (λ landmark df,
    col ← col_label landmark;
    Return (set_column_nan df col)) df_pred_lmk;
  df_pred_lmk ← for_each (seq 0 (length file_names)) (λ i df,
    for_each (seq 0 (length landmark_names)) (λ j df,
      lmk ← match landmark_names !! j with
            | Some lmk => Return lmk
            | None => Raise IndexError
            end;
      x ← py_int <$> nd_get3 prediction i j 0;
      y ← py_int <$> nd_get3 prediction i j 1;
      name ← at_label df_files "file name" i;
      col ← col_label lmk;
      loc_set df "file name" name col (Str (str_pair x y))) df) df_pred_lmk;
  Return (os_path_join project_folder lmk_filename, df_pred_lmk).

End Library.

End Predict.

(** ** Checkpoint policy of the training monitor *)

Module Checkpoint.

(** A value kept in [self.metrics]: a float of the logs, or the empty list
    that [on_train_begin] stores. *)
Inductive pyval :=
  | Num (q : Q)
  | EmptyList.

(** [a < b] *)
Definition py_lt (a b : pyval) : outcome bool :=
  match a, b with
  | Num p, Num q => Return (Qlt_bool p q)
  | EmptyList, EmptyList => Return false
  | _, _ => Raise TypeError
  end.

(** [round(v, 2)], of which only the failure matters here. *)
Definition displayable (v : pyval) : outcome unit :=
  match v with
  | Num _ => Return ()
  | EmptyList => Raise TypeError
  end.

(** [d[k]] *)
Definition item {A} (d : gmap string A) (k : string) : outcome A :=
  match d !! k with
  | Some v => Return v
  | None => Raise KeyError
  end.

(** An attribute that a later method creates. *)
Definition attr {A} (a : option A) : outcome A :=
  match a with
  | Some v => Return v
  | None => Raise AttributeError
  end.

Section Weights.

(** The state of a network: what [copy.deepcopy(self.model)] captures and
    what [save] writes. *)
Variable W : Type.

Record WindowCallback := mkCallback {
  epochs_left : Z;
  folder : string;
  save_freq : Z;
  model_name : string;
  filepath : string;
  metrics : option (gmap string pyval);
  previous_metrics : option (gmap string pyval);
  current_epoch : option Z;
  model_to_save : option W
}.

(** A write to disk, recorded with the method that did it: the periodic
    save of [on_epoch_end], with the number of the epoch that ended, or
    the save of [on_train_end]. *)
Inductive event :=
  | PeriodicSave (epoch : Z) (path : string) (w : W)
  | FinalSave (path : string) (w : W).

(** The files on disk and the writes so far, latest last. *)
Record world := mkWorld {
  disk : gmap string W;
  log : list event
}.

(** [m.save(path, overwrite=True)] *)
Definition save (ev : event) (path : string) (w : W) (x : world) : world :=
  {| disk := <[path := w]> (disk x); log := log x ++ [ev] |}.

Definition default_save_freq : Z := 10.
Definition default_model_name : string := "landmarks_detection_model.h5".

(** [WindowCallback(window, nb_epochs, folder, save_freq, model_name)] *)
Definition init (nb_epochs : Z) (folder : string) (save_freq : Z)
    (model_name : string) : WindowCallback :=
  {| epochs_left := nb_epochs;
     folder := folder;
     save_freq := save_freq;
     model_name := model_name;
     filepath := os_path_join folder model_name +:+ ".h5";
     metrics := None;
     previous_metrics := None;
     current_epoch := None;
     model_to_save := None |}.

Definition on_train_begin (self : WindowCallback) (logs : gmap string Q)
    : WindowCallback :=
  {| epochs_left := epochs_left self;
     folder := folder self;
     save_freq := save_freq self;
     model_name := model_name self;
     filepath := filepath self;
     metrics := Some ((λ _, EmptyList) <$> logs);
     previous_metrics := Some ((λ _, EmptyList) <$> logs);
     current_epoch := Some 0;
     model_to_save := model_to_save self |}.

(** The two lines of the window that show the precision; they read the
    metrics and can fail. *)
Definition display (metrics : gmap string pyval) : outcome unit :=
  _ ← (if decide (is_Some (metrics !! "mae"))
       then v ← item metrics "mae"; displayable v
       else if decide (is_Some (metrics !! "mean_absolute_error"))
       then v ← item metrics "mean_absolute_error"; displayable v
       else v ← item metrics "loss"; displayable v);
  if decide (is_Some (metrics !! "val_mae"))
  then v ← item metrics "val_mae"; displayable v
  else if decide (is_Some (metrics !! "val_mean_absolute_error"))
  then v ← item metrics "val_mean_absolute_error"; displayable v
  else v ← item metrics "val_loss"; displayable v.

(** [on_epoch_end(epoch, logs)]; [model] is the network [self.model]
    refers to, as it is when the epoch ends. *)
Definition on_epoch_end (self : WindowCallback) (epoch : Z)
    (logs : gmap string Q) (model : W) (x : world)
    : outcome (WindowCallback * world) :=
  old ← attr (metrics self);
  let previous_metrics := old in
  let metrics := (Num <$> logs) ∪ old in
  let epochs_left := epochs_left self - 1 in
  n ← attr (current_epoch self);
  let current_epoch := n + 1 in
  _ ← display metrics;
  '(model_to_save, x) ←
    (if decide (current_epoch > 1) then
       now ← item metrics "val_loss";
       before ← item previous_metrics "val_loss";
       improved ← py_lt now before;
       let model_to_save :=
         if (improved : bool) then Some model else model_to_save self in
       if decide (save_freq self = 0) then Raise ZeroDivisionError
       else if decide (epochs_left `mod` save_freq self = 0) then
         w ← attr model_to_save;
         Return (model_to_save,
                 save (PeriodicSave current_epoch (filepath self) w)
                      (filepath self) w x)
       else Return (model_to_save, x)
     else Return (Some model, x));
  Return ({| epochs_left := epochs_left;
             folder := folder self;
             save_freq := save_freq self;
             model_name := model_name self;
             filepath := filepath self;
             metrics := Some metrics;
             previous_metrics := Some previous_metrics;
             current_epoch := Some current_epoch;
             model_to_save := model_to_save |}, x).

Definition on_train_end (self : WindowCallback) (model : W) (x : world)
    : world :=
  let filepath := os_path_join (folder self) (model_name self) +:+ ".h5" in
  save (FinalSave filepath model) filepath model x.

(** The epochs of [model.fit]: one call of [on_epoch_end] per epoch, with
    the logs of the epoch and the network it leaves.  The result keeps the
    network of the last epoch. *)
Fixpoint epochs (history : list (gmap string Q * W)) (epoch : Z)
    (self : WindowCallback) (model : W) (x : world)
    : outcome (WindowCallback * W * world) :=
  match history with
  | [] => Return (self, model, x)
  | (logs, model') :: rest =>
      '(self', x') ← on_epoch_end self epoch logs model' x;
      epochs rest (epoch + 1) self' model' x'
  end.

(** [model.fit(..., callbacks=[self])] as the monitor sees it: the start,
    the epochs, the end.  [model] is the network before training. *)
Definition fit (self : WindowCallback) (model : W)
    (history : list (gmap string Q * W)) (x : world)
    : outcome (WindowCallback * world) :=
  let self := on_train_begin self ∅ in
  '(self, model, x) ← epochs history 0 self model x;
  Return (self, on_train_end self model x).

(** The epochs after which a periodic save happened. *)
Definition periodic_epochs (l : list event) : list Z :=
  omap (λ ev, match ev with
              | PeriodicSave e _ _ => Some e
              | FinalSave _ _ => None
              end) l.

Definition event_path (ev : event) : string :=
  match ev with
  | PeriodicSave _ p _ => p
  | FinalSave p _ => p
  end.

End Weights.

Arguments PeriodicSave {W}.
Arguments FinalSave {W}.
Arguments mkWorld {W}.
Arguments disk {W}.
Arguments log {W}.
Arguments epochs_left {W}.
Arguments folder {W}.
Arguments save_freq {W}.
Arguments model_name {W}.
Arguments filepath {W}.
Arguments metrics {W}.
Arguments previous_metrics {W}.
Arguments current_epoch {W}.
Arguments model_to_save {W}.
Arguments on_epoch_end {W}.
Arguments on_train_begin {W}.
Arguments on_train_end {W}.
Arguments epochs {W}.
Arguments fit {W}.
Arguments periodic_epochs {W}.
Arguments event_path {W}.

End Checkpoint.

(** ** Notions used to state the properties *)

(** The characters of [str(z)]: digits and the minus sign. *)
Definition is_int_char (a : ascii) : bool := is_digit a || Ascii.eqb a "-".

Module Frame.
Import Table.

(** The rows after [loc_set]. *)
Definition set_row (kcol : string) (key : cell) (col : string) (v : cell)
    (r : nat * gmap string cell) : nat * gmap string cell :=
  if selects kcol key r then (r.1, <[col := v]> r.2) else r.

(** The body shared by the loops of [landmarks_downsample],
    [scale_landmarks] and [rotate_landmarks]: the coordinates of one
    landmark of one file are read, transformed by [f] and written back. *)
Definition update_landmark (f : Z → Z → outcome (Z * Z)) (file_name : string)
    (lmk : cell) (df : DataFrame) : outcome DataFrame :=
  col ← col_label lmk;
  c ← loc_get df "file name" (Str file_name) col;
  '(x, y) ← literal_eval c;
  q ← f x y;
  loc_set df "file name" (Str file_name) col (Str (str_pair q.1 q.2)).

(** The coordinate transformations of the three loops. *)
Definition downsample_xy (binning : Z) (x y : Z) : outcome (Z * Z) :=
  qx ← py_truediv x binning;
  qy ← py_truediv y binning;
  Return (py_int qx, py_int qy).

Definition scale_xy (img : image) (zoom : Q) (x y : Z) : Z * Z :=
  let '(ox, oy) := (inject_Z (Z.of_nat (width img)) / 2,
                    inject_Z (Z.of_nat (height img)) / 2)%Q in
  (py_round (ox + zoom * (inject_Z x - ox))%Q,
   py_round (oy + zoom * (inject_Z y - oy))%Q).

Definition rotate_xy (cos sin : Q → Q) (pi : Q) (img : image) (angle : Q)
    (x y : Z) : Z * Z :=
  let '(ox, oy) := (inject_Z (Z.of_nat (width img)) / 2,
                    inject_Z (Z.of_nat (height img)) / 2)%Q in
  let θ := (angle * pi / 180)%Q in
  (py_round (ox + cos θ * (inject_Z x - ox) - sin θ * (inject_Z y - oy))%Q,
   py_round (oy + sin θ * (inject_Z x - ox) + cos θ * (inject_Z y - oy))%Q).

(** What a transformation of the landmarks of [file_name] may change in a
    table: the columns and the labels stay, a row of another file stays as
    it is, and in every row the cells outside the vocabulary stay. *)
Definition frame (file_name : string) (names : list cell)
    (df df' : DataFrame) : Prop :=
  df_columns df' = df_columns df ∧
  Forall2 (λ r r',
      r'.1 = r.1 ∧
      (selects "file name" (Str file_name) r = false → r' = r) ∧
      (∀ col, Str col ∉ names → r'.2 !! col = r.2 !! col))
    (df_rows df) (df_rows df').

(** The vocabulary of a table of landmarks is well formed for a file: the
    key column is not a landmark, and the file has readable coordinates
    for every landmark. *)
Definition annotated (names : list cell) (df : DataFrame)
    (file_name : string) : Prop :=
  (Str "file name" ∉ names) ∧
  (∀ lmk, lmk ∈ names →
     ∃ col x y, lmk = Str col ∧ coords df file_name col = Return (x, y)).

End Frame.


(** ** The checkpoint policy as the specification words it *)

Module Policy.
Import Checkpoint.

Section Weights.
Variable W : Type.

(** The validation loss of an epoch and the network it leaves. *)
Definition val_loss (logs : gmap string Q) : Q := default 0%Q (logs !! "val_loss").

Definition losses (history : list (gmap string Q * W)) : list (Q * W) :=
  (λ h, (val_loss h.1, h.2)) <$> history.

(** The retained snapshot, with the validation loss of the latest epoch:
    the first epoch captures the baseline; a later epoch replaces the
    snapshot exactly when its validation loss is strictly less than that
    of the epoch before. *)
Definition retain (st : option (Q * W)) (h : Q * W) : option (Q * W) :=
  match st with
  | None => Some h
  | Some (previous, snapshot) =>
      Some (h.1, if Qlt_bool h.1 previous then h.2 else snapshot)
  end.

Definition snapshot_after (history : list (Q * W)) : option W :=
  snd <$> foldl retain None history.

(** The periodic saves of the epochs that follow epoch [k], of [n] in
    all: after an epoch later than the first whose count of remaining
    epochs is a multiple of the frequency [f], the retained snapshot is
    written to [path]. *)
Fixpoint periodic_saves (n f : Z) (path : string) (k : Z)
    (st : option (Q * W)) (history : list (Q * W)) : list (event W) :=
  match history with
  | [] => []
  | h :: rest =>
      let st' := retain st h in
      let e := k + 1 in
      (if decide (1 < e ∧ (n - e) `mod` f = 0)
       then match st' with
            | Some (_, w) => [PeriodicSave e path w]
            | None => []
            end
       else [])
      ++ periodic_saves n f path e st' rest
  end.

(** The logs of a history hold what the monitor reads. *)
Definition complete_logs (history : list (gmap string Q * W)) : Prop :=
  Forall (λ h, is_Some (h.1 !! "loss") ∧ is_Some (h.1 !! "val_loss")) history.

(** The reading of the specification in which a save follows every epoch
    whose count of remaining epochs is a multiple of the frequency. *)
Definition saves_on_every_multiple (n f : Z) (fold name : string) (model : W)
    (history : list (gmap string Q * W)) : Prop :=
  ∀ self' x',
    fit (init W n fold f name) model history (mkWorld ∅ []) = Return (self', x') →
    ∀ e, 1 ≤ e ≤ n →
      e ∈ periodic_epochs (log x') ↔ (n - e) `mod` f = 0.

(** What the monitor holds after [k] epochs of [n], when the policy is in
    state [st]. *)
Definition tracking (n f : Z) (path : string) (k : Z) (st : option (Q * W))
    (self : WindowCallback W) : Prop :=
  current_epoch self = Some k ∧
  epochs_left self = n - k ∧
  save_freq self = f ∧
  filepath self = path ∧
  ∃ m, metrics self = Some m ∧
    (∀ key v, m !! key = Some v → ∃ q, v = Num q) ∧
    match st with
    | None => k = 0
    | Some (previous, snapshot) =>
        1 ≤ k ∧ m !! "val_loss" = Some (Num previous) ∧
        model_to_save self = Some snapshot
    end.

(** The network when training ends. *)
Definition final_network (model : W) (history : list (gmap string Q * W)) : W :=
  default model (last (snd <$> history)).

End Weights.

Arguments val_loss : clear implicits.
Arguments tracking {W}.
Arguments final_network {W}.
Arguments losses {W}.
Arguments retain {W}.
Arguments snapshot_after {W}.
Arguments periodic_saves {W}.
Arguments complete_logs {W}.
Arguments saves_on_every_multiple {W}.

(** Five epochs with the validation losses 0.5, 0.5, 0.3, 0.3, 0.6; the
    network that epoch [e] leaves is numbered [e]. *)
Definition epoch_logs (loss : Q) : gmap string Q :=
  {[ "loss" := loss; "mae" := loss; "val_loss" := loss; "val_mae" := loss ]}.

Definition five_epochs : list (gmap string Q * nat) :=
  [(epoch_logs (1 # 2), 1%nat); (epoch_logs (1 # 2), 2%nat);
   (epoch_logs (3 # 10), 3%nat); (epoch_logs (3 # 10), 4%nat);
   (epoch_logs (3 # 5), 5%nat)].

End Policy.

(** ** Notions used to state the properties of the loader and the split *)

Module Dataset.
Import Table Loader.

(** Every path of the file table is an image on disk. *)
Definition referenced (fs : filesystem) (paths : list cell) : Prop :=
  ∀ p, p ∈ paths → ∃ img, Image_open fs p = Return img.

(** All the images have the shape [s]. *)
Definition uniform (fs : filesystem) (paths : list cell) (s : nat * nat)
    : Prop :=
  ∀ p img, p ∈ paths → Image_open fs p = Return img → shape img = s.


(** The coordinate table has readable coordinates for every image and
    every landmark. *)
Definition described (df_landmarks : DataFrame) (names paths : list cell)
    : Prop :=
  ∀ p lmk, p ∈ paths → lmk ∈ names →
    ∃ col c xy, lmk = Str col ∧
      loc_get df_landmarks "full path" p col = Return c ∧
      literal_eval c = Return xy.

End Dataset.

(** ** Notions used to state the properties of the prediction *)

Module Rescale.
Import Table Loader Predict.







Section Library.
Variable resize_px : image → nat → nat → nat → nat → Q.


End Library.

End Rescale.

(** ** Tables and images of the examples *)

Module Examples.

Definition row (name : string) (cells : list (string * string))
    : gmap string cell :=
  list_to_map (("file name"%string, Str name) :: (prod_map id Str <$> cells)).

(** Two annotated files and two landmarks. *)
Definition landmarks : DataFrame :=
  {| df_columns := ["file name"; "L1"; "L2"]%string;
     df_rows := [(0%nat, row "a.tif" [("L1", "[7, 3]"); ("L2", "[10, 5]")]);
                 (1%nat, row "b.tif" [("L1", "[4, 4]"); ("L2", "[9, 1]")])]
  |}.

Definition vocabulary_table : DataFrame :=
  {| df_columns := ["name"; "target"]%string;
     df_rows :=
       [(0%nat, {[ "name" := Str "L1"; "target" := Str "[0, 0]" ]});
        (1%nat, {[ "name" := Str "L2"; "target" := Str "[8, 8]" ]})]%string
  |}.

Definition names : list cell := [Str "L1"; Str "L2"]%string.

(** An image of 12 rows and 16 columns whose samples are all 100. *)
Definition flat_image (h w : nat) : image :=
  {| height := h; width := w; px := λ _ _, 100%Q |}.

(** A sampler that takes the nearest sample of the input (the sample at
    the scaled position, truncated). *)
Definition nearest (img : image) (h w : nat) (i j : nat) : Q :=
  px img (Z.to_nat (Z.of_nat i * Z.of_nat (height img) / Z.of_nat h))
         (Z.to_nat (Z.of_nat j * Z.of_nat (width img) / Z.of_nat w)).

Definition resize_nearest (img : image) (h w : nat) : nat → nat → Q :=
  nearest img h w.

Definition zoom_nearest (img : image) (zoom cval : Q) (i j : nat) : Q :=
  px img (Z.to_nat (py_int (inject_Z (Z.of_nat i) / zoom)))
         (Z.to_nat (py_int (inject_Z (Z.of_nat j) / zoom))).


(** Polynomials standing for the cosine and the sine. *)
Definition cos_poly (x : Q) : Q := (1 - x * x / 2 + x * x * x * x / 24)%Q.
Definition sin_poly (x : Q) : Q := (x - x * x * x / 6)%Q.
Definition pi_approx : Q := (355 # 113)%Q.

(** Five annotated files, for the split. *)
Definition five_samples : DataFrame :=
  {| df_columns := ["file name"; "L1"]%string;
     df_rows := [(0%nat, row "a.tif" [("L1", "[1, 1]")]);
                 (1%nat, row "b.tif" [("L1", "[2, 2]")]);
                 (2%nat, row "c.tif" [("L1", "[3, 3]")]);
                 (3%nat, row "d.tif" [("L1", "[4, 4]")]);
                 (4%nat, row "e.tif" [("L1", "[5, 5]")])]%string |}.

(** A folder with the two files of [landmarks], of one shape, and a folder
    in which the second file has another shape. *)
Definition same_shapes : Loader.filesystem :=
  {[ "data/a.tif" := flat_image 12 16; "data/b.tif" := flat_image 12 16 ]}%string.

Definition other_shape : Loader.filesystem :=
  {[ "data/a.tif" := flat_image 12 16; "data/b.tif" := flat_image 10 16 ]}%string.

(** The table of the folder is one object, at address 0 of the heap. *)
Definition one_table : Loader.heap := {[ 0%nat := landmarks ]}.



Definition network : Predict.keras_model :=
  {| Predict.model_height := 128;
     Predict.model_width := 128;
     Predict.predict := λ _,
       {| nd_shape := [1%nat; 4%nat];
          nd_data := [(515 # 8)%Q; 64%Q; 64%Q; 64%Q] |} |}.

(** Two images of different sizes and a network that answers (64, 64) for
    every landmark of both. *)
Definition two_sizes : Loader.filesystem :=
  {[ "img/a.tif" := flat_image 256 256;
     "img/b.tif" := flat_image 512 512 ]}%string.

Definition two_files : DataFrame :=
  {| df_columns := ["file name"; "full path"]%string;
     df_rows := [(0%nat, {[ "file name" := Str "a.tif";
                            "full path" := Str "img/a.tif" ]});
                 (1%nat, {[ "file name" := Str "b.tif";
                            "full path" := Str "img/b.tif" ]})]%string |}.

Definition network_of_two : Predict.keras_model :=
  {| Predict.model_height := 128;
     Predict.model_width := 128;
     Predict.predict := λ _,
       {| nd_shape := [2%nat; 4%nat];
          nd_data := [64; 64; 64; 64; 64; 64; 64; 64]%Q |} |}.

End Examples.

(** ** Augmentation of the training table *)

Module Augment.
Import Table Transform.

(** [df.loc[label, col] = v] for one index label: the cell of the rows
    with this label is set; when no row has the label, a row is appended
    whose other cells are missing. *)
Definition loc_set_label (df : DataFrame) (label : nat) (col : string)
    (v : cell) : DataFrame :=
  {| df_columns := if decide (col ∈ df_columns df) then df_columns df
                   else df_columns df ++ [col];
     df_rows :=
       if decide (label ∈ Split.index df)
       then (λ r, if decide (r.1 = label) then (r.1, <[col := v]> r.2)
                  else r) <$> df_rows df
       else df_rows df ++ [(label, {[ col := v ]})] |}.

Definition duplicate_landmarks (df_landmarks df_model : DataFrame)
    (new_filename old_filename : string) : outcome DataFrame :=
  let df_landmarks :=
    loc_set_label df_landmarks (length (df_rows df_landmarks)) "file name"
      (Str new_filename) in
  names ← vocabulary df_model;
  for_each names (λ lmk df,
    col ← col_label lmk;
    lmk_values ← loc_get df "file name" (Str old_filename) col;
    loc_set df "file name" (Str new_filename) col lmk_values) df_landmarks.

(** [f"{k}_{file_name}"] *)
Definition new_file_name (k : nat) (file_name : string) : string :=
  str_int (Z.of_nat k) +:+ "_" +:+ file_name.

(** [a + b] for two arrays of one shape. *)
Definition np_add (a b : image) : image :=
  {| height := height a; width := width a;
     px := λ i j, (px a i j + px b i j)%Q |}.

Section Library.

Variable zoom_px : image → Q → Q → nat → nat → Q.
Variable rotate_px : image → Q → Q → nat → nat → Q.
Variables math_cos math_sin : Q → Q.
Variable math_pi : Q.

(** Lines 308-327 of [training_data_preprocessing]: one augmentation of an
    image and of its landmarks.  What the random generators answer is
    given: [angle] for [rd.randint(0, 360)], [zoom_int] for
    [rd.randint(700, 1300)] and the samples [noise] for
    [np.random.normal(0, 0.02, scaled_image.shape)].  The result is the
    name and the image that are saved, and the table. *)
Definition augment (img : image) (file_name : string) (k : nat)
    (angle zoom_int : Z) (noise : nat → nat → Q)
    (df_landmarks_train df_model : DataFrame)
    : outcome (string * image * DataFrame) :=
  let zoom := (inject_Z zoom_int / 1000)%Q in
  let new_file_name := new_file_name k file_name in
  let rotated_image := rotate_image rotate_px img (inject_Z angle) in
  scaled_image ← scale_image zoom_px rotated_image zoom;
  let gauss_noise := {| height := height scaled_image;
                        width := width scaled_image; px := noise |} in
  let augmented_image := np_add scaled_image gauss_noise in
  df_landmarks_train ←
    duplicate_landmarks df_landmarks_train df_model new_file_name file_name;
  df_landmarks_train ←
    rotate_landmarks math_cos math_sin math_pi augmented_image
      (inject_Z angle) df_landmarks_train df_model new_file_name;
  df_landmarks_train ←
    scale_landmarks augmented_image zoom df_landmarks_train df_model
      new_file_name;
  Return (new_file_name, augmented_image, df_landmarks_train).

End Library.

End Augment.

(** ** Loading the training and the validation folder *)

Module Training.
Import Table Loader.

(** The CSV files on disk, by path, each as [pd.read_csv] reads it. *)
Definition csv_files := gmap string DataFrame.

Definition read_csv (csv : csv_files) (path : string) : outcome DataFrame :=
  match csv !! path with
  | Some df => Return df
  | None => Raise FileNotFoundError
  end.

(** [X, y = r] for what [import_data] returns: [None] cannot be
    unpacked. *)
Definition unpack {A} (r : option A) : outcome A :=
  match r with
  | Some p => Return p
  | None => Raise TypeError
  end.

(** The two tables read are two new objects, at the addresses 0 and 1;
    each is given to [import_data] twice. *)
Definition import_train_val_data (fs : filesystem) (csv : csv_files)
    (trainig_data_folder validation_data_folder : string)
    (df_model : DataFrame)
    : outcome (ndarray * ndarray * ndarray * ndarray) :=
  df_landmarks_train ←
    read_csv csv (os_path_join trainig_data_folder "df_landmarks.csv");
  df_landmarks_val ←
    read_csv csv (os_path_join validation_data_folder "df_landmarks.csv");
  let σ : heap := {[ 0%nat := df_landmarks_train; 1%nat := df_landmarks_val ]} in
  let '(σ, r) := import_data fs trainig_data_folder 0 0 df_model σ in
  r ← r;
  '(X_train, y_train) ← unpack r;
  let '(σ, r) := import_data fs validation_data_folder 1 1 df_model σ in
  r ← r;
  '(X_val, y_val) ← unpack r;
  Return (X_train, X_val, y_train, y_val).

(** Lines 604-605 of [train_CNN_with_window_callback]: the data are
    imported, then the name [window_callback] is looked up; the module
    defines [WindowCallback] and no [window_callback]. *)
Definition train_CNN_with_window_callback (fs : filesystem) (csv : csv_files)
    (train_folder val_folder : string) (df_model : DataFrame)
    : outcome unit :=
  _ ← import_train_val_data fs csv train_folder val_folder df_model;
  Raise NameError.

End Training.

(** ** The rows of the arrays of the loader *)

Module Alignment.
Import Table Loader.

(** The row of numbers built for the image at the path [p]: the
    coordinates that the table holds for this path, landmark after
    landmark in the order of the vocabulary. *)
Definition landmark_row (landmarks : DataFrame) (names : list cell)
    (p : cell) (row : list Z) : Prop :=
  ∃ pairs : list (Z * Z),
    Forall2 (λ lmk xy, ∃ col c,
        lmk = Str col ∧
        loc_get landmarks "full path" p col = Return c ∧
        literal_eval c = Return xy) names pairs ∧
    row = pairs ≫= (λ xy, [xy.1; xy.2]).

End Alignment.

(** ** The network *)

Module Network.
Import Table.

Inductive padding := Same | Valid.

(** The layers of [tensorflow.keras.layers] that the program uses, with
    the arguments it gives them. *)
Inductive layer :=
  | Convolution2D (filters : nat) (kernel_size : nat * nat) (pad : padding)
      (use_bias : bool)
  | LeakyReLU (alpha : Q)
  | BatchNormalization
  | MaxPool2D (pool_size : nat * nat)
  | Flatten
  | Dense (units : nat) (activation : option string).

Definition is_BatchNormalization (l : layer) : bool :=
  match l with
  | BatchNormalization => true
  | _ => false
  end.

(** The positions of a window of size [k] moved by [stride] along an axis
    of length [n], without padding; no window fits a shorter axis. *)
Definition window_count (n k stride : nat) : outcome nat :=
  if decide (n < k)%nat then Raise ValueError
  else Return ((n - k) / stride + 1)%nat.

(** The shape of what a layer returns for an input of shape [s] (the batch
    axis left out), as the documentation of the layers gives it.  A
    pooling layer moves its window by its own size. *)
Definition compute_output_shape (l : layer) (s : list nat)
    : outcome (list nat) :=
  match l with
  | Convolution2D filters (kh, kw) pad _ =>
      match s with
      | [h; w; _] =>
          match pad with
          | Same => Return [h; w; filters]
          | Valid =>
              h' ← window_count h kh 1;
              w' ← window_count w kw 1;
              Return [h'; w'; filters]
          end
      | _ => Raise ValueError
      end
  | LeakyReLU _ => Return s
  | BatchNormalization => Return s
  | MaxPool2D (ph, pw) =>
      match s with
      | [h; w; c] =>
          h' ← window_count h ph ph;
          w' ← window_count w pw pw;
          Return [h'; w'; c]
      | _ => Raise ValueError
      end
  | Flatten => Return [nd_size s]
  | Dense units _ =>
      match s with
      | [] => Raise ValueError
      | _ => Return (removelast s ++ [units])
      end
  end.

(** The arguments of [compile]. *)
Record compilation := mkCompilation {
  optimizer : string;
  learning_rate : Q;
  loss : string;
  metric_names : list string
}.

(** A [Sequential] model: the layers added so far, each with its
    [trainable] attribute, and the shapes at its two ends. *)
Record Sequential := mkSequential {
  input_shape : list nat;
  layers : list (layer * bool);
  output_shape : list nat;
  compiled : option compilation
}.

(** [model.add(l)]: the layer is built on the output of the model. *)
Definition add (model : Sequential) (l : layer) : outcome Sequential :=
  s ← compute_output_shape l (output_shape model);
  Return {| input_shape := input_shape model;
            layers := layers model ++ [(l, true)];
            output_shape := s;
            compiled := compiled model |}.

Definition compile (model : Sequential) (c : compilation) : Sequential :=
  {| input_shape := input_shape model;
     layers := layers model;
     output_shape := output_shape model;
     compiled := Some c |}.

Definition create_CNN (img_shape : Z * Z) (df_model : DataFrame)
    : outcome Sequential :=
  names ← vocabulary df_model;
  let n_landmarks := length names in
  h ← Transform.dimension img_shape.1;
  w ← Transform.dimension img_shape.2;
  let input_shape := [h; w; 1%nat] in
  let model := {| input_shape := input_shape; layers := [];
                  output_shape := input_shape; compiled := None |} in

  model ← add model (Convolution2D 32 (3, 3)%nat Same false);
  model ← add model (LeakyReLU (1 # 10));
  model ← add model BatchNormalization;

  model ← add model (Convolution2D 32 (3, 3)%nat Same false);
  model ← add model (LeakyReLU (1 # 10));
  model ← add model BatchNormalization;
  model ← add model (MaxPool2D (2, 2)%nat);

  model ← add model (Convolution2D 64 (3, 3)%nat Same false);
  model ← add model (LeakyReLU (1 # 10));
  model ← add model BatchNormalization;

  model ← add model (Convolution2D 64 (3, 3)%nat Same false);
  model ← add model (LeakyReLU (1 # 10));
  model ← add model BatchNormalization;
  model ← add model (MaxPool2D (2, 2)%nat);

  model ← add model (Convolution2D 96 (3, 3)%nat Same false);
  model ← add model (LeakyReLU (1 # 10));
  model ← add model BatchNormalization;

  model ← add model (Convolution2D 96 (3, 3)%nat Same false);
  model ← add model (LeakyReLU (1 # 10));
  model ← add model BatchNormalization;
  model ← add model (MaxPool2D (2, 2)%nat);

  model ← add model (Convolution2D 128 (3, 3)%nat Same false);
  model ← add model (LeakyReLU (1 # 10));
  model ← add model BatchNormalization;

  model ← add model (Convolution2D 128 (3, 3)%nat Same false);
  model ← add model (LeakyReLU (1 # 10));
  model ← add model BatchNormalization;
  model ← add model (MaxPool2D (2, 2)%nat);

  model ← add model (Convolution2D 256 (3, 3)%nat Same false);
  model ← add model (LeakyReLU (1 # 10));
  model ← add model BatchNormalization;

  model ← add model (Convolution2D 256 (3, 3)%nat Same false);
  model ← add model (LeakyReLU (1 # 10));
  model ← add model BatchNormalization;
  model ← add model (MaxPool2D (2, 2)%nat);

  model ← add model (Convolution2D 512 (3, 3)%nat Same false);
  model ← add model (LeakyReLU (1 # 10));
  model ← add model BatchNormalization;

  model ← add model (Convolution2D 512 (3, 3)%nat Same false);
  model ← add model (LeakyReLU (1 # 10));
  model ← add model BatchNormalization;

  model ← add model Flatten;
  model ← add model (Dense 512 (Some "relu"%string));
  model ← add model (Dense (2 * n_landmarks) None);

  Return (compile model {| optimizer := "Adam"; learning_rate := 1 # 1000;
                           loss := "mse"; metric_names := ["mae"%string] |}).

(** Lines 715-721 of [fine_tune_CNN]: the model as it is when [fit] is
    called. *)
Definition fine_tune_CNN (CNN_model : Sequential) : Sequential :=
  let CNN_model :=
    {| input_shape := input_shape CNN_model;
       layers := (λ l, if is_BatchNormalization l.1 then (l.1, false) else l)
                 <$> layers CNN_model;
       output_shape := output_shape CNN_model;
       compiled := compiled CNN_model |} in
  compile CNN_model {| optimizer := "Adam"; learning_rate := 1 # 100000;
                       loss := "mse"; metric_names := ["mae"%string] |}.

End Network.

(** ** Events of the main window *)

Module Gui.
Import Table Loader.


(** Lines 153-163, the events ["Next"] and ["Previous"]: the new value of
    [shared['im_index']].  [n_files] is [len(df_files.index)], and [None]
    when no project is loaded. *)
Inductive navigation := Next | Previous.

Definition navigate (n_files : option Z) (im_index : Z) (event : navigation)
    : Z :=
  match n_files with
  | Some n =>
      match event with
      | Next => if decide (im_index < n - 1) then im_index + 1 else im_index
      | Previous => if decide (im_index > 0) then im_index - 1 else im_index
      end
  | None => im_index
  end.

(** Line 460, the event ['-DELETE_LDMK-'] with a landmark selected:
    [df_landmarks.loc[df_landmarks["file name"] == curr_file, curr_landmark]
     = np.nan]. *)
Definition delete_landmark (df_landmarks : DataFrame)
    (curr_file curr_landmark : string) : outcome DataFrame :=
  loc_set df_landmarks "file name" (Str curr_file) curr_landmark NaN.

End Gui.

(** ** Preparation of the training and validation data *)

Module Preprocess.
Import Table Transform Loader Augment Training.

(** What the random generators answer in one augmentation:
    [rd.randint(0, 360)], [rd.randint(700, 1300)] and the samples of
    [np.random.normal(0, 0.02, shape)]. *)
Record draw := mkDraw {
  angle : Z;
  zoom_int : Z;
  noise : nat → nat → Q
}.

(** [Image.fromarray(img).save(path)] *)
Definition save (fs : filesystem) (path : string) (img : image)
    : filesystem :=
  <[path := img]> fs.

Section Library.

Variable resize_px : image → nat → nat → nat → nat → Q.
Variable zoom_px : image → Q → Q → nat → nat → Q.
Variable rotate_px : image → Q → Q → nat → nat → Q.
Variables math_cos math_sin : Q → Q.
Variable math_pi : Q.

(** Lines 295-304 and 333-342: the image of a file is opened, binned
    together with its landmarks unless [binning] is zero, and saved in the
    folder.  The result is the image saved, the name of the file, the files
    on disk and the table. *)
Definition bin_and_save (output_folder : string)
    (df_files df_model : DataFrame) (binning : Z) (normalization : bool)
    (file_name : cell) (fs : filesystem) (df_landmarks : DataFrame)
    : outcome (image * string * filesystem * DataFrame) :=
  path ← loc_get df_files "file name" file_name "full path";
  img ← Image_open fs path;
  name ← col_label file_name;
  '(img, df_landmarks) ←
    (if decide (binning ≠ 0) then
       img ← image_downsample resize_px img binning normalization;
       df_landmarks ← landmarks_downsample name df_landmarks df_model binning;
       Return (img, df_landmarks)
     else Return (img, df_landmarks));
  Return (img, name, save fs (os_path_join output_folder name) img,
          df_landmarks).

(** Lines 294-327: one file of the training table; [draws k] is what the
    generators answer in the augmentation [k] of this file. *)
Definition training_file (output_folder_train : string)
    (df_files df_model : DataFrame) (n_data_augmentation : nat)
    (binning : Z) (normalization : bool) (draws : nat → draw)
    (file_name : cell) (st : filesystem * DataFrame)
    : outcome (filesystem * DataFrame) :=
  '(img, name, fs, df_landmarks_train) ←
    bin_and_save output_folder_train df_files df_model binning normalization
      file_name st.1 st.2;
  for_each (seq 0 n_data_augmentation) (λ k st,
    let d := draws k in
    '(new_file_name, augmented_image, df_landmarks_train) ←
      augment zoom_px rotate_px math_cos math_sin math_pi img name k
        (angle d) (zoom_int d) (noise d) st.2 df_model;
    Return (save st.1 (os_path_join output_folder_train new_file_name)
              augmented_image,
            df_landmarks_train)) (fs, df_landmarks_train).

(** Lines 284-345 of [training_data_preprocessing]; the preparation of the
    two folders (lines 273-282) is left out.  [picks] is the draw of
    [sample] and [draws file k] the draws of the augmentation [k] of a
    file.  A table written with [to_csv(index=False)] is stored as
    [read_csv] reads it, labelled from zero. *)
Definition training_data_preprocessing (fs : filesystem) (csv : csv_files)
    (output_folder_train output_folder_val : string)
    (df_landmarks df_files df_model : DataFrame) (n_data_augmentation : nat)
    (binning : Z) (test_size : Q) (normalization : bool)
    (picks : list nat) (draws : cell → nat → draw)
    : outcome (filesystem * csv_files) :=
  '(df_landmarks_train, df_landmarks_val) ←
    Split.training_data_split df_landmarks test_size picks;
  names ← unique <$> column df_landmarks_train "file name";
  '(fs, df_landmarks_train) ←
    for_each names (λ file_name st,
      training_file output_folder_train df_files df_model
        n_data_augmentation binning normalization (draws file_name)
        file_name st) (fs, df_landmarks_train);
  names ← unique <$> column df_landmarks_val "file name";
  '(fs, df_landmarks_val) ←
    for_each names (λ file_name st,
      '(_, _, fs, df_landmarks_val) ←
        bin_and_save output_folder_val df_files df_model binning
          normalization file_name st.1 st.2;
      Return (fs, df_landmarks_val)) (fs, df_landmarks_val);
  let csv := <[os_path_join output_folder_train "df_landmarks.csv"
               := Split.reset_index df_landmarks_train]> csv in
  let csv := <[os_path_join output_folder_val "df_landmarks.csv"
               := Split.reset_index df_landmarks_val]> csv in
  Return (fs, csv).

End Library.

End Preprocess.

(** ** Tables of further examples *)

Module Cases.

(** A table in which the second landmark of the only file is not
    annotated. *)
Definition unannotated : DataFrame :=
  {| df_columns := ["file name"; "L1"; "L2"]%string;
     df_rows := [(0%nat, Examples.row "a.tif" [("L1", "[7, 3]")])]%string |}.

(** Six files of which the last has no coordinates for the landmark. *)
Definition six_samples : DataFrame :=
  {| df_columns := ["file name"; "L1"]%string;
     df_rows := (df_rows Examples.five_samples
                 ++ [(5%nat, Examples.row "f.tif" [])])%list |}.

(** A table of files without rows. *)
Definition no_files : DataFrame :=
  {| df_columns := ["file name"; "full path"]%string; df_rows := [] |}.

(** The table of landmarks saved in the folder ["data"]. *)
Definition saved : Training.csv_files :=
  {[ "data/df_landmarks.csv"%string := Examples.landmarks ]}.


End Cases.

(** * Properties *)

(** ** The text of a coordinate pair reads back *)

Section Text.

Local Open Scope string_scope.

Lemma split_at_app c s r :
  all_chars (λ a, negb (Ascii.eqb a c)) s = true →
  split_at c (s +:+ String c r) = Some (s, r).
Proof.
  induction s as [|a s IH]; simpl.
  - by rewrite Ascii.eqb_refl.
  - intros [Ha Hs]%andb_prop. apply negb_true_iff in Ha. rewrite Ha.
    fold (String.app s (String c r)). by rewrite (IH Hs).
Qed.

Lemma all_chars_impl (p q : ascii → bool) s :
  (∀ a, p a = true → q a = true) →
  all_chars p s = true → all_chars q s = true.
Proof.
  intros Hpq. induction s as [|a s IH]; simpl; [done|].
  intros [Ha Hs]%andb_prop. by rewrite (Hpq _ Ha), (IH Hs).
Qed.

Lemma string_of_uint_digits d :
  all_chars is_digit (NilEmpty.string_of_uint d) = true.
Proof. induction d; simpl; auto. Qed.

Lemma str_int_chars z : all_chars is_int_char (str_int z) = true.
Proof.
  unfold str_int.
  assert (∀ d, all_chars is_int_char (NilEmpty.string_of_uint d) = true) as Hd.
  { intros d. eapply all_chars_impl, string_of_uint_digits.
    intros a Ha. unfold is_int_char. by rewrite Ha. }
  destruct (Z.to_int z); simpl; auto.
Qed.

Lemma is_int_char_not c a :
  is_int_char c = false → is_int_char a = true → negb (Ascii.eqb a c) = true.
Proof.
  intros Hc Ha. apply negb_true_iff. destruct (Ascii.eqb_spec a c); congruence.
Qed.

Lemma to_uint_head p : ∀ d, Pos.to_uint p ≠ Decimal.D0 d.
Proof.
  intros d Hd.
  pose proof (DecimalPos.Unsigned.to_of (Pos.to_uint p)) as Hn.
  rewrite DecimalPos.Unsigned.of_to in Hn. simpl in Hn.
  rewrite Hd in Hn at 2. rewrite DecimalFacts.unorm_D0 in Hn.
  unfold Decimal.unorm in Hn.
  destruct (Decimal.nzhead d) eqn:Hz.
  - apply (DecimalPos.Unsigned.to_uint_nonzero p). by rewrite Hn.
  - rewrite <- Hz, Hd in Hn.
    by apply (DecimalFacts.nzhead_nonzero (Decimal.D0 d) d); rewrite DecimalFacts.nzhead_D0.
  - rewrite Hn in Hd; discriminate.
  - rewrite Hn in Hd; discriminate.
  - rewrite Hn in Hd; discriminate.
  - rewrite Hn in Hd; discriminate.
  - rewrite Hn in Hd; discriminate.
  - rewrite Hn in Hd; discriminate.
  - rewrite Hn in Hd; discriminate.
  - rewrite Hn in Hd; discriminate.
  - rewrite Hn in Hd; discriminate.
Qed.

Lemma decinteger_to_uint p :
  decinteger (NilEmpty.string_of_uint (Pos.to_uint p)) = true.
Proof.
  pose proof (to_uint_head p) as Hh.
  pose proof (DecimalPos.Unsigned.to_uint_nonnil p) as Hn.
  pose proof (string_of_uint_digits (Pos.to_uint p)) as Hd.
  destruct (Pos.to_uint p) as [|d|d|d|d|d|d|d|d|d|d]; try done;
    try (by exfalso; eapply Hh);
    unfold decinteger; rewrite Hd; reflexivity.
Qed.

Lemma parse_int_str_int z : parse_int (str_int z) = Some z.
Proof.
  unfold parse_int, str_int.
  rewrite NilEmpty.isi. simpl. rewrite DecimalZ.of_to.
  destruct z as [|p|p]; simpl; [done| |].
  - pose proof (decinteger_to_uint p) as Hd.
    pose proof (string_of_uint_digits (Pos.to_uint p)) as Hg.
    destruct (NilEmpty.string_of_uint (Pos.to_uint p)) as [|a s] eqn:Hs;
      [done|].
    assert (a ≠ "-"%char) as Ha.
    { intros ->. simpl in Hg. discriminate. }
    destruct (Ascii.eqb_spec a "-"); [done|].
    destruct a as [[] [] [] [] [] [] [] []]; try (by rewrite Hd); done.
  - by rewrite decinteger_to_uint.
Qed.

Lemma skip_spaces_int_char a s :
  is_int_char a = true ∨ a = "]"%char →
  skip_spaces (String a s) = String a s.
Proof.
  intros Ha. simpl.
  destruct a as [[] [] [] [] [] [] [] []]; try done.
  destruct Ha as [Ha|Ha]; discriminate.
Qed.

Lemma parse_pair_str_pair x y : parse_pair (str_pair x y) = Return (x, y).
Proof.
  unfold str_pair.
  change ("[" +:+ ?s) with (String "[" s).
  unfold parse_pair.
  change (", " +:+ ?s) with (String "," (String " " s)).
  rewrite split_at_app.
  2:{ eapply all_chars_impl, str_int_chars. intros a. by apply is_int_char_not. }
  change (skip_spaces (String " " ?s)) with (skip_spaces s).
  assert (skip_spaces (str_int y +:+ "]") = str_int y +:+ "]") as ->.
  { pose proof (str_int_chars y) as Hy.
    destruct (str_int y) as [|a s]; [done|].
    simpl in Hy. apply andb_prop in Hy as [Ha _].
    change (String a s +:+ "]") with (String a (s +:+ "]")).
    apply skip_spaces_int_char. by left. }
  rewrite split_at_app.
  2:{ eapply all_chars_impl, str_int_chars. intros a. by apply is_int_char_not. }
  by rewrite !parse_int_str_int.
Qed.

End Text.

(** ** Truncation and rounding *)

Section Numbers.

Lemma py_int_truediv a b :
  0 < b → py_int (inject_Z a / inject_Z b) = a ÷ b.
Proof.
  intros Hb. destruct b as [|p|p]; try lia.
  unfold py_int, Qdiv, Qinv, inject_Z, Qmult; simpl.
  by rewrite Z.mul_1_r.
Qed.

Lemma py_truediv_pos a b :
  0 < b → py_truediv a b = Return (inject_Z a / inject_Z b)%Q.
Proof. intros Hb. unfold py_truediv. case_decide; [lia|done]. Qed.

Lemma quot_floor a b : 0 ≤ a → 0 < b → a ÷ b = a / b.
Proof. intros. apply Z.quot_div_nonneg; lia. Qed.

Lemma py_round_integer q z : (q == inject_Z z)%Q → py_round q = z.
Proof.
  intros Hq. unfold py_round.
  rewrite (Qfloor_comp _ _ Hq), Qfloor_Z.
  assert (q - inject_Z z == 0)%Q as H0 by (rewrite Hq; ring).
  by rewrite (Qcompare_comp _ _ H0 (1 # 2) (1 # 2) (Qeq_refl _)).
Qed.

End Numbers.

(** ** Reading and writing cells *)

Section TableFacts.
Import Table Frame.

Lemma for_each_ext {A S} (l : list A) (f g : A → S → outcome S) s :
  (∀ a s, f a s = g a s) → for_each l f s = for_each l g s.
Proof.
  intros Hfg. revert s. induction l as [|a l IH]; intros s; simpl; [done|].
  rewrite Hfg. destruct (g a s); simpl; auto.
Qed.

Lemma unique_from_spec seen l :
  NoDup (unique_from seen l) ∧
  ∀ c, c ∈ unique_from seen l ↔ c ∈ l ∧ c ∉ seen.
Proof.
  revert seen. induction l as [|a l IH]; intros seen; simpl.
  - split; [constructor|]. intros c. set_solver.
  - destruct (decide (a ∈ seen)) as [Hin|Hin].
    + destruct (IH seen) as [Hnd Hel]. split; [done|].
      intros c. rewrite Hel. set_solver.
    + destruct (IH (a :: seen)) as [Hnd Hel]. split.
      * constructor; [|done]. rewrite Hel. set_solver.
      * intros c. rewrite elem_of_cons, Hel.
        destruct (decide (c = a)); set_solver.
Qed.

Lemma unique_NoDup l : NoDup (unique l).
Proof. apply unique_from_spec. Qed.

Lemma elem_of_unique c l : c ∈ unique l ↔ c ∈ l.
Proof. unfold unique. rewrite (proj2 (unique_from_spec [] l)). set_solver. Qed.

Lemma vocabulary_NoDup df_model names :
  vocabulary df_model = Return names → NoDup names.
Proof.
  unfold vocabulary. destruct (column df_model "name"); simpl; [|done].
  intros [= <-]. apply unique_NoDup.
Qed.

Lemma loc_set_Return df kcol key col v df' :
  loc_set df kcol key col v = Return df' →
  kcol ∈ df_columns df ∧
  df_rows df' = set_row kcol key col v <$> df_rows df ∧
  (col ∈ df_columns df → df_columns df' = df_columns df).
Proof.
  unfold loc_set. case_decide; [|done]. intros [= <-]; simpl.
  split_and!; [done|done|]. intros Hc. by rewrite decide_True.
Qed.

Lemma selects_set_row kcol key col v r :
  col ≠ kcol → selects kcol key (set_row kcol key col v r) = selects kcol key r.
Proof.
  intros Hne. unfold set_row. destruct (selects kcol key r) eqn:Hs; [|done].
  unfold selects, row_get in *; simpl. by rewrite lookup_insert_ne.
Qed.

Lemma filter_selects_set_row kcol key col v rows :
  col ≠ kcol →
  List.filter (selects kcol key) (set_row kcol key col v <$> rows)
  = (λ r, (r.1, <[col := v]> r.2)) <$> List.filter (selects kcol key) rows.
Proof.
  intros Hne. induction rows as [|r rows IH]; [done|].
  rewrite fmap_cons. cbn [List.filter].
  rewrite selects_set_row by done.
  destruct (selects kcol key r) eqn:Hs; [|done].
  rewrite fmap_cons, IH. f_equal. unfold set_row. by rewrite Hs.
Qed.

Lemma loc_get_Return df kcol key col c :
  loc_get df kcol key col = Return c →
  kcol ∈ df_columns df ∧ col ∈ df_columns df ∧
  ∃ r rest, List.filter (selects kcol key) (df_rows df) = r :: rest ∧
            c = row_get r.2 col.
Proof.
  unfold loc_get. repeat case_decide; try done.
  destruct (List.filter _ _) as [|r rest] eqn:Hf; [done|].
  intros [= <-]. eauto 6.
Qed.

Lemma loc_get_set_eq df kcol key col v c df' :
  col ≠ kcol →
  loc_get df kcol key col = Return c →
  loc_set df kcol key col v = Return df' →
  loc_get df' kcol key col = Return v.
Proof.
  intros Hne (Hk & Hc & r & rest & Hf & _)%loc_get_Return
         (_ & Hrows & Hcols)%loc_set_Return.
  unfold loc_get. rewrite (Hcols Hc), !decide_True by done.
  rewrite Hrows, filter_selects_set_row, Hf by done. simpl.
  unfold row_get. by rewrite lookup_insert_eq.
Qed.

Lemma loc_get_set_ne df kcol key col col' v df' :
  col ≠ kcol → col' ≠ col → col ∈ df_columns df →
  loc_set df kcol key col v = Return df' →
  loc_get df' kcol key col' = loc_get df kcol key col'.
Proof.
  intros Hne Hne' Hc (Hk & Hrows & Hcols)%loc_set_Return.
  unfold loc_get. rewrite (Hcols Hc), Hrows, filter_selects_set_row by done.
  repeat case_decide; try done.
  destruct (List.filter _ _) as [|r rest]; simpl; [done|].
  unfold row_get. by rewrite lookup_insert_ne.
Qed.

Lemma update_landmark_Return f file lmk df df' :
  update_landmark f file lmk df = Return df' →
  ∃ col c x y q,
    lmk = Str col ∧
    loc_get df "file name" (Str file) col = Return c ∧
    literal_eval c = Return (x, y) ∧ f x y = Return q ∧
    loc_set df "file name" (Str file) col (Str (str_pair q.1 q.2))
    = Return df'.
Proof.
  unfold update_landmark. destruct lmk as [|col]; simpl; [done|].
  destruct (loc_get _ _ _ _) as [c|] eqn:Hc; simpl; [|done].
  destruct (literal_eval c) as [[x y]|] eqn:He; simpl; [|done].
  destruct (f x y) as [q|] eqn:Hf; simpl; [|done].
  intros Hs. eauto 12.
Qed.

Lemma coords_Return df file col x y :
  coords df file col = Return (x, y) →
  ∃ c, loc_get df "file name" (Str file) col = Return c ∧
       literal_eval c = Return (x, y).
Proof.
  unfold coords. destruct (loc_get _ _ _ _) as [c|]; simpl; [|done]. eauto.
Qed.

(** One landmark: the new coordinates are [f] of the old ones, and the
    entries of the file in the other columns are as before. *)
Lemma update_landmark_spec f file col df x y q :
  col ≠ "file name" →
  coords df file col = Return (x, y) →
  f x y = Return q →
  ∃ df', update_landmark f file (Str col) df = Return df' ∧
    coords df' file col = Return q ∧
    ∀ col', col' ≠ col →
      loc_get df' "file name" (Str file) col'
      = loc_get df "file name" (Str file) col'.
Proof.
  intros Hne (c & Hc & He)%coords_Return Hf.
  destruct (loc_get_Return _ _ _ _ _ Hc) as (Hk & Hcol & _).
  destruct (loc_set df "file name" (Str file) col (Str (str_pair q.1 q.2)))
    as [df'|] eqn:Hs.
  2:{ unfold loc_set in Hs. by rewrite decide_True in Hs. }
  exists df'. split_and!.
  - unfold update_landmark; simpl. rewrite Hc; simpl. rewrite He; simpl.
    by rewrite Hf.
  - unfold coords. rewrite (loc_get_set_eq _ _ _ _ _ _ _ Hne Hc Hs). simpl.
    destruct q as [q1 q2]. apply parse_pair_str_pair.
  - intros col' Hne'. by eapply loc_get_set_ne.
Qed.

(** The whole loop over the vocabulary. *)
Lemma for_each_update_spec f file names : ∀ df,
  NoDup names → Str "file name" ∉ names →
  (∀ lmk, lmk ∈ names → ∃ col x y q,
     lmk = Str col ∧ coords df file col = Return (x, y) ∧ f x y = Return q) →
  ∃ df', for_each names (update_landmark f file) df = Return df' ∧
    (∀ col x y, Str col ∈ names → coords df file col = Return (x, y) →
       coords df' file col = f x y) ∧
    (∀ col, Str col ∉ names →
       loc_get df' "file name" (Str file) col
       = loc_get df "file name" (Str file) col).
Proof.
  induction names as [|lmk names IH]; intros df Hnd Hkey Hall; simpl.
  { exists df. split_and!; [done| |done]. intros ??? Hin. inversion Hin. }
  apply NoDup_cons in Hnd as [Hlmk Hnd].
  destruct (Hall lmk) as (col & x & y & q & -> & Hxy & Hq); [set_solver|].
  assert (col ≠ "file name") as Hne by (intros ->; set_solver).
  destruct (update_landmark_spec f file col df x y q Hne Hxy Hq)
    as (df1 & Hstep & Hnew & Hold).
  rewrite Hstep; simpl.
  destruct (IH df1) as (df' & Hloop & Hvals & Hrest); [done|set_solver| |].
  { intros lmk' Hin. destruct (Hall lmk') as (c' & x' & y' & q' & -> & H1 & H2);
      [set_solver|].
    exists c', x', y', q'. split_and!; [done| |done].
    unfold coords. rewrite Hold; [done|]. intros ->. done. }
  exists df'. split_and!; [done| |].
  - intros c' x' y' Hin Hc'. apply elem_of_cons in Hin as [[= ->]|Hin].
    + rewrite Hxy in Hc'. injection Hc' as <- <-.
      unfold coords. rewrite Hrest by done. fold (coords df1 file col).
      by rewrite Hnew, Hq.
    + apply Hvals; [done|]. unfold coords. rewrite Hold; [done|].
      intros ->. done.
  - intros c' Hnin. rewrite Hrest by set_solver. apply Hold.
    intros ->. set_solver.
Qed.

End TableFacts.

(** ** The three loops over the vocabulary *)

Section Landmarks.
Import Table Transform Frame.

Ltac loop_body :=
  intros lmk cur; unfold update_landmark;
  destruct (col_label lmk) as [col|]; simpl; [|done];
  destruct (loc_get cur _ _ col) as [c|]; simpl; [|done];
  destruct (literal_eval c) as [[x y]|]; simpl; [|done].

Lemma landmarks_downsample_loop file df df_model binning :
  landmarks_downsample file df df_model binning =
  names ← vocabulary df_model;
  for_each names (update_landmark (downsample_xy binning) file) df.
Proof.
  unfold landmarks_downsample.
  destruct (vocabulary df_model) as [names|]; simpl; [|done].
  apply for_each_ext. loop_body. unfold downsample_xy.
  destruct (py_truediv x binning); simpl; [|done].
  by destruct (py_truediv y binning).
Qed.

Lemma scale_landmarks_loop img zoom df df_model file :
  scale_landmarks img zoom df df_model file =
  names ← vocabulary df_model;
  for_each names
    (update_landmark (λ x y, Return (scale_xy img zoom x y)) file) df.
Proof.
  unfold scale_landmarks.
  destruct (vocabulary df_model) as [names|]; simpl; [|done].
  apply for_each_ext. by loop_body.
Qed.

Lemma rotate_landmarks_loop math_cos math_sin math_pi img angle df df_model
    file :
  rotate_landmarks math_cos math_sin math_pi img angle df df_model file =
  names ← vocabulary df_model;
  for_each names
    (update_landmark
       (λ x y, Return (rotate_xy math_cos math_sin math_pi img angle x y))
       file) df.
Proof.
  unfold rotate_landmarks.
  destruct (vocabulary df_model) as [names|]; simpl; [|done].
  apply for_each_ext. by loop_body.
Qed.

Lemma frame_refl file names df : frame file names df df.
Proof. split; [done|]. apply Forall_Forall2_diag, Forall_forall. done. Qed.

Lemma update_landmark_frame f file names lmk df0 df df' :
  lmk ∈ names →
  frame file names df0 df →
  update_landmark f file lmk df = Return df' →
  frame file names df0 df'.
Proof.
  intros Hin [Hcols Hrows]
    (col & c & x & y & q & -> & Hget & _ & _ & Hset)%update_landmark_Return.
  apply loc_get_Return in Hget as (_ & Hcol & _).
  apply loc_set_Return in Hset as (_ & Hrows' & Hcols').
  split; [by rewrite Hcols', Hcols|].
  rewrite Hrows'. apply Forall2_fmap_r.
  eapply Forall2_impl; [done|]. intros r0 r (Hlabel & Hother & Hcell).
  unfold set_row, compose. cbn beta.
  destruct (selects "file name" (Str file) r) eqn:Hs; simpl;
    [|split_and!; auto].
  - split_and!; [done| |].
    + intros Hs0. rewrite (Hother Hs0) in Hs. congruence.
    + intros col' Hnin. rewrite lookup_insert_ne; [by apply Hcell|].
      intros ->. done.
Qed.

Lemma for_each_update_frame f file names l : ∀ df0 df df',
  l ⊆ names →
  frame file names df0 df →
  for_each l (update_landmark f file) df = Return df' →
  frame file names df0 df'.
Proof.
  induction l as [|lmk l IH]; intros df0 df df' Hl Hf; simpl.
  { by intros [= <-]. }
  destruct (update_landmark f file lmk df) as [df1|] eqn:Hstep; simpl; [|done].
  apply IH; [set_solver|]. eapply update_landmark_frame; [|done..].
  set_solver.
Qed.

(** C9. Each of [landmarks_downsample], [rotate_landmarks] and
    [scale_landmarks] returns a table with the columns, the rows and the
    labels of the one it was given, in which every row of another file is
    unchanged and every cell outside the columns of the vocabulary is
    unchanged. *)
Theorem landmark_updates_frame (math_cos math_sin : Q → Q) (math_pi : Q)
    (img : image) (zoom angle : Q) (binning : Z) (file : string) (df df_model : DataFrame) (names : list cell) :
  vocabulary df_model = Return names →
  (∀ df', landmarks_downsample file df df_model binning = Return df' →
     frame file names df df') ∧
  (∀ df', rotate_landmarks math_cos math_sin math_pi img angle df df_model file
          = Return df' →
     frame file names df df') ∧
  (∀ df', scale_landmarks img zoom df df_model file = Return df' →
     frame file names df df').
Proof.
  intros Hv.
  rewrite landmarks_downsample_loop, rotate_landmarks_loop,
    scale_landmarks_loop, Hv; simpl.
  split_and!; intros df'; apply for_each_update_frame;
    auto using frame_refl.
Qed.

End Landmarks.

(** ** Downsampling, rotation and scaling *)

Section Transforms.
Import Table Transform Frame.

Lemma annotated_update names df file (f : Z → Z → outcome (Z * Z)) :
  annotated names df file →
  (∀ x y, ∃ q, f x y = Return q) →
  ∀ lmk, lmk ∈ names → ∃ col x y q,
    lmk = Str col ∧ coords df file col = Return (x, y) ∧ f x y = Return q.
Proof.
  intros [_ Hall] Hf lmk (col & x & y & -> & Hxy)%Hall.
  destruct (Hf x y) as [q Hq]. eauto 10.
Qed.

Lemma downsample_xy_pos binning x y :
  0 < binning →
  downsample_xy binning x y = Return (x ÷ binning, y ÷ binning).
Proof.
  intros Hb. unfold downsample_xy. rewrite !py_truediv_pos by done. simpl.
  by rewrite !py_int_truediv.
Qed.

Lemma image_downsample_shape resize_px img binning normalize :
  0 < binning →
  ∃ img', image_downsample resize_px img binning normalize = Return img' ∧
    Z.of_nat (height img') = Z.of_nat (height img) / binning ∧
    Z.of_nat (width img') = Z.of_nat (width img) / binning.
Proof.
  intros Hb. unfold image_downsample.
  rewrite !py_truediv_pos by done. simpl.
  rewrite !py_int_truediv by done.
  rewrite !quot_floor by lia.
  unfold dimension.
  pose proof (Z.div_pos (Z.of_nat (height img)) binning).
  pose proof (Z.div_pos (Z.of_nat (width img)) binning).
  rewrite !decide_False by lia. simpl.
  destruct normalize; eexists; (split; [done|]); simpl; lia.
Qed.



Lemma scale_xy_one img x y : scale_xy img 1%Q x y = (x, y).
Proof.
  unfold scale_xy. f_equal; apply py_round_integer; ring.
Qed.

Lemma slice_all n : slice 0 (0 + Z.of_nat n) n = (0%nat, n).
Proof.
  unfold slice. rewrite decide_False by lia.
  destruct (decide (0 + Z.of_nat n < 0)); [lia|].
  f_equal; lia.
Qed.

Lemma ndimage_zoom_one_shape zoom_px img cval :
  height (ndimage_zoom zoom_px img 1%Q cval) = height img ∧
  width (ndimage_zoom zoom_px img 1%Q cval) = width img.
Proof.
  simpl. rewrite !(py_round_integer _ (Z.of_nat _)) by ring. lia.
Qed.

(** C7. For an image with a positive sample, under a library zoom that at
    factor one gives back the samples of its input, [scale_image] with
    factor one returns an image of the same dimensions and samples, and
    [scale_landmarks] with factor one leaves the coordinates of every
    landmark of the vocabulary as they are. *)
Theorem scale_by_one (zoom_px : image → Q → Q → nat → nat → Q)
    (img : image) (file : string) (df df_model : DataFrame)
    (names : list cell) :
  (∃ i j, (i < height img)%nat ∧ (j < width img)%nat ∧ (0 < px img i j)%Q) →
  (∀ cval i j, (i < height img)%nat → (j < width img)%nat →
     zoom_px img 1%Q cval i j = px img i j) →
  vocabulary df_model = Return names →
  annotated names df file →
  (∃ img', scale_image zoom_px img 1%Q = Return img' ∧
     height img' = height img ∧ width img' = width img ∧
     ∀ i j, (i < height img)%nat → (j < width img)%nat →
       px img' i j = px img i j) ∧
  (∃ df', scale_landmarks img 1%Q df df_model file = Return df' ∧
     ∀ col x y, Str col ∈ names → coords df file col = Return (x, y) →
       coords df' file col = Return (x, y)).
Proof.
  intros _ Hzoom Hv Ha. split.
  - unfold scale_image.
    change (Qlt_bool 1%Q 1%Q) with false. cbv iota.
    destruct (ndimage_zoom_one_shape zoom_px img (mean_positive img))
      as [-> ->].
    rewrite !Z.sub_diag, !slice_all.
    rewrite decide_True by done.
    eexists. split; [done|]. simpl. split_and!; [done..|].
    intros i j Hi Hj. rewrite decide_True by lia.
    rewrite !Nat.sub_0_r. by apply Hzoom.
  - rewrite scale_landmarks_loop, Hv; simpl.
    destruct (for_each_update_spec
                (λ x y, Return (scale_xy img 1%Q x y)) file names df)
      as (df' & Hloop & Hvals & _).
    + by eapply vocabulary_NoDup.
    + apply Ha.
    + apply annotated_update; [done|]. eauto.
    + exists df'. split; [done|]. intros col x y Hin Hxy.
      by rewrite (Hvals col x y Hin Hxy), scale_xy_one.
Qed.

End Transforms.

(** ** The transformations on the tables of the examples *)

Section TransformExamples.
Import Table Transform Frame.

Lemma examples_vocabulary :
  vocabulary Examples.vocabulary_table = Return Examples.names.
Proof. reflexivity. Qed.

Lemma examples_annotated file :
  file = "a.tif"%string ∨ file = "b.tif"%string →
  annotated Examples.names Examples.landmarks file.
Proof.
  intros Hfile. split.
  - intros Hin. unfold Examples.names in Hin.
    repeat (apply elem_of_cons in Hin as [Hin|Hin]; [discriminate|]).
    inversion Hin.
  - intros lmk Hin. unfold Examples.names in Hin.
    apply elem_of_cons in Hin as [->|Hin];
      [|apply elem_of_cons in Hin as [->|Hin]; [|inversion Hin]];
      destruct Hfile as [-> | ->]; eexists _, _, _; (split; [done|]);
      vm_compute; reflexivity.
Qed.





Lemma scale_by_one_witness :
  let img := Examples.flat_image 12 16 in
  (∃ img', scale_image Examples.zoom_nearest img 1%Q = Return img' ∧
     height img' = 12%nat ∧ width img' = 16%nat ∧
     ∀ i j, (i < 12)%nat → (j < 16)%nat → px img' i j = px img i j) ∧
  (∃ df', scale_landmarks img 1%Q Examples.landmarks
            Examples.vocabulary_table "b.tif" = Return df' ∧
     ∀ col x y, Str col ∈ Examples.names →
       coords Examples.landmarks "b.tif" col = Return (x, y) →
       coords df' "b.tif" col = Return (x, y)).
Proof.
  apply (scale_by_one Examples.zoom_nearest (Examples.flat_image 12 16)
           "b.tif" Examples.landmarks Examples.vocabulary_table
           Examples.names).
  - exists 0%nat, 0%nat. simpl. split_and!; [lia|lia|reflexivity].
  - reflexivity.
  - reflexivity.
  - apply examples_annotated. by right.
Defined.

Lemma landmark_updates_frame_witness :
  let img := Examples.flat_image 12 16 in
  (∀ df', landmarks_downsample "a.tif" Examples.landmarks
            Examples.vocabulary_table 4 = Return df' →
     frame "a.tif" Examples.names Examples.landmarks df') ∧
  (∀ df', rotate_landmarks Examples.cos_poly Examples.sin_poly
            Examples.pi_approx img 90 Examples.landmarks
            Examples.vocabulary_table "a.tif" = Return df' →
     frame "a.tif" Examples.names Examples.landmarks df') ∧
  (∀ df', scale_landmarks img (13 # 10) Examples.landmarks
            Examples.vocabulary_table "a.tif" = Return df' →
     frame "a.tif" Examples.names Examples.landmarks df').
Proof.
  apply (landmark_updates_frame Examples.cos_poly Examples.sin_poly
           Examples.pi_approx (Examples.flat_image 12 16) (13 # 10) 90 4
           "a.tif" Examples.landmarks Examples.vocabulary_table
           Examples.names).
  reflexivity.
Defined.

End TransformExamples.

(** ** The checkpoint policy *)

Section CheckpointFacts.
Import Checkpoint Policy.

Context {W : Type}.
Implicit Types (self : WindowCallback W) (x : world W) (model : W).

Lemma display_complete (m : gmap string pyval) :
  (∀ key v, m !! key = Some v → ∃ q, v = Num q) →
  is_Some (m !! "loss") → is_Some (m !! "val_loss") →
  display m = Return ().
Proof.
  intros Hnum Hl Hv.
  assert (∀ key, is_Some (m !! key) →
            (v ← item m key; displayable v) = Return ()) as Hitem.
  { intros key [v Hk]. unfold item. rewrite Hk. simpl.
    by destruct (Hnum _ _ Hk) as [q ->]. }
  unfold display.
  assert ((if decide (is_Some (m !! "mae"))
           then v ← item m "mae"; displayable v
           else if decide (is_Some (m !! "mean_absolute_error"))
           then v ← item m "mean_absolute_error"; displayable v
           else v ← item m "loss"; displayable v) = Return ()) as ->.
  { repeat case_decide; auto. }
  simpl. repeat case_decide; auto.
Qed.

Lemma metrics_update (logs : gmap string Q) (old : gmap string pyval) :
  (∀ key v, old !! key = Some v → ∃ q, v = Num q) →
  is_Some (logs !! "loss") → is_Some (logs !! "val_loss") →
  let m := (Num <$> logs) ∪ old in
  (∀ key v, m !! key = Some v → ∃ q, v = Num q) ∧
  is_Some (m !! "loss") ∧
  m !! "val_loss" = Some (Num (val_loss logs)).
Proof.
  intros Hold [l Hl] [v Hv] m. split_and!.
  - intros key u [Hk|[_ Hk]]%lookup_union_Some_raw; [|eauto].
    rewrite lookup_fmap in Hk. destruct (logs !! key); naive_solver.
  - exists (Num l). apply lookup_union_Some_l. by rewrite lookup_fmap, Hl.
  - apply lookup_union_Some_l. rewrite lookup_fmap. unfold val_loss.
    by rewrite Hv.
Qed.

(** One epoch, when the logs are complete. *)
Lemma on_epoch_end_tracking n f path k st self epoch logs model x :
  tracking n f path k st self → f ≠ 0 → 0 ≤ k →
  is_Some (logs !! "loss") → is_Some (logs !! "val_loss") →
  ∃ self' x',
    on_epoch_end self epoch logs model x = Return (self', x') ∧
    tracking n f path (k + 1) (retain st (val_loss logs, model)) self' ∧
    folder self' = folder self ∧ model_name self' = model_name self ∧
    log x' = log x ++ periodic_saves n f path k st [(val_loss logs, model)].
Proof.
  intros (Hcur & Hleft & Hfreq & Hpath & m & Hm & Hnum & Hst) Hf Hk Hl Hv.
  destruct (metrics_update logs m Hnum Hl Hv) as (Hnum' & Hl' & Hv').
  unfold on_epoch_end. rewrite Hm, Hcur. simpl.
  rewrite (display_complete _ Hnum' Hl') by (by rewrite Hv'). simpl.
  destruct st as [[previous snapshot]|]; simpl.
  - destruct Hst as (Hk1 & Hprev & Hsnap).
    rewrite decide_True by lia.
    unfold item. rewrite Hv', Hprev. simpl.
    rewrite Hfreq, Hleft, decide_False by done.
    replace (n - k - 1) with (n - (k + 1)) by lia.
    destruct (decide ((n - (k + 1)) `mod` f = 0)) as [Hmod|Hmod].
    + rewrite decide_True by (split; [lia|done]).
      rewrite Hsnap.
      destruct (Qlt_bool (val_loss logs) previous); simpl.
      all: eexists _, _; split; [done|]; rewrite Hpath; simpl.
      all: split_and!; try done.
      all: unfold tracking; simpl; split_and!; try done; try lia.
      all: eexists; split; [done|]; split; [done|]; split_and!; try done; lia.
    + rewrite decide_False by (intros [_ ?]; done).
      eexists _, _; split; [done|]. simpl. rewrite app_nil_r.
      split_and!; try done.
      unfold tracking; simpl; split_and!; try done; try lia.
      eexists; split; [done|]; split; [done|]; split_and!; try done; try lia.
      rewrite Hsnap. by destruct (Qlt_bool _ _).
  - subst k. simpl.
    eexists _, _; split; [done|]. simpl. rewrite ?app_nil_r.
    split_and!; try done.
    unfold tracking; simpl; split_and!; try done; try lia.
    eexists; split; [done|]; split; [done|]; done.
Qed.

Lemma final_network_cons model (h : gmap string Q * W) history :
  final_network model (h :: history) = final_network h.2 history.
Proof.
  unfold final_network. rewrite fmap_cons.
  destruct (snd <$> history) as [|m l] eqn:Hh; [done|].
  change (last (h.2 :: m :: l)) with (last (m :: l)).
  destruct (last (m :: l)) eqn:Hl; [done|]. by apply last_None in Hl.
Qed.

(** The epochs of a run, when the logs are complete. *)
Lemma epochs_tracking n f path : ∀ history k st self epoch model x,
  tracking n f path k st self → f ≠ 0 → 0 ≤ k → complete_logs history →
  ∃ self' x',
    epochs history epoch self model x
    = Return (self', final_network model history, x') ∧
    tracking n f path (k + Z.of_nat (length history))
      (foldl retain st (losses history)) self' ∧
    folder self' = folder self ∧ model_name self' = model_name self ∧
    log x' = log x ++ periodic_saves n f path k st (losses history).
Proof.
  induction history as [|[logs model'] history IH];
    intros k st self epoch model x Htr Hf Hk Hlogs.
  { exists self, x. simpl. rewrite Z.add_0_r, app_nil_r. done. }
  apply Forall_cons in Hlogs as [[Hl Hv] Hlogs].
  destruct (on_epoch_end_tracking n f path k st self epoch logs model' x
              Htr Hf Hk Hl Hv) as (self1 & x1 & Hstep & Htr1 & Hfo & Hmn & Hlog).
  destruct (IH (k + 1) _ self1 (epoch + 1) model' x1 Htr1 Hf ltac:(lia) Hlogs)
    as (self' & x' & Hrun & Htr' & Hfo' & Hmn' & Hlog').
  exists self', x'. simpl epochs. rewrite Hstep. simpl.
  rewrite Hrun, final_network_cons. split_and!; [done| |congruence..|].
  - replace (k + Z.of_nat (S (length history)))
      with (k + 1 + Z.of_nat (length history)) by lia.
    done.
  - rewrite Hlog', Hlog. simpl. by rewrite app_nil_r, <- !app_assoc.
Qed.

Lemma retain_Some (st : option (Q * W)) h : is_Some (retain st h).
Proof. destruct st as [[??]|]; simpl; eauto. Qed.

Lemma periodic_saves_epochs n f path : ∀ history k (st : option (Q * W)),
  periodic_epochs (periodic_saves n f path k st history)
  = filter (λ e, 1 < e ∧ (n - e) `mod` f = 0)
      (seqZ (k + 1) (Z.of_nat (length history))).
Proof.
  induction history as [|h history IH]; intros k st; [done|].
  replace (Z.of_nat (length (h :: history)))
    with (Z.succ (Z.of_nat (length history))) by (simpl length; lia).
  rewrite seqZ_cons by lia. rewrite Z.pred_succ, filter_cons.
  simpl. unfold periodic_epochs in *. rewrite omap_app, IH.
  replace (Z.succ (k + 1)) with (k + 1 + 1) by lia.
  destruct (retain_Some st h) as [[v w] ->].
  by destruct (decide (1 < k + 1 ∧ (n - (k + 1)) `mod` f = 0)).
Qed.

Lemma periodic_saves_paths n f path : ∀ history k (st : option (Q * W)),
  Forall (λ ev, event_path ev = path) (periodic_saves n f path k st history).
Proof.
  induction history as [|h history IH]; intros k st; simpl; [done|].
  apply Forall_app. split; [|done].
  destruct (decide _); [|done]. by destruct (retain st h) as [[??]|]; repeat constructor.
Qed.

(** The saves of [periodic_saves] hold the snapshot retained when they
    happen. *)
Lemma periodic_saves_snapshot n f path : ∀ history k (st : option (Q * W)) e p w,
  0 ≤ k →
  PeriodicSave e p w ∈ periodic_saves n f path k st history →
  k < e ∧
  snd <$> foldl retain st (take (Z.to_nat (e - k)) history) = Some w.
Proof.
  induction history as [|h history IH]; intros k st e p w Hk; simpl.
  { intros Hin. inversion Hin. }
  intros [Hin|Hin]%elem_of_app.
  - destruct (decide _) as [_|]; [|inversion Hin].
    destruct (retain st h) as [[v w']|] eqn:Hr; [|inversion Hin].
    apply list_elem_of_singleton in Hin. injection Hin as -> -> ->.
    split; [lia|]. replace (k + 1 - k) with 1 by lia. simpl. by rewrite Hr.
  - apply IH in Hin as [Hlt Hsnap]; [|lia]. split; [lia|].
    replace (Z.to_nat (e - k)) with (S (Z.to_nat (e - (k + 1)))) by lia.
    done.
Qed.

(** One epoch, whatever the logs: the paths are kept, and what is written
    is written to [self.filepath]. *)
Lemma on_epoch_end_paths self epoch logs model x self' x' :
  on_epoch_end self epoch logs model x = Return (self', x') →
  folder self' = folder self ∧ model_name self' = model_name self ∧
  filepath self' = filepath self ∧
  ∃ new, log x' = log x ++ new ∧
         Forall (λ ev, event_path ev = filepath self) new.
Proof.
  unfold on_epoch_end.
  destruct (metrics self) as [m|]; simpl; [|done].
  destruct (current_epoch self) as [k|]; simpl; [|done].
  destruct (display _); simpl; [|done].
  destruct (decide (k + 1 > 1)); simpl.
  - destruct (item (_ ∪ m) _) as [now|]; simpl; [|done].
    destruct (item m _) as [before|]; simpl; [|done].
    destruct (py_lt now before) as [improved|]; simpl; [|done].
    destruct (decide (save_freq self = 0)); simpl; [done|].
    destruct (decide (_ `mod` _ = 0)); simpl.
    + destruct (attr _) as [w|]; simpl; [|done].
      intros [= <- <-]. simpl. split_and!; try done.
      eexists. split; [done|]. by repeat constructor.
    + intros [= <- <-]. simpl. split_and!; try done.
      exists []. by rewrite app_nil_r.
  - intros [= <- <-]. simpl. split_and!; try done.
    exists []. by rewrite app_nil_r.
Qed.

Lemma epochs_paths : ∀ history self epoch model x self' model' x',
  epochs history epoch self model x = Return (self', model', x') →
  folder self' = folder self ∧ model_name self' = model_name self ∧
  filepath self' = filepath self ∧
  ∃ new, log x' = log x ++ new ∧
         Forall (λ ev, event_path ev = filepath self) new.
Proof.
  induction history as [|[logs m] history IH];
    intros self epoch model x self' model' x'; simpl.
  { intros [= <- <- <-]. split_and!; try done.
    exists []. by rewrite app_nil_r. }
  destruct (on_epoch_end self epoch logs m x) as [[self1 x1]|] eqn:Hstep;
    simpl; [|done].
  apply on_epoch_end_paths in Hstep as (Hf1 & Hn1 & Hp1 & new1 & Hl1 & Hall1).
  intros (Hf & Hn & Hp & new & Hl & Hall)%IH.
  split_and!; try congruence.
  exists (new1 ++ new). rewrite Hl, Hl1, app_assoc. split; [done|].
  apply Forall_app. split; [done|]. by rewrite <- Hp1.
Qed.

Lemma periodic_saves_periodic n f path : ∀ history k (st : option (Q * W)),
  Forall (λ ev, ∃ e w, ev = PeriodicSave e path w)
    (periodic_saves n f path k st history).
Proof.
  induction history as [|h history IH]; intros k st; simpl; [done|].
  apply Forall_app. split; [|done].
  destruct (decide _); [|done].
  destruct (retain st h) as [[??]|]; repeat constructor; eauto.
Qed.

Lemma on_train_begin_tracking n fold f name :
  tracking n f (os_path_join fold name +:+ ".h5") 0 None
    (on_train_begin (init W n fold f name) ∅).
Proof.
  unfold tracking; simpl. split_and!; try done; [lia|].
  eexists. split; [done|]. split; [|done].
  intros key v. rewrite fmap_empty, lookup_empty. done.
Qed.

Lemma foldl_retain_Some (l : list (Q * W)) : ∀ st,
  is_Some st ∨ l ≠ [] → is_Some (foldl retain st l).
Proof.
  induction l as [|h l IH]; intros st [Hs|Hl]; simpl; try done.
  - apply IH. left. apply retain_Some.
  - apply IH. left. apply retain_Some.
Qed.

(** C4 (amended). In a run of [n] epochs with complete logs and a
    frequency other than zero, the periodic saves come after exactly the
    epochs [e] with [1 < e] and [(n - e) mod f = 0]; each writes, to the
    path of the monitor, the snapshot retained after that epoch; and when
    training ends the live network is written to the same path, where it
    replaces what was there. *)
Theorem periodic_saves_skip_first_epoch (n f : Z) (fold name : string)
    (model : W) (history : list (gmap string Q * W)) (x : world W) :
  n = Z.of_nat (length history) → f ≠ 0 → complete_logs history →
  let path := os_path_join fold name +:+ ".h5" in
  ∃ self' x' saves,
    fit (init W n fold f name) model history x = Return (self', x') ∧
    log x' = log x ++ saves ++ [FinalSave path (final_network model history)] ∧
    periodic_epochs saves
    = filter (λ e, 1 < e ∧ (n - e) `mod` f = 0) (seqZ 1 n) ∧
    (∀ ev, ev ∈ saves → ∃ e w,
       ev = PeriodicSave e path w ∧
       snapshot_after (take (Z.to_nat e) (losses history)) = Some w) ∧
    disk x' !! path = Some (final_network model history).
Proof.
  intros Hn Hf Hlogs path.
  destruct (epochs_tracking n f path history 0 None
              (on_train_begin (init W n fold f name) ∅) 0 model x)
    as (self' & x' & Hrun & Htr & Hfo & Hmn & Hlog);
    [apply on_train_begin_tracking|done|lia|done|].
  exists self', (on_train_end self' (final_network model history) x'),
    (periodic_saves n f path 0 None (losses history)).
  unfold fit. rewrite Hrun. simpl. rewrite Hfo, Hmn. simpl.
  split_and!.
  - done.
  - rewrite Hlog. by rewrite <- app_assoc.
  - rewrite periodic_saves_epochs. unfold losses.
    by rewrite length_fmap, Hn.
  - intros ev Hin.
    pose proof (periodic_saves_periodic n f path (losses history) 0 None) as Hp.
    rewrite Forall_forall in Hp. destruct (Hp ev Hin) as (e & w & ->).
    exists e, w. split; [done|].
    apply periodic_saves_snapshot in Hin as [_ Hsnap]; [|lia].
    by rewrite Z.sub_0_r in Hsnap.
  - apply lookup_insert_eq.
Qed.

Lemma snapshot_after_first (h : Q * W) : snapshot_after [h] = Some h.2.
Proof. done. Qed.

Lemma snapshot_after_later (l : list (Q * W)) (a b : Q * W) :
  snapshot_after (l ++ [a; b])
  = if Qlt_bool b.1 a.1 then Some b.2 else snapshot_after (l ++ [a]).
Proof.
  unfold snapshot_after.
  change (l ++ [a; b]) with (l ++ [a] ++ [b]).
  rewrite app_assoc, (foldl_app _ (l ++ [a]) [b]). simpl.
  rewrite foldl_app. simpl.
  destruct a as [qa wa], b as [qb wb].
  destruct (foldl retain None l) as [[p s]|]; simpl;
    by destruct (Qlt_bool qb qa).
Qed.

Lemma epochs_snapshot n f fold name model history x :
  f ≠ 0 → complete_logs history →
  ∃ self' x',
    epochs history 0 (on_train_begin (init W n fold f name) ∅) model x
    = Return (self', final_network model history, x') ∧
    model_to_save self' = snapshot_after (losses history).
Proof.
  intros Hf Hlogs.
  destruct (epochs_tracking n f (os_path_join fold name +:+ ".h5") history 0
              None (on_train_begin (init W n fold f name) ∅) 0 model x)
    as (self' & x' & Hrun & Htr & _);
    [apply on_train_begin_tracking|done|lia|done|].
  exists self', x'. split; [done|].
  destruct history as [|h history].
  { simpl in Hrun. by injection Hrun as <- <-. }
  destruct Htr as (_ & _ & _ & _ & m & _ & _ & Hst).
  unfold snapshot_after.
  destruct (foldl_retain_Some (losses (h :: history)) None) as [[p s] Hs];
    [by right|].
  rewrite Hs in Hst |- *. by destruct Hst as (_ & _ & ->).
Qed.

End CheckpointFacts.

Section CheckpointClaims.
Import Checkpoint Policy.

(** C6. After the epochs of a run with complete logs the monitor retains
    the snapshot of the policy: the network of the first epoch as the
    baseline, replaced at a later epoch by the network of that epoch
    exactly when its validation loss is strictly less than that of the
    epoch before.  With the validation losses 0.5, 0.5, 0.3, 0.3, 0.6 the
    snapshot after the third, the fourth and the fifth epoch is the
    network of the third. *)
Theorem snapshot_policy {W : Type} (n f : Z) (fold name : string) (model : W)
    (history : list (gmap string Q * W)) (x : world W) :
  f ≠ 0 → complete_logs history →
  (∃ self' x',
     epochs history 0 (on_train_begin (init W n fold f name) ∅) model x
     = Return (self', final_network model history, x') ∧
     model_to_save self' = snapshot_after (losses history)) ∧
  (∀ h : Q * W, snapshot_after [h] = Some h.2) ∧
  (∀ (l : list (Q * W)) a b,
     snapshot_after (l ++ [a; b])
     = if Qlt_bool b.1 a.1 then Some b.2 else snapshot_after (l ++ [a])) ∧
  (∀ k, (3 ≤ k ≤ 5)%nat →
     ∃ self' model' x',
       epochs (take k five_epochs) 0
         (on_train_begin (init nat 5 fold 2 name) ∅) 0%nat (mkWorld ∅ [])
       = Return (self', model', x') ∧
       model_to_save self' = Some 3%nat).
Proof.
  intros Hf Hlogs. split_and!.
  - by apply epochs_snapshot.
  - apply snapshot_after_first.
  - apply snapshot_after_later.
  - intros k Hk.
    assert (complete_logs (take k five_epochs)) as Hc.
    { apply Forall_take. unfold five_epochs, epoch_logs.
      repeat constructor; simpl; by eexists. }
    destruct (epochs_snapshot 5 2 fold name 0%nat (take k five_epochs)
                (mkWorld ∅ []) ltac:(done) Hc) as (self' & x' & Hrun & Hsnap).
    exists self', (final_network 0%nat (take k five_epochs)), x'.
    split; [done|]. rewrite Hsnap.
    assert (k = 3 ∨ k = 4 ∨ k = 5)%nat as [->|[->| ->]] by lia;
      vm_compute; reflexivity.
Qed.

End CheckpointClaims.

Section CheckpointPath.
Import Checkpoint Policy.
Local Open Scope string_scope.

Lemma string_app_assoc (a b c : string) : (a +:+ b) +:+ c = a +:+ b +:+ c.
Proof.
  induction a as [|ch a IH]; [done|].
  change (String ch ((a +:+ b) +:+ c) = String ch (a +:+ b +:+ c)).
  by rewrite IH.
Qed.

Lemma basename_no_slash s : contains_slash s = false → os_path_basename s = s.
Proof. destruct s as [|c s]; [done|]. simpl. by intros ->. Qed.

Lemma basename_after_slash a s :
  contains_slash s = false → os_path_basename (a +:+ "/" +:+ s) = s.
Proof.
  intros Hs. induction a as [|c a IH].
  - change ("" +:+ "/" +:+ s) with (String "/" s).
    cbn [os_path_basename contains_slash]. rewrite Ascii.eqb_refl. simpl.
    by apply basename_no_slash.
  - change (String c a +:+ "/" +:+ s) with (String c (a +:+ "/" +:+ s)).
    cbn [os_path_basename].
    assert (contains_slash (String c (a +:+ "/" +:+ s)) = true) as ->; [|done].
    clear IH. cbn [contains_slash]. apply orb_true_iff. right.
    induction a as [|c' a IH]; simpl; [done|].
    fold (a +:+ String "/" s). rewrite IH. apply orb_true_r.
Qed.

Lemma ends_with_slash_split a :
  ends_with_slash a = true → ∃ a', a = a' +:+ "/".
Proof.
  induction a as [|c a IH]; simpl; [done|].
  destruct a as [|c' a].
  - intros ->%Ascii.eqb_eq. by exists "".
  - intros [a' ->]%IH. by exists (String c a').
Qed.

Lemma basename_join fold name ext :
  starts_with_slash name = false → contains_slash (name +:+ ext) = false →
  os_path_basename (os_path_join fold name +:+ ext) = name +:+ ext.
Proof.
  intros Hstart Hslash. unfold os_path_join. rewrite Hstart.
  destruct (bool_decide (fold = "")) eqn:Hempty; simpl.
  { apply bool_decide_eq_true in Hempty as ->. simpl.
    by apply basename_no_slash. }
  destruct (ends_with_slash fold) eqn:Hends.
  - apply ends_with_slash_split in Hends as [a' ->].
    rewrite !string_app_assoc. by apply basename_after_slash.
  - rewrite !string_app_assoc. by apply basename_after_slash.
Qed.

(** C10. Every write of a run, periodic or final, goes to the path made
    of the project folder joined with the model name and followed by
    [".h5"], and the last write is the final one; with the default model
    name the file is called ["landmarks_detection_model.h5.h5"]. *)
Theorem checkpoint_path {W : Type} (n f : Z) (fold name : string) (model : W)
    (history : list (gmap string Q * W)) (x : world W) self' x' :
  fit (init W n fold f name) model history x = Return (self', x') →
  let path := os_path_join fold name +:+ ".h5" in
  (∃ new w, log x' = (log x ++ new ++ [FinalSave path w])%list ∧
            Forall (λ ev, event_path ev = path) new) ∧
  os_path_basename (os_path_join fold default_model_name +:+ ".h5")
  = "landmarks_detection_model.h5.h5".
Proof.
  intros Hfit path. split; [|by apply basename_join].
  unfold fit in Hfit.
  destruct (epochs _ _ _ _ _) as [[[self1 model1] x1]|] eqn:Hrun;
    simpl in Hfit; [|done].
  injection Hfit as <- <-.
  apply epochs_paths in Hrun as (Hfo & Hmn & Hp & new & Hlog & Hall).
  exists new, model1. simpl. rewrite Hfo, Hmn, Hlog. simpl.
  split; [by rewrite <- app_assoc|done].
Qed.

End CheckpointPath.

(** ** The policy on the run of five epochs *)

Section CheckpointExamples.
Import Checkpoint Policy.

Lemma five_epochs_complete : complete_logs five_epochs.
Proof. unfold five_epochs, epoch_logs. repeat constructor; simpl; by eexists. Qed.

Example five_epochs_run :
  ∃ self' x',
    fit (init nat 5 "proj" 2 "model") 0%nat five_epochs (mkWorld ∅ [])
    = Return (self', x') ∧
    log x' = [PeriodicSave 3 "proj/model.h5" 3%nat;
              PeriodicSave 5 "proj/model.h5" 3%nat;
              FinalSave "proj/model.h5" 5%nat] ∧
    disk x' !! "proj/model.h5"%string = Some 5%nat.
Proof. eexists _, _. split_and!; vm_compute; reflexivity. Qed.

(** C4, as stated, fails: with five epochs and a frequency of two, four
    epochs remain after the first one, but nothing is saved then. *)
Lemma saves_on_every_multiple_counterexample :
  ¬ saves_on_every_multiple 5 2 "proj" "model" 0%nat five_epochs.
Proof.
  intros H.
  destruct five_epochs_run as (self' & x' & Hfit & Hlog & _).
  specialize (H self' x' Hfit 1 ltac:(lia)). rewrite Hlog in H.
  destruct H as [_ H]. specialize (H eq_refl). vm_compute in H.
  repeat (apply elem_of_cons in H as [H|H]; [discriminate|]).
  inversion H.
Qed.

Lemma periodic_saves_skip_first_epoch_witness :
  let path := "proj/model.h5"%string in
  ∃ self' x' saves,
    fit (init nat 5 "proj" 2 "model") 0%nat five_epochs (mkWorld ∅ [])
    = Return (self', x') ∧
    log x' = [] ++ saves ++ [FinalSave path 5%nat] ∧
    periodic_epochs saves = [3; 5] ∧
    (∀ ev, ev ∈ saves → ∃ e w,
       ev = PeriodicSave e path w ∧
       snapshot_after (take (Z.to_nat e) (losses five_epochs)) = Some w) ∧
    disk x' !! path = Some 5%nat.
Proof.
  apply (periodic_saves_skip_first_epoch 5 2 "proj" "model" 0%nat five_epochs
           (mkWorld ∅ [])).
  - reflexivity.
  - discriminate.
  - apply five_epochs_complete.
Defined.

Lemma snapshot_policy_witness :
  ∃ self' x',
    epochs five_epochs 0 (on_train_begin (init nat 5 "proj" 2 "model") ∅)
      0%nat (mkWorld ∅ [])
    = Return (self', 5%nat, x') ∧
    model_to_save self' = Some 3%nat.
Proof.
  apply (snapshot_policy 5 2 "proj" "model" 0%nat five_epochs (mkWorld ∅ [])).
  - discriminate.
  - apply five_epochs_complete.
Defined.

Lemma checkpoint_path_witness :
  ∃ self' x',
    fit (init nat 5 "proj" default_save_freq default_model_name)
      0%nat five_epochs (mkWorld ∅ [])
    = Return (self', x') ∧
    ∃ new w,
      log x' = [] ++ new ++ [FinalSave "proj/landmarks_detection_model.h5.h5" w] ∧
      Forall (λ ev, event_path ev
                    = "proj/landmarks_detection_model.h5.h5"%string) new.
Proof.
  eexists _, _. split; [vm_compute; reflexivity|].
  eapply (checkpoint_path 5 default_save_freq "proj"
            default_model_name 0%nat five_epochs (mkWorld ∅ [])).
  vm_compute. reflexivity.
Defined.

End CheckpointExamples.

(** ** The split into training and validation tables *)

Section SplitFacts.
Import Table Split.
Local Open Scope nat_scope.

Lemma relabel_ext {A} (l : list (nat * A)) (f g : nat → nat) :
  (∀ k, f k = g k) →
  imap (λ k r, (f k, r.2)) l = imap (λ k r, (g k, r.2)) l.
Proof. intros Hfg. apply imap_ext. intros k r _. simpl. by rewrite Hfg. Qed.

Lemma relabel_cons {A} (r : nat * A) l off :
  imap (λ k r, (off + k, r.2)) (r :: l)
  = (off, r.2) :: imap (λ k r, (S off + k, r.2)) l.
Proof.
  simpl. f_equal; [f_equal; lia|].
  apply imap_ext. intros k r' _. simpl. f_equal. lia.
Qed.

Lemma relabel_labels {A} (l : list (nat * A)) : ∀ off,
  (imap (λ k r, (off + k, r.2)) l).*1 = seq off (length l).
Proof.
  induction l as [|r l IH]; intros off; [done|].
  rewrite relabel_cons, fmap_cons, IH. done.
Qed.

Lemma relabel_rows {A B} (f : A → B) (l : list (nat * A)) : ∀ off,
  (λ r, f r.2) <$> imap (λ k r, (off + k, r.2)) l = (λ r, f r.2) <$> l.
Proof.
  induction l as [|r l IH]; intros off; [done|].
  rewrite relabel_cons, !fmap_cons, IH. done.
Qed.

Lemma relabel_filter {A} (l : list (nat * A)) n : ∀ off,
  List.filter (λ r, bool_decide (r.1 ∉ seq 0 n))
    (imap (λ k r, (off + k, r.2)) l)
  = skipn (n - off) (imap (λ k r, (off + k, r.2)) l).
Proof.
  induction l as [|r l IH]; intros off.
  { simpl. by rewrite drop_nil. }
  rewrite relabel_cons. cbn [List.filter fst]. rewrite IH.
  destruct (decide (off < n)%nat) as [Hlt|Hge].
  - rewrite bool_decide_eq_false_2.
    2:{ intros Hnin. apply Hnin, elem_of_seq. lia. }
    replace (n - off)%nat with (S (n - S off)) by lia. done.
  - rewrite bool_decide_eq_true_2.
    2:{ rewrite elem_of_seq. lia. }
    replace (n - off)%nat with 0%nat by lia.
    replace (n - S off)%nat with 0%nat by lia. done.
Qed.

Lemma reset_filter {A} (l : list (nat * A)) n :
  List.filter (λ r, bool_decide (r.1 ∉ seq 0 n)) (imap (λ k r, (k, r.2)) l)
  = skipn n (imap (λ k r, (k, r.2)) l).
Proof. pose proof (relabel_filter l n 0) as H. by rewrite Nat.sub_0_r in H. Qed.

Lemma reset_rows {A B} (f : A → B) (l : list (nat * A)) :
  (λ r, f r.2) <$> imap (λ k r, (k, r.2)) l = (λ r, f r.2) <$> l.
Proof. exact (relabel_rows f l 0). Qed.

Lemma index_reset_index df :
  index (reset_index df) = seq 0 (length (df_rows df)).
Proof. apply (relabel_labels (df_rows df) 0). Qed.

Lemma file_names_reset_index df :
  file_names (reset_index df) = file_names df.
Proof.
  apply (relabel_rows (λ r, row_get r "file name") (df_rows df) 0).
Qed.

Lemma length_omap_lookup {A} (l : list A) (picks : list nat) :
  (∀ i, i ∈ picks → (i < length l)%nat) →
  length (omap (λ i, l !! i) picks) = length picks.
Proof.
  induction picks as [|i picks IH]; intros Hlt; [done|].
  destruct (lookup_lt_is_Some_2 l i) as [a Ha]; [apply Hlt; by left|].
  cbn [omap list_omap]. rewrite Ha. simpl. rewrite IH; [done|].
  intros j Hj. apply Hlt. by right.
Qed.

Lemma omap_lookup_fmap {A B} (f : A → B) (l : list A) (picks : list nat) :
  f <$> omap (λ i, l !! i) picks = omap (λ i, (f <$> l) !! i) picks.
Proof.
  induction picks as [|i picks IH]; [done|].
  simpl. rewrite list_lookup_fmap.
  destruct (l !! i); simpl; [f_equal|]; apply IH.
Qed.

(** Whatever rows are drawn for validation, the training table is the
    cleaned table without its first [n] rows. *)
Lemma training_rows_are_a_suffix df test_size picks train val :
  let clean := dropna df in
  let n := Z.to_nat (py_int (test_size
                     * inject_Z (Z.of_nat (length (df_rows clean))))%Q) in
  is_draw n (length (df_rows clean)) picks →
  training_data_split df test_size picks = Return (train, val) →
  file_names train = skipn n (file_names clean) ∧
  file_names val = omap (λ i, file_names clean !! i) picks.
Proof.
  intros clean n (Hlen & _ & Hlt).
  unfold training_data_split. cbv zeta. fold clean.
  assert (length (df_rows (reset_index clean)) = length (df_rows clean))
    as Hrows by apply length_imap.
  rewrite Hrows. unfold sample.
  destruct (decide _) as [|_]; simpl; [done|].
  set (sampled := {| df_columns := _; df_rows := _ |}).
  assert (index (reset_index sampled) = seq 0 n) as Hindex.
  { rewrite index_reset_index. unfold sampled. simpl.
    rewrite length_imap, length_omap_lookup, Hlen; [done|].
    intros i Hi. rewrite length_imap. by apply Hlt. }
  unfold drop. rewrite Hindex.
  destruct (decide _) as [_|]; simpl; [|done].
  intros [= <- <-]. split.
  - rewrite file_names_reset_index. unfold file_names at 1.
    cbn [df_rows reset_index].
    rewrite reset_filter, fmap_drop.
    f_equal. apply (file_names_reset_index clean).
  - rewrite file_names_reset_index. unfold sampled, file_names at 1.
    cbn [df_rows reset_index].
    rewrite (reset_rows (λ r, row_get r "file name")).
    rewrite (omap_lookup_fmap (λ r, row_get r.2 "file name")).
    by rewrite (reset_rows (λ r, row_get r "file name")).
Qed.

(** C1, at a failing input: of five annotated files with a validation
    fraction of one fifth, the generator draws the fourth; the validation
    table holds it, and so does the training table, which lacks the first
    file instead. *)
Theorem split_overlap :
  is_draw 1 5 [3] ∧
  ∃ train val,
    training_data_split Examples.five_samples (1 # 5)%Q [3]
    = Return (train, val) ∧
    file_names val = [Str "d.tif"] ∧
    file_names train = [Str "b.tif"; Str "c.tif"; Str "d.tif"; Str "e.tif"] ∧
    Str "d.tif" ∈ file_names train ∧ Str "d.tif" ∈ file_names val ∧
    Str "a.tif" ∉ file_names train ++ file_names val.
Proof.
  split.
  { split_and!; [done| |].
    - apply NoDup_singleton.
    - intros i ->%list_elem_of_singleton. lia. }
  eexists _, _. split; [vm_compute; reflexivity|].
  split; [vm_compute; reflexivity|].
  split; [vm_compute; reflexivity|].
  split_and!.
  - vm_compute. do 2 right. left.
  - vm_compute. left.
  - vm_compute. intros H.
    repeat (apply elem_of_cons in H as [H|H]; [discriminate|]).
    inversion H.
Qed.

End SplitFacts.

(** ** The dataset loader *)

Section LoaderFacts.
Import Table Loader Dataset.
Local Open Scope nat_scope.

Lemma check_each_uniform fs s paths :
  referenced fs paths → uniform fs paths s →
  check_each fs s paths = Return (Some s).
Proof.
  induction paths as [|p paths IH]; intros Href Huni; simpl; [done|].
  destruct (Href p) as [img Himg]; [by left|]. rewrite Himg. simpl.
  rewrite decide_False.
  2:{ intros Hne. apply Hne. symmetry. apply (Huni p); [by left|done]. }
  apply IH.
  - intros q Hq. apply Href. by right.
  - intros q iq Hq. apply Huni. by right.
Qed.


Lemma check_image_shape_uniform fs files paths s :
  column files "full path" = Return paths → paths ≠ [] →
  referenced fs paths → uniform fs paths s →
  check_image_shape fs files = Return (Some s).
Proof.
  intros Hcol Hne Href Huni. unfold check_image_shape. rewrite Hcol. simpl.
  destruct paths as [|p paths]; [done|].
  destruct (Href p) as [img Himg]; [by left|].
  pose proof (check_each_uniform fs s (p :: paths) Href Huni) as Hc.
  assert (shape img = s) as Hs by (apply (Huni p); [by left|done]).
  rewrite Himg. simpl in *. rewrite Himg in Hc |- *. simpl in *.
  rewrite Hs in Hc |- *. exact Hc.
Qed.


Lemma length_bind_const {A B} (f : A → list B) (l : list A) w :
  (∀ a, length (f a) = w) → length (l ≫= f) = length l * w.
Proof.
  intros Hf. induction l as [|a l IH]; [done|].
  rewrite bind_cons, length_app, IH, Hf. done.
Qed.

Lemma length_pixels img :
  length (Transform.pixels img) = height img * width img.
Proof.
  unfold Transform.pixels.
  rewrite (length_bind_const _ _ (width img)), length_seq; [done|].
  intros i. by rewrite length_fmap, length_seq.
Qed.

Lemma length_images (images : list image) h w :
  Forall (λ i, shape i = (h, w)) images →
  length (images ≫= Transform.pixels) = length images * (h * w).
Proof.
  induction 1 as [|img images Himg _ IH]; [done|].
  rewrite bind_cons, length_app, IH, length_pixels.
  injection Himg as -> ->. done.
Qed.

(** The coordinates of one image, landmark after landmark. *)
Lemma positions_loop landmarks (p : cell) names : ∀ acc,
  (∀ lmk, lmk ∈ names → ∃ col c xy, lmk = Str col ∧
     loc_get landmarks "full path" p col = Return c ∧
     literal_eval c = Return xy) →
  ∃ l, for_each names (λ lmk positions,
         col ← col_label lmk;
         c ← loc_get landmarks "full path" p col;
         '(x, y) ← literal_eval c;
         Return (positions ++ [x; y])) acc = Return (acc ++ l) ∧
       length l = 2 * length names.
Proof.
  induction names as [|lmk names IH]; intros acc Hall.
  { exists []. by rewrite app_nil_r. }
  destruct (Hall lmk) as (col & c & [x y] & -> & Hget & Hxy); [by left|].
  destruct (IH (acc ++ [x; y])) as (l & Hloop & Hlen).
  { intros lmk' Hin. apply Hall. by right. }
  exists ([x; y] ++ l). simpl. rewrite Hget. simpl. rewrite Hxy. simpl.
  rewrite Hloop, <- app_assoc. split; [done|]. simpl. lia.
Qed.

(** The images and the coordinates, image after image. *)
Lemma images_loop fs landmarks df_model names paths h w ps : ∀ acc,
  referenced fs paths → uniform fs paths (h, w) →
  vocabulary df_model = Return names →
  described landmarks names paths →
  ps ⊆ paths →
  ∃ images rows,
    for_each ps (λ image_path acc,
      image ← Image_open fs image_path;
      names ← vocabulary df_model;
      landmark_positions ← for_each names (λ lmk positions,
        col ← col_label lmk;
        c ← loc_get landmarks "full path" image_path col;
        '(x, y) ← literal_eval c;
        Return (positions ++ [x; y])) [];
      Return (acc.1 ++ [image], acc.2 ++ [landmark_positions])) acc
    = Return (acc.1 ++ images, acc.2 ++ rows) ∧
    length images = length ps ∧ length rows = length ps ∧
    Forall (λ i, shape i = (h, w)) images ∧
    Forall (λ r, length r = 2 * length names) rows.
Proof.
  induction ps as [|p ps IH]; intros acc Href Huni Hv Hdesc Hsub.
  { exists [], []. rewrite !app_nil_r. by destruct acc. }
  destruct (Href p) as [img Himg]; [set_solver|].
  destruct (positions_loop landmarks p names []) as (l & Hl & Hlen).
  { intros lmk Hin. apply Hdesc; [set_solver|done]. }
  destruct (IH (acc.1 ++ [img], acc.2 ++ [l])) as
    (images & rows & Hloop & Hi & Hr & Hshape & Hrows); [done..|set_solver|].
  exists (img :: images), (l :: rows).
  cbn [for_each]. rewrite Himg. cbn [mbind outcome_bind].
  rewrite Hv. cbn [mbind outcome_bind]. rewrite Hl. cbn [mbind outcome_bind].
  rewrite Hv in Hloop. cbn [mbind outcome_bind fst snd] in Hloop |- *.
  change ([] ++ l) with l. rewrite Hloop.
  rewrite <- !app_assoc. cbn [app length].
  split_and!; [done|lia|lia| |].
  - constructor; [|done]. apply (Huni p); [set_solver|done].
  - by constructor.
Qed.

Lemma np_asarray_images_uniform images h w :
  images ≠ [] → Forall (λ i, shape i = (h, w)) images →
  ∃ a, np_asarray_images images = Return a ∧
       nd_shape a = [length images; h; w] ∧
       length (nd_data a) = length images * (h * w).
Proof.
  intros Hne Hall. destruct images as [|img images]; [done|].
  unfold np_asarray_images.
  pose proof (Forall_inv Hall) as Himg. injection Himg as Hh Hw.
  rewrite decide_True.
  2:{ eapply Forall_impl; [done|]. intros i [= -> ->]. done. }
  eexists. split; [done|]. cbn [nd_shape nd_data]. rewrite Hh, Hw.
  split; [done|]. by apply length_images.
Qed.

Lemma np_array_rows_uniform (rows : list (list Z)) m :
  rows ≠ [] → Forall (λ r, length r = m) rows →
  ∃ a, np_array_rows rows = Return a ∧ nd_shape a = [length rows; m].
Proof.
  intros Hne Hall. destruct rows as [|r rows]; [done|].
  unfold np_array_rows. pose proof (Forall_inv Hall) as Hr.
  rewrite decide_True.
  2:{ eapply Forall_impl; [done|]. intros r' ->. done. }
  eexists. split; [done|]. simpl. by rewrite Hr.
Qed.

Lemma import_arrays_uniform fs landmarks files df_model paths lpaths names h w :
  column files "full path" = Return paths → paths ≠ [] →
  referenced fs paths → uniform fs paths (h, w) →
  vocabulary df_model = Return names →
  described landmarks names paths →
  column landmarks "full path" = Return lpaths →
  length (unique lpaths) = length (unique paths) →
  ∃ X y, import_arrays fs landmarks files df_model = Return (Some (X, y)) ∧
    nd_shape X = [length (unique paths); h; w; 1] ∧
    nd_shape y = [length (unique paths); 2 * length names].
Proof.
  intros Hcol Hne Href Huni Hv Hdesc Hlcol Hlen.
  unfold import_arrays.
  rewrite (check_image_shape_uniform fs files paths (h, w)) by done. simpl.
  rewrite Hcol. simpl.
  destruct (images_loop fs landmarks df_model names paths h w (unique paths)
              ([], [])) as (images & rows & Hloop & Hi & Hr & Hshape & Hrows);
    [done..| |].
  { intros p. by rewrite elem_of_unique. }
  rewrite Hloop. simpl.
  assert (unique paths ≠ []) as Hune.
  { destruct paths as [|p paths]; [done|].
    intros Hnil. assert (p ∈ unique (p :: paths)) as Hin
      by (apply elem_of_unique; by left).
    rewrite Hnil in Hin. inversion Hin. }
  destruct (np_asarray_images_uniform images h w) as (a & Ha & _ & Hdata);
    [|done|].
  { intros ->. simpl in Hi. by destruct (unique paths). }
  rewrite Ha. simpl. rewrite Hlcol. simpl. unfold reshape.
  rewrite decide_True by (simpl; rewrite Hdata, Hlen, Hi; lia). simpl.
  destruct (np_array_rows_uniform rows (2 * length names)) as (b & Hb & Hbs);
    [|done|].
  { intros ->. simpl in Hr. by destruct (unique paths). }
  rewrite Hb. simpl.
  eexists _, _. split; [done|]. simpl. by rewrite Hlen, Hbs, Hr.
Qed.


End LoaderFacts.

(** ** The loader on the folders of the examples *)

Section LoaderExamples.
Import Table Loader Dataset.
Local Open Scope nat_scope.

(** The table of the examples, once [import_data] has set its paths. *)
Lemma examples_paths :
  ∃ landmarks',
    set_full_path "data" Examples.landmarks = Return landmarks' ∧
    <[0 := landmarks']> Examples.one_table !! 0 = Some landmarks' ∧
    column landmarks' "full path"
    = Return [Str "data/a.tif"; Str "data/b.tif"] ∧
    described landmarks' Examples.names [Str "data/a.tif"; Str "data/b.tif"].
Proof.
  eexists. split; [vm_compute; reflexivity|].
  split; [apply lookup_insert_eq|]. split; [vm_compute; reflexivity|].
  intros p lmk Hp Hlmk. unfold Examples.names in Hlmk.
  repeat (apply elem_of_cons in Hp as [->|Hp]);
    repeat (apply elem_of_cons in Hlmk as [->|Hlmk]);
    try (by inversion Hp); try (by inversion Hlmk);
    eexists _, _, _; (split; [done|]); split; vm_compute; reflexivity.
Qed.

Lemma examples_referenced fs :
  fs = Examples.same_shapes ∨ fs = Examples.other_shape →
  referenced fs [Str "data/a.tif"; Str "data/b.tif"].
Proof.
  intros Hfs p Hp.
  repeat (apply elem_of_cons in Hp as [->|Hp]); try (by inversion Hp);
    destruct Hfs as [-> | ->]; eexists; vm_compute; reflexivity.
Qed.


End LoaderExamples.

(** ** Assignments to a table *)

Section WriteFacts.
Import Table Frame Rescale.
Local Open Scope nat_scope.

Lemma for_each_app {A S} (l1 l2 : list A) (f : A → S → outcome S) s :
  for_each (l1 ++ l2) f s = s' ← for_each l1 f s; for_each l2 f s'.
Proof.
  revert s. induction l1 as [|a l1 IH]; intros s; simpl; [done|].
  destruct (f a s); simpl; [apply IH|done].
Qed.






Lemma loc_set_columns df kcol key col v df' :
  loc_set df kcol key col v = Return df' →
  col ∈ df_columns df' ∧ ∀ c, c ∈ df_columns df → c ∈ df_columns df'.
Proof.
  unfold loc_set. case_decide; [|done]. intros [= <-]; simpl.
  case_decide; set_solver.
Qed.







End WriteFacts.

(** ** Prediction *)

Section PredictFacts.
Import Table Transform Loader Predict Dataset Rescale.
Local Open Scope nat_scope.

Variable resize_px : image → nat → nat → nat → nat → Q.









Lemma fmap_bind_list {A B C} (f : B → C) (g : A → list B) (l : list A) :
  f <$> (l ≫= g) = l ≫= (λ a, f <$> g a).
Proof.
  induction l as [|a l IH]; [done|]. by rewrite !bind_cons, fmap_app, IH.
Qed.









End PredictFacts.

(** ** Prediction on the image of the examples *)

Section PredictExamples.
Import Table Loader Predict Dataset Rescale.
Local Open Scope nat_scope.





(** In a batch of an image of 256 by 256 followed by one of 512 by 512,
    the coordinates of both are multiplied by the ratio of the second. *)
Example predict_landmarks_two_sizes_ex :
  ∃ out,
    predict_landmarks Examples.resize_nearest Examples.two_sizes
      Examples.two_files Examples.vocabulary_table Examples.network_of_two
      "proj" false "predicted.csv" = Return ("proj/predicted.csv"%string, out) ∧
    coords out "a.tif" "L1" = Return (256, 256)%Z ∧
    coords out "b.tif" "L1" = Return (256, 256)%Z.
Proof. eexists. split_and!; vm_compute; reflexivity. Qed.



End PredictExamples.

(** ** Zoom, augmentation and the failures of the landmark loops *)

Import Table Transform.

Section RoundFacts.

Lemma py_round_floor q : Qfloor q ≤ py_round q ≤ Qfloor q + 1.
Proof.
  unfold py_round. cbv zeta.
  destruct (_ ?= _)%Q; [destruct (Z.even _)|..]; lia.
Qed.

Lemma py_round_ge z q : (inject_Z z <= q)%Q → z ≤ py_round q.
Proof.
  intros H. pose proof (py_round_floor q) as [Hf _].
  apply Qfloor_resp_le in H. rewrite Qfloor_Z in H. lia.
Qed.

Lemma py_round_le z q : (q <= inject_Z z)%Q → py_round q ≤ z.
Proof.
  intros H. pose proof (Qfloor_resp_le _ _ H) as Hf. rewrite Qfloor_Z in Hf.
  destruct (decide (Qfloor q = z)) as [Heq|Hne].
  - unfold py_round. cbv zeta. rewrite Heq.
    assert (q - inject_Z z < 1 # 2)%Q as Hlt.
    { apply Qle_lt_trans with 0%Q; [|reflexivity].
      apply (Qplus_le_l _ _ (inject_Z z)). ring_simplify. exact H. }
    apply Qlt_alt in Hlt. change ((q - inject_Z z ?= 1 # 2)%Q = Lt) in Hlt. rewrite Hlt. lia.
  - pose proof (py_round_floor q). lia.
Qed.

Lemma slice_window start len n :
  0 ≤ start → start + Z.of_nat len ≤ Z.of_nat n →
  slice start (start + Z.of_nat len) n = (Z.to_nat start, len).
Proof.
  intros H0 H1. unfold slice.
  rewrite !decide_False by lia. f_equal; lia.
Qed.

End RoundFacts.

Section ScaleFacts.
Import Table Transform.
Variable zoom_px : image → Q → Q → nat → nat → Q.

Lemma Qlt_bool_true a b : Qlt_bool a b = true ↔ (a < b)%Q.
Proof.
  unfold Qlt_bool. rewrite negb_true_iff. split.
  - intros H. apply Qnot_le_lt. intros Hle. apply Qle_bool_iff in Hle. congruence.
  - intros H. destruct (Qle_bool b a) eqn:E; [|done].
    apply Qle_bool_iff in E. exfalso. exact (Qlt_not_le _ _ H E).
Qed.

Lemma Qlt_bool_false a b : Qlt_bool a b = false ↔ (b <= a)%Q.
Proof.
  unfold Qlt_bool. rewrite negb_false_iff. apply Qle_bool_iff.
Qed.

Lemma zoomed_dimension_ge (o : nat) zoom :
  (1 <= zoom)%Q →
  (o ≤ Z.to_nat (py_round (inject_Z (Z.of_nat o) * zoom)))%nat.
Proof.
  intros H.
  assert (Z.of_nat o ≤ py_round (inject_Z (Z.of_nat o) * zoom)); [|lia].
  apply py_round_ge.
  rewrite Qmult_comm.
  apply Qle_trans with (1 * inject_Z (Z.of_nat o))%Q;
    [rewrite Qmult_1_l; apply Qle_refl|].
  apply Qmult_le_compat_r; [exact H|].
  change 0%Q with (inject_Z 0). rewrite <- Zle_Qle. lia.
Qed.

Lemma zoomed_dimension_le (o : nat) zoom :
  (zoom <= 1)%Q →
  (Z.to_nat (py_round (inject_Z (Z.of_nat o) * zoom)) ≤ o)%nat.
Proof.
  intros H.
  assert (py_round (inject_Z (Z.of_nat o) * zoom) ≤ Z.of_nat o); [|lia].
  apply py_round_le.
  rewrite Qmult_comm.
  apply Qle_trans with (1 * inject_Z (Z.of_nat o))%Q;
    [|rewrite Qmult_1_l; apply Qle_refl].
  apply Qmult_le_compat_r; [exact H|].
  change 0%Q with (inject_Z 0). rewrite <- Zle_Qle. lia.
Qed.

End ScaleFacts.

Section ScaleImage.
Import Table Transform.
Variable zoom_px : image → Q → Q → nat → nat → Q.

Lemma scale_image_crop img zoom :
  (1 < zoom)%Q →
  let zoomed := ndimage_zoom zoom_px img zoom (mean_positive img) in
  let y0 := Z.to_nat (Z.of_nat (height zoomed) / 2 - Z.of_nat (height img) / 2) in
  let x0 := Z.to_nat (Z.of_nat (width zoomed) / 2 - Z.of_nat (width img) / 2) in
  scale_image zoom_px img zoom
  = Return {| height := height img; width := width img;
              px := λ i j, px zoomed (y0 + i)%nat (x0 + j)%nat |}.
Proof.
  intros Hz zoomed y0 x0. unfold scale_image.
  rewrite (proj2 (Qlt_bool_true _ _) Hz). cbv zeta.
  pose proof (zoomed_dimension_ge (height img) zoom (Qlt_le_weak _ _ Hz)) as Hh.
  pose proof (zoomed_dimension_ge (width img) zoom (Qlt_le_weak _ _ Hz)) as Hw.
  fold zoomed. 
  assert (height img ≤ height zoomed)%nat as Hh' by exact Hh.
  assert (width img ≤ width zoomed)%nat as Hw' by exact Hw.
  rewrite !slice_window by (Z.div_mod_to_equations; lia).
  reflexivity.
Qed.

Lemma scale_image_paste img zoom :
  (zoom <= 1)%Q →
  let zoomed := ndimage_zoom zoom_px img zoom (mean_positive img) in
  let y0 := Z.to_nat (Z.of_nat (height img) / 2 - Z.of_nat (height zoomed) / 2) in
  let x0 := Z.to_nat (Z.of_nat (width img) / 2 - Z.of_nat (width zoomed) / 2) in
  scale_image zoom_px img zoom
  = Return {| height := height img; width := width img;
              px := λ i j,
                if decide ((y0 ≤ i < y0 + height zoomed) ∧
                           (x0 ≤ j < x0 + width zoomed))%nat
                then px zoomed (i - y0)%nat (j - x0)%nat
                else (1 * mean_positive img)%Q |}.
Proof.
  intros Hz zoomed y0 x0. unfold scale_image.
  rewrite (proj2 (Qlt_bool_false _ _) Hz). cbv zeta.
  pose proof (zoomed_dimension_le (height img) zoom Hz) as Hh.
  pose proof (zoomed_dimension_le (width img) zoom Hz) as Hw.
  fold zoomed.
  assert (height zoomed ≤ height img)%nat as Hh' by exact Hh.
  assert (width zoomed ≤ width img)%nat as Hw' by exact Hw.
  rewrite !slice_window by (Z.div_mod_to_equations; lia).
  rewrite decide_True by done. reflexivity.
Qed.

End ScaleImage.

Section DuplicateFacts.
Import Table Transform Frame Augment.
Local Open Scope string_scope.

Lemma filter_app_head {A} (p : A → bool) (l1 l2 : list A) a rest :
  List.filter p l1 = a :: rest →
  List.filter p (l1 ++ l2) = a :: rest ++ List.filter p l2.
Proof. intros H. rewrite List.filter_app, H. reflexivity. Qed.

(** A row appended to a table is not seen by a lookup that finds a row
    of the table. *)
Lemma loc_get_app df kcol key col c row :
  loc_get df kcol key col = Return c →
  loc_get {| df_columns := df_columns df; df_rows := df_rows df ++ [row] |}
    kcol key col = Return c.
Proof.
  intros H. apply loc_get_Return in H as (Hk & Hc & r & rest & Hf & ->).
  unfold loc_get. cbn [df_columns df_rows].
  rewrite !decide_True by done.
  rewrite (filter_app_head _ _ _ _ _ Hf). reflexivity.
Qed.

Lemma set_row_unselected kcol key col v rows :
  Forall (λ r, selects kcol key r = false) rows →
  set_row kcol key col v <$> rows = rows.
Proof.
  induction 1 as [|r rows Hr _ IH]; [done|].
  rewrite fmap_cons, IH. unfold set_row at 1. rewrite Hr. reflexivity.
Qed.

Lemma loc_set_appended df kcol (key : string) col v m r :
  kcol ∈ df_columns df → col ∈ df_columns df →
  Forall (λ row, selects kcol (Str key) row = false) (df_rows df) →
  row_get r kcol = Str key →
  loc_set {| df_columns := df_columns df; df_rows := df_rows df ++ [(m, r)] |}
    kcol (Str key) col v
  = Return {| df_columns := df_columns df;
              df_rows := df_rows df ++ [(m, <[col := v]> r)] |}.
Proof.
  intros Hk Hc Hrows Hr. unfold loc_set. cbn [df_columns df_rows].
  rewrite !decide_True by done. do 2 f_equal.
  rewrite fmap_app. fold (set_row kcol (Str key) col v).
  rewrite set_row_unselected by done.
  cbn [fmap list_fmap]. unfold set_row, selects.
  cbn [snd fst]. rewrite Hr. cbn [cell_eqb].
  rewrite bool_decide_eq_true_2 by done. reflexivity.
Qed.

Lemma duplicate_loop df new old m names : ∀ r,
  "file name" ∈ df_columns df →
  Str "file name" ∉ names →
  Forall (λ row, selects "file name" (Str new) row = false) (df_rows df) →
  row_get r "file name" = Str new →
  (∀ lmk, lmk ∈ names → ∃ col c,
     lmk = Str col ∧ loc_get df "file name" (Str old) col = Return c) →
  ∃ r',
    for_each names (λ lmk df,
      col ← col_label lmk;
      lmk_values ← loc_get df "file name" (Str old) col;
      loc_set df "file name" (Str new) col lmk_values)
      {| df_columns := df_columns df; df_rows := df_rows df ++ [(m, r)] |}
    = Return {| df_columns := df_columns df;
                df_rows := df_rows df ++ [(m, r')] |} ∧
    row_get r' "file name" = Str new ∧
    (∀ col c, Str col ∈ names →
       loc_get df "file name" (Str old) col = Return c → r' !! col = Some c) ∧
    (∀ col, Str col ∉ names → r' !! col = r !! col).
Proof.
  induction names as [|lmk names IH]; intros r Hkey Hnot Hnew Hr Hold.
  - exists r. cbn. split; [done|split; [done|split; [|done]]]. intros col c Hin. inversion Hin.
  - destruct (Hold lmk ltac:(left)) as (col & c & -> & Hget).
    assert (col ≠ "file name") as Hcol.
    { intros ->. apply Hnot. left. }
    pose proof (loc_get_Return _ _ _ _ _ Hget) as (_ & Hc & _).
    destruct (IH (<[col := c]> r)) as (r' & Hloop & Hr' & Hin & Hout).
    + done.
    + intros H. apply Hnot. by right.
    + done.
    + unfold row_get. rewrite lookup_insert_ne by done. exact Hr.
    + intros lmk Hl. apply Hold. by right.
    + exists r'. split; [|split; [done|split]].
      * cbn [for_each]. cbn [col_label mbind outcome_bind].
        rewrite (loc_get_app _ _ _ _ _ (m, r) Hget).
        cbn [mbind outcome_bind].
        rewrite loc_set_appended by done.
        cbn [mbind outcome_bind]. exact Hloop.
      * intros col' c' Hel Hget'.
        destruct (decide (Str col' ∈ names)) as [Hn|Hn]; [by apply Hin|].
        apply elem_of_cons in Hel as [Heq|?]; [|done].
        injection Heq as ->. rewrite Hout by done.
        rewrite lookup_insert_eq. congruence.
      * intros col' Hn. rewrite Hout by (intros ?; apply Hn; by right).
        apply lookup_insert_ne. intros ->. apply Hn. left.
Qed.

End DuplicateFacts.

Section AugmentFacts.
Import Table Transform Frame Augment.
Local Open Scope string_scope.

Lemma selects_file_names df (file : string) :
  Str file ∉ Split.file_names df ↔
  Forall (λ row, selects "file name" (Str file) row = false) (df_rows df).
Proof.
  unfold Split.file_names. rewrite Forall_forall. split.
  - intros H r Hr. unfold selects.
    destruct (row_get r.2 "file name") as [|s] eqn:E; [done|].
    cbn. apply bool_decide_eq_false_2. intros ->. apply H.
    apply list_elem_of_fmap. by exists r.
  - intros H Hin. apply list_elem_of_fmap in Hin as (r & Hr & Hin).
    specialize (H r Hin).
    unfold selects in H. rewrite <- Hr in H. cbn in H.
    by rewrite bool_decide_eq_true_2 in H.
Qed.


Lemma duplicate_landmarks_rows df df_model new old names :
  vocabulary df_model = Return names →
  "file name" ∈ df_columns df →
  Str "file name" ∉ names →
  length (df_rows df) ∉ Split.index df →
  Str new ∉ Split.file_names df →
  (∀ lmk, lmk ∈ names → ∃ col c,
     lmk = Str col ∧ loc_get df "file name" (Str old) col = Return c) →
  ∃ r,
    duplicate_landmarks df df_model new old
    = Return {| df_columns := df_columns df;
                df_rows := df_rows df ++ [(length (df_rows df), r)] |} ∧
    r !! "file name" = Some (Str new) ∧
    (∀ col c, Str col ∈ names →
       loc_get df "file name" (Str old) col = Return c → r !! col = Some c) ∧
    (∀ col, Str col ∉ names → col ≠ "file name" → r !! col = None).
Proof.
  intros Hvoc Hkey Hnot Hfresh Hnew Hold.
  apply selects_file_names in Hnew.
  destruct (duplicate_loop df new old (length (df_rows df)) names
              {[ "file name" := Str new ]} Hkey Hnot Hnew)
    as (r & Hloop & Hr & Hin & Hout); [|exact Hold|].
  { unfold row_get. by rewrite lookup_singleton_eq. }
  exists r. split; [|split; [|split]].
  - unfold duplicate_landmarks. rewrite Hvoc. cbn [mbind outcome_bind].
    unfold loc_set_label. rewrite decide_True by done.
    rewrite decide_False by done. exact Hloop.
  - rewrite Hout by done. apply lookup_singleton_eq.
  - exact Hin.
  - intros col Hn Hc. rewrite Hout by done. by apply lookup_singleton_ne.
Qed.

End AugmentFacts.

Section AugmentComposition.
Import Table Transform Frame Augment.
Local Open Scope string_scope.

Lemma loc_get_app_unselected df kcol key col row :
  selects kcol key row = false →
  loc_get {| df_columns := df_columns df; df_rows := df_rows df ++ [row] |}
    kcol key col = loc_get df kcol key col.
Proof.
  intros H. unfold loc_get. cbn [df_columns df_rows].
  rewrite List.filter_app. cbn [List.filter]. rewrite H, app_nil_r.
  reflexivity.
Qed.

Lemma loc_get_appended df kcol (key : string) col m r :
  kcol ∈ df_columns df → col ∈ df_columns df →
  Forall (λ row, selects kcol (Str key) row = false) (df_rows df) →
  row_get r kcol = Str key →
  loc_get {| df_columns := df_columns df; df_rows := df_rows df ++ [(m, r)] |}
    kcol (Str key) col = Return (row_get r col).
Proof.
  intros Hk Hc Hrows Hr. unfold loc_get. cbn [df_columns df_rows].
  rewrite !decide_True by done.
  rewrite List.filter_app.
  replace (List.filter (selects kcol (Str key)) (df_rows df)) with
    (@nil (nat * gmap string cell)).
  - cbn [List.filter app]. unfold selects at 1. cbn [snd]. rewrite Hr.
    cbn [cell_eqb]. rewrite bool_decide_eq_true_2 by done. reflexivity.
  - symmetry. induction Hrows as [|x l Hx _ IH]; [done|].
    cbn [List.filter]. rewrite Hx. exact IH.
Qed.


Lemma frame_length file names df df' :
  frame file names df df' → length (df_rows df') = length (df_rows df).
Proof. intros [_ H]. symmetry. exact (Forall2_length _ _ _ H). Qed.




End AugmentComposition.

Section AugmentTheorems.
Import Table Transform Frame Augment.
Local Open Scope string_scope.





End AugmentTheorems.

Section LoopErrors.
Import Table Transform Frame Augment.
Local Open Scope string_scope.

Lemma loc_get_missing df (file : string) col :
  "file name" ∈ df_columns df → col ∈ df_columns df →
  Str file ∉ Split.file_names df →
  loc_get df "file name" (Str file) col = Raise IndexError.
Proof.
  intros Hk Hc Hn. apply selects_file_names in Hn.
  unfold loc_get. rewrite !decide_True by done.
  replace (List.filter (selects "file name" (Str file)) (df_rows df)) with
    (@nil (nat * gmap string cell)); [done|].
  symmetry. induction Hn as [|x l Hx _ IH]; [done|].
  cbn [List.filter]. rewrite Hx. exact IH.
Qed.

Lemma update_landmark_missing f df (file : string) col rest :
  "file name" ∈ df_columns df → col ∈ df_columns df →
  Str file ∉ Split.file_names df →
  for_each (Str col :: rest) (update_landmark f file) df = Raise IndexError.
Proof.
  intros Hk Hc Hn. cbn [for_each].
  assert (update_landmark f file (Str col) df = Raise IndexError) as ->;
    [|reflexivity].
  unfold update_landmark. cbn [col_label mbind outcome_bind].
  rewrite loc_get_missing by done. reflexivity.
Qed.

Lemma loc_set_label_file_names df label (new old : string) :
  new ≠ old → Str old ∉ Split.file_names df →
  Str old ∉ Split.file_names (loc_set_label df label "file name" (Str new)).
Proof.
  intros Hne Hn. unfold Split.file_names, loc_set_label in *.
  cbn [df_rows]. intros Hin. apply Hn. clear Hn.
  destruct (decide (label ∈ Split.index df)).
  - apply list_elem_of_fmap in Hin as (r & Hr & Hin).
    apply list_elem_of_fmap in Hin as (r0 & -> & Hin).
    destruct (decide (r0.1 = label)).
    + cbn in Hr. unfold row_get in Hr. rewrite lookup_insert_eq in Hr.
      cbn in Hr. congruence.
    + apply list_elem_of_fmap. by exists r0.
  - rewrite fmap_app in Hin. apply elem_of_app in Hin as [Hin|Hin]; [done|].
    cbn in Hin. apply list_elem_of_singleton in Hin.
    unfold row_get in Hin. rewrite lookup_singleton_eq in Hin. cbn in Hin.
    congruence.
Qed.

Lemma loc_set_label_columns df label col v :
  ∀ c, c ∈ df_columns df → c ∈ df_columns (loc_set_label df label col v).
Proof.
  intros c Hc. unfold loc_set_label. cbn [df_columns].
  destruct (decide (col ∈ df_columns df)); [done|].
  apply elem_of_app. by left.
Qed.

Lemma update_landmark_unannotated f df (file : string) pre col post :
  NoDup (pre ++ Str col :: post) →
  annotated pre df file →
  (∀ x y, ∃ q, f x y = Return q) →
  loc_get df "file name" (Str file) col = Return NaN →
  for_each (pre ++ Str col :: post) (update_landmark f file) df
  = Raise ValueError.
Proof.
  intros Hnd [Hnot Hann] Hf Hnan.
  apply NoDup_app in Hnd as (Hpre & Hdisj & _).
  rewrite for_each_app.
  destruct (for_each_update_spec f file pre df Hpre Hnot)
    as (df1 & -> & _ & Hsame).
  { apply annotated_update; [by split|exact Hf]. }
  cbn [mbind outcome_bind for_each].
  assert (update_landmark f file (Str col) df1 = Raise ValueError) as ->;
    [|reflexivity].
  unfold update_landmark. cbn [col_label mbind outcome_bind].
  rewrite Hsame, Hnan; [reflexivity|].
  intros Hin. apply (Hdisj _ Hin). left.
Qed.

End LoopErrors.

Section Normalization.
Import Table Transform.

Lemma pixels_map_px f img : pixels (map_px f img) = f <$> pixels img.
Proof.
  unfold pixels, map_px. cbn [height width px].
  rewrite fmap_bind_list.
  induction (seq 0 (height img)) as [|i l IH]; [done|].
  cbn [mbind list_bind]. rewrite IH. f_equal.
  by rewrite <- list_fmap_compose.
Qed.

Lemma elem_of_pixels img i j :
  (i < height img)%nat → (j < width img)%nat → px img i j ∈ pixels img.
Proof.
  intros Hi Hj. unfold pixels. apply list_elem_of_bind. exists i. split.
  - apply list_elem_of_fmap. exists j. split; [done|]. apply elem_of_seq. lia.
  - apply elem_of_seq. lia.
Qed.

Lemma sum_positive (l : list Q) :
  l ≠ [] → Forall (λ q, 0 < q)%Q l → (0 < foldr Qplus 0 l)%Q.
Proof.
  intros Hne Hl. destruct Hl as [|q l Hq Hl]; [done|]. clear Hne.
  cbn [foldr]. revert q Hq. induction Hl as [|p l Hp Hl IH]; intros q Hq.
  - cbn. rewrite Qplus_0_r. exact Hq.
  - cbn [foldr]. specialize (IH p Hp).
    apply Qlt_trans with (0 + foldr Qplus 0 (p :: l))%Q.
    + rewrite Qplus_0_l. exact IH.
    + apply Qplus_lt_l. exact Hq.
Qed.

Lemma sum_scaled (m : Q) (l : list Q) :
  (foldr Qplus 0 ((λ q, q / m) <$> l) == foldr Qplus 0 l / m)%Q.
Proof.
  induction l as [|q l IH].
  - cbn. unfold Qdiv. ring.
  - cbn [fmap list_fmap foldr]. rewrite IH. unfold Qdiv. ring.
Qed.

Lemma positive_scaled (m q : Q) :
  (0 < m)%Q → Qlt_bool 0 (q / m) = Qlt_bool 0 q.
Proof.
  intros Hm. destruct (Qlt_bool 0 q) eqn:E.
  - apply Qlt_bool_true in E. apply Qlt_bool_true.
    apply Qlt_shift_div_l; [exact Hm|]. rewrite Qmult_0_l. exact E.
  - apply Qlt_bool_false in E. apply Qlt_bool_false.
    apply Qle_shift_div_r; [exact Hm|]. rewrite Qmult_0_l. exact E.
Qed.

Lemma filter_positive_scaled (m : Q) (l : list Q) :
  (0 < m)%Q →
  List.filter (Qlt_bool 0) ((λ q, q / m)%Q <$> l)
  = (λ q, q / m)%Q <$> List.filter (Qlt_bool 0) l.
Proof.
  intros Hm. induction l as [|q l IH]; [done|].
  rewrite fmap_cons. cbn [List.filter]. rewrite positive_scaled by done.
  destruct (Qlt_bool 0 q); [rewrite fmap_cons|]; by rewrite IH.
Qed.

Lemma mean_positive_positive img i j :
  (i < height img)%nat → (j < width img)%nat → (0 < px img i j)%Q →
  (0 < mean_positive img)%Q.
Proof.
  intros Hi Hj Hp. unfold mean_positive, np_mean.
  set (l := List.filter (Qlt_bool 0) (pixels img)).
  assert (px img i j ∈ l) as Hin.
  { apply list_elem_of_In, List.filter_In. split.
    - apply list_elem_of_In. by apply elem_of_pixels.
    - by apply Qlt_bool_true. }
  assert (l ≠ []) as Hne by (intros E; rewrite E in Hin; inversion Hin).
  apply Qlt_shift_div_l.
  - change 0%Q with (inject_Z 0). rewrite <- Zlt_Qlt.
    destruct l; [done|]. cbn [length]. lia.
  - rewrite Qmult_0_l. apply sum_positive; [done|].
    apply Forall_forall. intros q Hq.
    apply list_elem_of_In, List.filter_In in Hq as [_ Hq].
    by apply Qlt_bool_true.
Qed.

Lemma mean_positive_normalized img i j :
  (i < height img)%nat → (j < width img)%nat → (0 < px img i j)%Q →
  let mean := mean_positive img in
  (mean_positive (map_px (λ q, q / mean)%Q img) == 1)%Q.
Proof.
  intros Hi Hj Hp mean.
  pose proof (mean_positive_positive img i j Hi Hj Hp) as Hm. fold mean in Hm.
  unfold mean_positive at 1. rewrite pixels_map_px.
  rewrite filter_positive_scaled by done.
  unfold np_mean. rewrite length_fmap, sum_scaled.
  subst mean. unfold mean_positive, np_mean in *.
  set (S := foldr Qplus 0%Q _) in *. set (n := inject_Z _) in *.
  assert (¬ n == 0)%Q as Hn.
  { intros E. rewrite E in Hm. unfold Qdiv in Hm. change (/ 0)%Q with 0%Q in Hm.
    rewrite Qmult_0_r in Hm. by apply Qlt_irrefl in Hm. }
  assert (¬ S == 0)%Q as HS.
  { intros E. rewrite E in Hm. unfold Qdiv in Hm. rewrite Qmult_0_l in Hm.
    by apply Qlt_irrefl in Hm. }
  field. split; [done|]. done.
Qed.

End Normalization.

Section TransformTheorems.
Import Table Transform Frame Augment.
Local Open Scope string_scope.

(** X1.  [scale_image] returns an array of the shape of its input for
    every zoom above one half, on an image that has a positive sample.
    For a zoom above one the result is the window of the zoomed array that
    starts at the difference of the half sizes; for a zoom of at most one
    the zoomed array is not larger than the image and is pasted at the
    difference of the half sizes over a background that holds the mean of
    the positive samples. *)
Theorem scale_image_keeps_shape
    (zoom_px : image → Q → Q → nat → nat → Q) (img : image) (zoom : Q) :
  (∃ i j, (i < height img)%nat ∧ (j < width img)%nat ∧ (0 < px img i j)%Q) →
  (1 # 2 < zoom)%Q →
  let zoomed := ndimage_zoom zoom_px img zoom (mean_positive img) in
  ∃ img', scale_image zoom_px img zoom = Return img' ∧
    height img' = height img ∧ width img' = width img ∧
    ((1 < zoom)%Q →
       let y0 := Z.to_nat (Z.of_nat (height zoomed) / 2
                           - Z.of_nat (height img) / 2) in
       let x0 := Z.to_nat (Z.of_nat (width zoomed) / 2
                           - Z.of_nat (width img) / 2) in
       ∀ i j, px img' i j = px zoomed (y0 + i)%nat (x0 + j)%nat) ∧
    ((zoom <= 1)%Q →
       let y0 := Z.to_nat (Z.of_nat (height img) / 2
                           - Z.of_nat (height zoomed) / 2) in
       let x0 := Z.to_nat (Z.of_nat (width img) / 2
                           - Z.of_nat (width zoomed) / 2) in
       (height zoomed ≤ height img)%nat ∧ (width zoomed ≤ width img)%nat ∧
       ∀ i j, px img' i j
              = if decide ((y0 ≤ i < y0 + height zoomed) ∧
                           (x0 ≤ j < x0 + width zoomed))%nat
                then px zoomed (i - y0)%nat (j - x0)%nat
                else (1 * mean_positive img)%Q).
Proof.
  intros _ _ zoomed. destruct (Qlt_le_dec 1 zoom) as [H|H].
  - eexists. split; [exact (scale_image_crop zoom_px img zoom H)|].
    split; [done|]. split; [done|]. split; [done|].
    intros H'. exfalso. exact (Qlt_not_le _ _ H H').
  - eexists. split; [exact (scale_image_paste zoom_px img zoom H)|].
    split; [done|]. split; [done|]. split.
    + intros H'. exfalso. exact (Qlt_not_le _ _ H' H).
    + intros _. split; [exact (zoomed_dimension_le _ _ H)|].
      split; [exact (zoomed_dimension_le _ _ H)|done].
Qed.

Lemma scale_image_keeps_shape_witness :
  let img := Examples.flat_image 12 16 in
  let zoom := (7 # 10)%Q in
  let zoomed := ndimage_zoom Examples.zoom_nearest img zoom (mean_positive img) in
  ∃ img', scale_image Examples.zoom_nearest img zoom = Return img' ∧
    height img' = 12%nat ∧ width img' = 16%nat ∧
    ((1 < zoom)%Q →
       let y0 := Z.to_nat (Z.of_nat (height zoomed) / 2
                           - Z.of_nat (height img) / 2) in
       let x0 := Z.to_nat (Z.of_nat (width zoomed) / 2
                           - Z.of_nat (width img) / 2) in
       ∀ i j, px img' i j = px zoomed (y0 + i)%nat (x0 + j)%nat) ∧
    ((zoom <= 1)%Q →
       let y0 := Z.to_nat (Z.of_nat (height img) / 2
                           - Z.of_nat (height zoomed) / 2) in
       let x0 := Z.to_nat (Z.of_nat (width img) / 2
                           - Z.of_nat (width zoomed) / 2) in
       (height zoomed ≤ height img)%nat ∧ (width zoomed ≤ width img)%nat ∧
       ∀ i j, px img' i j
              = if decide ((y0 ≤ i < y0 + height zoomed) ∧
                           (x0 ≤ j < x0 + width zoomed))%nat
                then px zoomed (i - y0)%nat (j - x0)%nat
                else (1 * mean_positive img)%Q).
Proof.
  apply (scale_image_keeps_shape Examples.zoom_nearest
           (Examples.flat_image 12 16) (7 # 10)%Q).
  - exists 0%nat, 0%nat. cbn. split; [lia|]. split; [lia|]. reflexivity.
  - reflexivity.
Defined.

(** X2.  [duplicate_landmarks] appends one row to a table whose labels do
    not hold the number of its rows and whose files do not hold the new
    name: the row is labelled with the former number of rows, carries the
    new name, and reads for every landmark of the vocabulary what the old
    file reads; the columns and what every other file reads stay. *)
Theorem duplicate_landmarks_appends (df df_model : DataFrame)
    (new old : string) (names : list cell) :
  vocabulary df_model = Return names →
  "file name" ∈ df_columns df →
  Str "file name" ∉ names →
  length (df_rows df) ∉ Split.index df →
  Str new ∉ Split.file_names df →
  (∀ lmk, lmk ∈ names → ∃ col c,
     lmk = Str col ∧ loc_get df "file name" (Str old) col = Return c) →
  ∃ df', duplicate_landmarks df df_model new old = Return df' ∧
    df_columns df' = df_columns df ∧
    Split.index df' = (Split.index df ++ [length (df_rows df)])%list ∧
    Split.file_names df' = (Split.file_names df ++ [Str new])%list ∧
    (∀ col, Str col ∈ names →
       loc_get df' "file name" (Str new) col
       = loc_get df "file name" (Str old) col) ∧
    (∀ file col, file ≠ new →
       loc_get df' "file name" (Str file) col
       = loc_get df "file name" (Str file) col).
Proof.
  intros Hvoc Hkey Hnot Hfresh Hnew Hold.
  destruct (duplicate_landmarks_rows df df_model new old names Hvoc Hkey Hnot
              Hfresh Hnew Hold) as (r & -> & Hrkey & Hrin & _).
  eexists. split; [reflexivity|]. cbn [df_columns df_rows].
  split; [done|]. split; [|split; [|split]].
  - unfold Split.index. cbn [df_rows]. by rewrite fmap_app.
  - unfold Split.file_names. cbn [df_rows]. rewrite fmap_app. cbn.
    unfold row_get. by rewrite Hrkey.
  - intros col Hin. destruct (Hold _ Hin) as (col' & c & [= <-] & Hc).
    pose proof (loc_get_Return _ _ _ _ _ Hc) as (_ & Hcol & _).
    rewrite loc_get_appended; [|done|done|by apply selects_file_names|].
    + unfold row_get. by rewrite (Hrin col c Hin Hc), Hc.
    + unfold row_get. by rewrite Hrkey.
  - intros file col Hne. apply loc_get_app_unselected.
    unfold selects, row_get. cbn [snd]. rewrite Hrkey. cbn.
    apply bool_decide_eq_false_2. congruence.
Qed.

End TransformTheorems.

Section TransformTheorems2.
Import Table Transform Frame Augment.
Local Open Scope string_scope.

Lemma examples_landmarks_old (old : string) :
  old = "a.tif" ∨ old = "b.tif" →
  ∀ lmk, lmk ∈ Examples.names → ∃ col c,
    lmk = Str col ∧
    loc_get Examples.landmarks "file name" (Str old) col = Return c.
Proof.
  intros Hold lmk Hl.
  destruct (examples_annotated old Hold) as [_ H].
  destruct (H lmk Hl) as (col & x & y & -> & Hc).
  apply coords_Return in Hc as (c & Hc & _). eauto.
Qed.

Lemma duplicate_landmarks_appends_witness :
  ∃ df',
    duplicate_landmarks Examples.landmarks Examples.vocabulary_table
      "0_a.tif" "a.tif" = Return df' ∧
    df_columns df' = df_columns Examples.landmarks ∧
    Split.index df' = [0; 1; 2]%nat ∧
    Split.file_names df' = [Str "a.tif"; Str "b.tif"; Str "0_a.tif"] ∧
    (∀ col, Str col ∈ Examples.names →
       loc_get df' "file name" (Str "0_a.tif") col
       = loc_get Examples.landmarks "file name" (Str "a.tif") col) ∧
    (∀ file col, file ≠ "0_a.tif" →
       loc_get df' "file name" (Str file) col
       = loc_get Examples.landmarks "file name" (Str file) col).
Proof.
  apply (duplicate_landmarks_appends Examples.landmarks
           Examples.vocabulary_table "0_a.tif" "a.tif" Examples.names).
  - exact examples_vocabulary.
  - refine (bool_decide_unpack _ _). vm_compute. exact I.
  - refine (bool_decide_unpack _ _). vm_compute. exact I.
  - refine (bool_decide_unpack _ _). vm_compute. exact I.
  - refine (bool_decide_unpack _ _). vm_compute. exact I.
  - apply examples_landmarks_old. by left.
Defined.



(** X4.  For an angle whose cosine is one and whose sine is zero (a full
    turn), [rotate_landmarks] leaves the coordinates of every landmark of
    the file as they are. *)
Theorem rotate_landmarks_full_turn (math_cos math_sin : Q → Q) (math_pi : Q)
    (img : image) (angle : Q) (file : string) (df df_model : DataFrame)
    (names : list cell) :
  (math_cos (angle * math_pi / 180) == 1)%Q →
  (math_sin (angle * math_pi / 180) == 0)%Q →
  vocabulary df_model = Return names →
  annotated names df file →
  ∃ df', rotate_landmarks math_cos math_sin math_pi img angle df df_model file
         = Return df' ∧
    ∀ col x y, Str col ∈ names → coords df file col = Return (x, y) →
      coords df' file col = Return (x, y).
Proof.
  intros Hcos Hsin Hvoc Hann.
  rewrite rotate_landmarks_loop, Hvoc. cbn [mbind outcome_bind].
  destruct (for_each_update_spec
              (λ x y, Return (rotate_xy math_cos math_sin math_pi img angle x y))
              file names df (vocabulary_NoDup _ _ Hvoc) (proj1 Hann))
    as (df' & Hloop & Hrot & _).
  { apply annotated_update; [done|]. intros x y. eauto. }
  exists df'. split; [done|]. intros col x y Hin Hc.
  rewrite (Hrot col x y Hin Hc). f_equal. unfold rotate_xy.
  f_equal; apply py_round_integer; rewrite Hcos, Hsin; ring.
Qed.

Lemma rotate_landmarks_full_turn_witness :
  ∃ df', rotate_landmarks Examples.cos_poly Examples.sin_poly
           Examples.pi_approx (Examples.flat_image 12 16) 0 Examples.landmarks
           Examples.vocabulary_table "a.tif" = Return df' ∧
    ∀ col x y, Str col ∈ Examples.names →
      coords Examples.landmarks "a.tif" col = Return (x, y) →
      coords df' "a.tif" col = Return (x, y).
Proof.
  apply (rotate_landmarks_full_turn Examples.cos_poly Examples.sin_poly
           Examples.pi_approx (Examples.flat_image 12 16) 0 "a.tif"
           Examples.landmarks Examples.vocabulary_table Examples.names).
  - reflexivity.
  - reflexivity.
  - exact examples_vocabulary.
  - apply examples_annotated. by left.
Defined.

End TransformTheorems2.

Section TransformTheorems3.
Import Table Transform Frame Augment.
Local Open Scope string_scope.

(** X5.  For a file that the table does not hold, the loops over the
    vocabulary raise [IndexError] at the first landmark: the selection is
    empty and [.values[0]] fails.  This holds for [landmarks_downsample],
    [rotate_landmarks], [scale_landmarks], and for [duplicate_landmarks]
    when the file to copy from is missing. *)
Theorem landmark_loops_missing_file (math_cos math_sin : Q → Q) (math_pi : Q)
    (img : image) (zoom angle : Q) (binning : Z) (file new : string)
    (df df_model : DataFrame) (col : string) (rest : list cell) :
  vocabulary df_model = Return (Str col :: rest) →
  "file name" ∈ df_columns df → col ∈ df_columns df →
  Str file ∉ Split.file_names df →
  landmarks_downsample file df df_model binning = Raise IndexError ∧
  rotate_landmarks math_cos math_sin math_pi img angle df df_model file
  = Raise IndexError ∧
  scale_landmarks img zoom df df_model file = Raise IndexError ∧
  (new ≠ file → duplicate_landmarks df df_model new file = Raise IndexError).
Proof.
  intros Hvoc Hkey Hcol Hfile.
  rewrite landmarks_downsample_loop, rotate_landmarks_loop,
    scale_landmarks_loop, Hvoc.
  cbn [mbind outcome_bind].
  rewrite !update_landmark_missing by done.
  split; [done|]. split; [done|]. split; [done|].
  intros Hne. unfold duplicate_landmarks. rewrite Hvoc.
  cbn [mbind outcome_bind for_each col_label].
  rewrite loc_get_missing; [done| | |].
  - by apply loc_set_label_columns.
  - by apply loc_set_label_columns.
  - by apply loc_set_label_file_names.
Qed.

Lemma landmark_loops_missing_file_witness :
  landmarks_downsample "c.tif" Examples.landmarks Examples.vocabulary_table 4
  = Raise IndexError ∧
  rotate_landmarks Examples.cos_poly Examples.sin_poly Examples.pi_approx
    (Examples.flat_image 12 16) 90 Examples.landmarks
    Examples.vocabulary_table "c.tif" = Raise IndexError ∧
  scale_landmarks (Examples.flat_image 12 16) (13 # 10) Examples.landmarks
    Examples.vocabulary_table "c.tif" = Raise IndexError ∧
  ("0_c.tif" ≠ "c.tif" →
   duplicate_landmarks Examples.landmarks Examples.vocabulary_table "0_c.tif"
     "c.tif" = Raise IndexError).
Proof.
  apply (landmark_loops_missing_file Examples.cos_poly Examples.sin_poly
           Examples.pi_approx (Examples.flat_image 12 16) (13 # 10) 90 4
           "c.tif" "0_c.tif" Examples.landmarks Examples.vocabulary_table
           "L1" [Str "L2"]).
  - exact examples_vocabulary.
  - refine (bool_decide_unpack _ _). vm_compute. exact I.
  - refine (bool_decide_unpack _ _). vm_compute. exact I.
  - refine (bool_decide_unpack _ _). vm_compute. exact I.
Defined.

(** X6.  A landmark that is not annotated stops the three transformations
    of a file with [ValueError]: when the landmarks before it in the
    vocabulary have coordinates and its cell is missing,
    [ast.literal_eval] fails on the missing value. *)
Theorem landmark_loops_unannotated (math_cos math_sin : Q → Q) (math_pi : Q)
    (img : image) (zoom angle : Q) (binning : Z) (file : string)
    (df df_model : DataFrame) (pre post : list cell) (col : string) :
  (0 < binning)%Z →
  vocabulary df_model = Return (pre ++ Str col :: post)%list →
  annotated pre df file →
  loc_get df "file name" (Str file) col = Return NaN →
  landmarks_downsample file df df_model binning = Raise ValueError ∧
  rotate_landmarks math_cos math_sin math_pi img angle df df_model file
  = Raise ValueError ∧
  scale_landmarks img zoom df df_model file = Raise ValueError.
Proof.
  intros Hb Hvoc Hann Hnan.
  pose proof (vocabulary_NoDup _ _ Hvoc) as Hnd.
  rewrite landmarks_downsample_loop, rotate_landmarks_loop,
    scale_landmarks_loop, Hvoc.
  cbn [mbind outcome_bind].
  rewrite !(update_landmark_unannotated _ df file pre col post Hnd Hann);
    try done.
  - intros x y. eauto.
  - intros x y. eauto.
  - intros x y. rewrite downsample_xy_pos by done. eauto.
Qed.

Lemma landmark_loops_unannotated_witness :
  landmarks_downsample "a.tif" Cases.unannotated Examples.vocabulary_table 4
  = Raise ValueError ∧
  rotate_landmarks Examples.cos_poly Examples.sin_poly Examples.pi_approx
    (Examples.flat_image 12 16) 90 Cases.unannotated
    Examples.vocabulary_table "a.tif" = Raise ValueError ∧
  scale_landmarks (Examples.flat_image 12 16) (13 # 10) Cases.unannotated
    Examples.vocabulary_table "a.tif" = Raise ValueError.
Proof.
  apply (landmark_loops_unannotated Examples.cos_poly Examples.sin_poly
           Examples.pi_approx (Examples.flat_image 12 16) (13 # 10) 90 4
           "a.tif" Cases.unannotated Examples.vocabulary_table
           [Str "L1"] [] "L2").
  - lia.
  - exact examples_vocabulary.
  - split.
    + refine (bool_decide_unpack _ _). vm_compute. exact I.
    + intros lmk Hl. apply list_elem_of_singleton in Hl as ->.
      exists "L1", 7%Z, 3%Z. split; reflexivity.
  - reflexivity.
Defined.

(** X7.  A binning factor of zero, given to the two downsampling functions
    themselves, raises [ZeroDivisionError]: in [image_downsample] at the
    first quotient, in [landmarks_downsample] at the first landmark of a
    file that has coordinates. *)
Theorem downsample_zero_binning
    (resize_px : image → nat → nat → nat → nat → Q) (img : image)
    (normalize : bool) (file : string) (df df_model : DataFrame)
    (col : string) (rest : list cell) (x y : Z) :
  vocabulary df_model = Return (Str col :: rest) →
  coords df file col = Return (x, y) →
  image_downsample resize_px img 0 normalize = Raise ZeroDivisionError ∧
  landmarks_downsample file df df_model 0 = Raise ZeroDivisionError.
Proof.
  intros Hvoc Hc. split; [reflexivity|].
  unfold landmarks_downsample. rewrite Hvoc.
  apply coords_Return in Hc as (c & Hc & Hev).
  cbn [mbind outcome_bind for_each col_label]. rewrite Hc.
  cbn [mbind outcome_bind]. rewrite Hev. reflexivity.
Qed.

Lemma downsample_zero_binning_witness :
  image_downsample Examples.resize_nearest (Examples.flat_image 12 16) 0 true
  = Raise ZeroDivisionError ∧
  landmarks_downsample "a.tif" Examples.landmarks Examples.vocabulary_table 0
  = Raise ZeroDivisionError.
Proof.
  apply (downsample_zero_binning Examples.resize_nearest
           (Examples.flat_image 12 16) true "a.tif" Examples.landmarks
           Examples.vocabulary_table "L1" [Str "L2"] 7 3).
  - exact examples_vocabulary.
  - reflexivity.
Defined.

(** X8.  Normalisation in [image_downsample]: when the binned image has a
    positive sample, the image returned with [normalize=True] is the one
    returned with [normalize=False] with every sample divided by the mean
    of its positive samples, and the mean of the positive samples of the
    result is one. *)
Theorem image_downsample_normalized
    (resize_px : image → nat → nat → nat → nat → Q) (img : image)
    (binning : Z) (img0 : image) :
  image_downsample resize_px img binning false = Return img0 →
  (∃ i j, (i < height img0)%nat ∧ (j < width img0)%nat ∧
          (0 < px img0 i j)%Q) →
  ∃ img1, image_downsample resize_px img binning true = Return img1 ∧
    height img1 = height img0 ∧ width img1 = width img0 ∧
    (∀ i j, px img1 i j = (px img0 i j / mean_positive img0)%Q) ∧
    (mean_positive img1 == 1)%Q.
Proof.
  unfold image_downsample. intros H (i & j & Hi & Hj & Hp).
  destruct (py_truediv (Z.of_nat (height img)) binning) as [qw|]; [|done].
  destruct (py_truediv (Z.of_nat (width img)) binning) as [qh|]; [|done].
  cbn [mbind outcome_bind] in *.
  destruct (dimension (py_int qw)) as [w|]; [|done].
  destruct (dimension (py_int qh)) as [h|]; [|done].
  cbn [mbind outcome_bind] in *. injection H as <-.
  eexists. split; [reflexivity|]. split; [done|]. split; [done|].
  split; [done|]. cbv zeta.
  exact (mean_positive_normalized _ i j Hi Hj Hp).
Qed.

Lemma image_downsample_normalized_witness :
  let img0 := astype_uint16
                (resize Examples.resize_nearest (Examples.flat_image 12 16) 3 4)
  in
  ∃ img1,
    image_downsample Examples.resize_nearest (Examples.flat_image 12 16) 4 true
    = Return img1 ∧
    height img1 = height img0 ∧ width img1 = width img0 ∧
    (∀ i j, px img1 i j = (px img0 i j / mean_positive img0)%Q) ∧
    (mean_positive img1 == 1)%Q.
Proof.
  apply (image_downsample_normalized Examples.resize_nearest
           (Examples.flat_image 12 16) 4).
  - reflexivity.
  - exists 0%nat, 0%nat. split; [cbn; lia|]. split; [cbn; lia|]. reflexivity.
Defined.

End TransformTheorems3.

Section DownsampleInside.
Import Table Transform Frame.
Local Open Scope string_scope.

Lemma quot_inside (x n b : Z) :
  (0 < b)%Z → (b | n)%Z → (0 ≤ x < n)%Z → (0 ≤ x ÷ b < n / b)%Z.
Proof.
  intros Hb [k ->] Hx. rewrite quot_floor by lia.
  rewrite Z.div_mul by lia. split.
  - apply Z.div_pos; lia.
  - apply Z.div_lt_upper_bound; lia.
Qed.

(** X27.  When the binning factor divides the two sizes of the image, the
    downsampled landmarks lie inside the downsampled image: a landmark of
    the file whose coordinates are a column and a row of the image is moved
    by [landmarks_downsample] to a column and a row of the image that
    [image_downsample] returns. *)
Theorem downsample_keeps_landmarks_inside
    (resize_px : image → nat → nat → nat → nat → Q) (img : image)
    (binning : Z) (normalize : bool) (file : string)
    (df df_model : DataFrame) (names : list cell) :
  (0 < binning)%Z →
  (binning | Z.of_nat (height img))%Z → (binning | Z.of_nat (width img))%Z →
  vocabulary df_model = Return names →
  annotated names df file →
  ∃ img' df',
    image_downsample resize_px img binning normalize = Return img' ∧
    landmarks_downsample file df df_model binning = Return df' ∧
    ∀ col x y, Str col ∈ names → coords df file col = Return (x, y) →
      (0 ≤ x < Z.of_nat (width img))%Z → (0 ≤ y < Z.of_nat (height img))%Z →
      ∃ x' y', coords df' file col = Return (x', y') ∧
        (0 ≤ x' < Z.of_nat (width img'))%Z ∧
        (0 ≤ y' < Z.of_nat (height img'))%Z.
Proof.
  intros Hb Hdh Hdw Hvoc Hann.
  destruct (image_downsample_shape resize_px img binning normalize Hb)
    as (img' & Himg & Hh & Hw).
  rewrite landmarks_downsample_loop, Hvoc. cbn [mbind outcome_bind].
  destruct (for_each_update_spec (downsample_xy binning) file names df
              (vocabulary_NoDup _ _ Hvoc) (proj1 Hann))
    as (df' & Hloop & Hnew & _).
  { apply annotated_update; [done|]. intros x y.
    rewrite downsample_xy_pos by done. eauto. }
  exists img', df'. split; [done|]. split; [done|].
  intros col x y Hin Hc Hx Hy.
  exists (x ÷ binning)%Z, (y ÷ binning)%Z.
  rewrite (Hnew col x y Hin Hc), downsample_xy_pos by done.
  split; [done|]. rewrite Hh, Hw. split; by apply quot_inside.
Qed.

Lemma downsample_keeps_landmarks_inside_witness :
  ∃ img' df',
    image_downsample Examples.resize_nearest (Examples.flat_image 12 16) 4 true
    = Return img' ∧
    landmarks_downsample "a.tif" Examples.landmarks Examples.vocabulary_table 4
    = Return df' ∧
    ∀ col x y, Str col ∈ Examples.names →
      coords Examples.landmarks "a.tif" col = Return (x, y) →
      (0 ≤ x < Z.of_nat 16)%Z → (0 ≤ y < Z.of_nat 12)%Z →
      ∃ x' y', coords df' "a.tif" col = Return (x', y') ∧
        (0 ≤ x' < Z.of_nat (width img'))%Z ∧
        (0 ≤ y' < Z.of_nat (height img'))%Z.
Proof.
  apply (downsample_keeps_landmarks_inside Examples.resize_nearest
           (Examples.flat_image 12 16) 4 true "a.tif" Examples.landmarks
           Examples.vocabulary_table Examples.names).
  - lia.
  - exists 3%Z. reflexivity.
  - exists 4%Z. reflexivity.
  - exact examples_vocabulary.
  - apply examples_annotated. by left.
Defined.

(** Without divisibility the landmark can fall one past the last column:
    column 4 of an image of 5 columns, binned by 2, becomes column 2 of an
    image of 2 columns. *)
Example downsample_landmark_outside :
  (4 ÷ 2 = 2)%Z ∧
  ∃ img', image_downsample Examples.resize_nearest (Examples.flat_image 4 5)
            2 false = Return img' ∧ width img' = 2%nat.
Proof. split; [done|]. eexists. split; reflexivity. Qed.

End DownsampleInside.

(** ** The separation into training and validation rows *)

Section SplitSizes.
Import Table.




End SplitSizes.

Section SplitRows.
Import Table.


End SplitRows.

Section SplitTheorems.
Import Table.



End SplitTheorems.

Section SplitTheorems2.
Import Table.


Lemma elem_of_relabel {A} (l : list (nat * A)) (r : nat * A) :
  r ∈ imap (λ k r, (k, r.2)) l → ∃ r0, r0 ∈ l ∧ r.2 = r0.2.
Proof.
  intros H. apply elem_of_lookup_imap in H as (k & r0 & -> & Hk).
  exists r0. split; [|done]. by eapply list_elem_of_lookup_2.
Qed.

Lemma elem_of_filter_list {A} (p : A → bool) (l : list A) x :
  x ∈ List.filter p l ↔ x ∈ l ∧ p x = true.
Proof.
  rewrite !list_elem_of_In. apply List.filter_In.
Qed.

Lemma training_rows_origin df test_size picks train val :
  Split.training_data_split df test_size picks = Return (train, val) →
  ∀ r, r ∈ (df_rows train ++ df_rows val)%list →
    ∃ r1, r1 ∈ df_rows (Split.dropna df) ∧ r.2 = r1.2.
Proof.
  unfold Split.training_data_split. cbv zeta. unfold Split.sample.
  destruct (decide _) as [|_]; [done|]. cbn [mbind outcome_bind].
  unfold Split.drop. destruct (decide _) as [_|]; [|done].
  cbn [mbind outcome_bind]. intros [= <- <-] r Hr.
  apply elem_of_app in Hr as [Hr|Hr]; cbn [Split.reset_index df_rows] in Hr.
  - apply elem_of_relabel in Hr as (r2 & Hr2 & ->).
    apply elem_of_filter_list in Hr2 as [Hr2 _].
    apply elem_of_relabel in Hr2 as (r3 & Hr3 & ->). eauto.
  - apply elem_of_relabel in Hr as (r2 & Hr2 & ->).
    apply elem_of_relabel in Hr2 as (r3 & Hr3 & ->).
    apply list_elem_of_omap in Hr3 as (i & _ & Hi).
    apply list_elem_of_lookup_2 in Hi.
    apply elem_of_relabel in Hi as (r4 & Hr4 & ->). eauto.
Qed.

Lemma elem_of_dropna df r :
  r ∈ df_rows (Split.dropna df) ↔
  r ∈ df_rows df ∧ ∀ col, col ∈ df_columns df → row_get r.2 col ≠ NaN.
Proof.
  unfold Split.dropna. cbn [df_rows]. rewrite elem_of_filter_list.
  rewrite forallb_forall. split; intros [Hr Hall]; (split; [done|]).
  - intros col Hcol. apply list_elem_of_In in Hcol.
    specialize (Hall col Hcol). by apply bool_decide_eq_true_1 in Hall.
  - intros col Hcol. apply list_elem_of_In in Hcol.
    apply bool_decide_eq_true_2. by apply Hall.
Qed.

(** X10.  No row with a missing entry reaches the training or the
    validation table, whatever is drawn: every row of the two tables
    returned by the separation is a row of the table given, in which every
    column holds a value. *)
Theorem training_data_split_complete (df : DataFrame) (test_size : Q)
    (picks : list nat) (train val : DataFrame) :
  Split.training_data_split df test_size picks = Return (train, val) →
  ∀ r, r ∈ (df_rows train ++ df_rows val)%list →
    ∃ r0, r0 ∈ df_rows df ∧ r.2 = r0.2 ∧
      ∀ col, col ∈ df_columns df → row_get r.2 col ≠ NaN.
Proof.
  intros Hsplit r Hr.
  destruct (training_rows_origin _ _ _ _ _ Hsplit r Hr) as (r1 & Hr1 & Heq).
  apply elem_of_dropna in Hr1 as [Hr1 Hall].
  exists r1. split; [done|]. split; [done|].
  intros col Hcol. rewrite Heq. by apply Hall.
Qed.

Lemma training_data_split_complete_witness :
  ∃ train val,
    Split.training_data_split Cases.six_samples (1 # 5) [3%nat]
    = Return (train, val) ∧
    ∀ r, r ∈ (df_rows train ++ df_rows val)%list →
      ∃ r0, r0 ∈ df_rows Cases.six_samples ∧ r.2 = r0.2 ∧
        ∀ col, col ∈ df_columns Cases.six_samples → row_get r.2 col ≠ NaN.
Proof.
  eexists _, _. split; [vm_compute; reflexivity|].
  apply (training_data_split_complete Cases.six_samples (1 # 5) [3%nat]).
  vm_compute. reflexivity.
Defined.

End SplitTheorems2.

(** ** What the loader writes, reads and returns *)

Section LoaderEffects.
Import Table Loader Dataset.
Local Open Scope string_scope.

Lemma import_data_heap fs folder l f df_model σ landmarks landmarks' :
  σ !! l = Some landmarks →
  set_full_path folder landmarks = Return landmarks' →
  (import_data fs folder l f df_model σ).1 = <[l := landmarks']> σ.
Proof.
  intros Hl Hset. unfold import_data. rewrite Hl, Hset.
  by destruct (<[l:=landmarks']> σ !! f).
Qed.

(** X11.  [import_data] writes into the table that the caller passes:
    after the call, and whatever it returns or raises afterwards, the
    caller's table of landmarks has a column ["full path"] that holds, in
    every row with a file name, the folder joined with an empty name
    followed by the file name; the labels, all other cells and the other
    tables stay. *)
Theorem import_data_writes_paths (fs : filesystem) (folder : string)
    (df_landmarks df_files : nat) (df_model : DataFrame) (σ : heap)
    (landmarks : DataFrame) :
  σ !! df_landmarks = Some landmarks →
  "file name" ∈ df_columns landmarks →
  ∃ landmarks',
    (import_data fs folder df_landmarks df_files df_model σ).1
    = <[df_landmarks := landmarks']> σ ∧
    "full path" ∈ df_columns landmarks' ∧
    (∀ c, c ∈ df_columns landmarks → c ∈ df_columns landmarks') ∧
    Forall2 (λ r r',
        r'.1 = r.1 ∧
        (∀ col, col ≠ "full path" → r'.2 !! col = r.2 !! col) ∧
        (∀ name, row_get r.2 "file name" = Str name →
           row_get r'.2 "full path" = Str (os_path_join folder "" +:+ name)))
      (df_rows landmarks) (df_rows landmarks').
Proof.
  intros Hl Hkey.
  assert (∃ landmarks', set_full_path folder landmarks = Return landmarks')
    as [landmarks' Hset].
  { unfold set_full_path. rewrite decide_True by done. eauto. }
  exists landmarks'. split; [by eapply import_data_heap|].
  unfold set_full_path in Hset. rewrite decide_True in Hset by done.
  injection Hset as <-. cbn [df_columns df_rows].
  split; [|split].
  - destruct (decide _); [done|]. apply elem_of_app. right. left.
  - intros c Hc. destruct (decide _); [done|]. apply elem_of_app. by left.
  - apply Forall2_fmap_r, Forall_Forall2_diag, Forall_forall.
    intros r _. simpl. split; [done|]. split.
    + intros col Hne. by rewrite lookup_insert_ne.
    + intros name Hname. unfold row_get at 1. rewrite lookup_insert_eq.
      cbn. by rewrite Hname.
Qed.

Lemma import_data_writes_paths_witness :
  ∃ landmarks',
    (import_data Examples.other_shape "data" 0 0 Examples.vocabulary_table
       Examples.one_table).1 = <[0%nat := landmarks']> Examples.one_table ∧
    "full path" ∈ df_columns landmarks' ∧
    (∀ c, c ∈ df_columns Examples.landmarks → c ∈ df_columns landmarks') ∧
    Forall2 (λ r r',
        r'.1 = r.1 ∧
        (∀ col, col ≠ "full path" → r'.2 !! col = r.2 !! col) ∧
        (∀ name, row_get r.2 "file name" = Str name →
           row_get r'.2 "full path" = Str (os_path_join "data" "" +:+ name)))
      (df_rows Examples.landmarks) (df_rows landmarks').
Proof.
  apply (import_data_writes_paths Examples.other_shape "data" 0 0
           Examples.vocabulary_table Examples.one_table Examples.landmarks).
  - reflexivity.
  - refine (bool_decide_unpack _ _). vm_compute. exact I.
Defined.

(** X12.  The path column is read from the table of files, so it is there
    only because the two arguments are one object: when [import_data] is
    given a table of files that is another object and has no column
    ["full path"], it raises [KeyError]; given its table of landmarks
    twice, as [import_train_val_data] does, it reads from this table the
    paths it has just written, one for every row. *)
Theorem import_data_reads_own_paths (fs : filesystem) (folder : string)
    (df_landmarks df_files : nat) (df_model : DataFrame) (σ : heap)
    (landmarks files : DataFrame) :
  σ !! df_landmarks = Some landmarks →
  "file name" ∈ df_columns landmarks →
  (df_files ≠ df_landmarks → σ !! df_files = Some files →
   "full path" ∉ df_columns files →
   (import_data fs folder df_landmarks df_files df_model σ).2
   = Raise KeyError) ∧
  ∃ landmarks' paths,
    set_full_path folder landmarks = Return landmarks' ∧
    (import_data fs folder df_landmarks df_landmarks df_model σ).2
    = import_arrays fs landmarks' landmarks' df_model ∧
    column landmarks' "full path" = Return paths ∧
    length paths = length (df_rows landmarks).
Proof.
  intros Hl Hkey.
  assert (∃ landmarks', set_full_path folder landmarks = Return landmarks')
    as [landmarks' Hset].
  { unfold set_full_path. rewrite decide_True by done. eauto. }
  split.
  - intros Hne Hf Hcol. unfold import_data. rewrite Hl, Hset.
    cbv beta iota zeta. unfold heap in *.
    rewrite lookup_insert_ne, Hf by done. cbn [snd].
    unfold import_arrays, check_image_shape, column.
    destruct (decide ("full path" ∈ df_columns files)); [done|reflexivity].
  - assert ("full path" ∈ df_columns landmarks') as Hpath.
    { unfold set_full_path in Hset. rewrite decide_True in Hset by done.
      injection Hset as <-. cbn [df_columns].
      destruct (decide _); [done|]. apply elem_of_app. right. left. }
    exists landmarks'. eexists. split; [done|]. split; [|split].
    + unfold import_data. rewrite Hl, Hset. cbv beta iota zeta.
      unfold heap in *. by rewrite lookup_insert_eq.
    + unfold column. by rewrite decide_True.
    + rewrite length_fmap. unfold set_full_path in Hset.
      rewrite decide_True in Hset by done. injection Hset as <-.
      cbn [df_rows]. by rewrite length_fmap.
Qed.

Lemma import_data_reads_own_paths_witness :
  (1%nat ≠ 0%nat →
   ({[ 0%nat := Examples.landmarks; 1%nat := Examples.landmarks ]} : heap)
     !! 1%nat = Some Examples.landmarks →
   "full path" ∉ df_columns Examples.landmarks →
   (import_data Examples.same_shapes "data" 0 1 Examples.vocabulary_table
      {[ 0%nat := Examples.landmarks; 1%nat := Examples.landmarks ]}).2
   = Raise KeyError) ∧
  ∃ landmarks' paths,
    set_full_path "data" Examples.landmarks = Return landmarks' ∧
    (import_data Examples.same_shapes "data" 0 0 Examples.vocabulary_table
       {[ 0%nat := Examples.landmarks; 1%nat := Examples.landmarks ]}).2
    = import_arrays Examples.same_shapes landmarks' landmarks'
        Examples.vocabulary_table ∧
    column landmarks' "full path" = Return paths ∧
    length paths = 2%nat.
Proof.
  apply (import_data_reads_own_paths Examples.same_shapes "data" 0 1
           Examples.vocabulary_table
           {[ 0%nat := Examples.landmarks; 1%nat := Examples.landmarks ]}
           Examples.landmarks Examples.landmarks).
  - reflexivity.
  - refine (bool_decide_unpack _ _). vm_compute. exact I.
Defined.

(** X13.  A table of files without rows cannot be loaded:
    [check_image_shape] raises [IndexError] at [iloc[0]], and so does
    [import_data] on an empty table of its own, after it has written the
    (empty) path column. *)
Theorem empty_table_index_error (fs : filesystem) (folder : string)
    (df_landmarks : nat) (df_model : DataFrame) (σ : heap)
    (files landmarks : DataFrame) :
  "full path" ∈ df_columns files → df_rows files = [] →
  σ !! df_landmarks = Some landmarks →
  "file name" ∈ df_columns landmarks → df_rows landmarks = [] →
  check_image_shape fs files = Raise IndexError ∧
  (import_data fs folder df_landmarks df_landmarks df_model σ).2
  = Raise IndexError.
Proof.
  intros Hcol Hrows Hl Hkey Hempty. split.
  - unfold check_image_shape, column. rewrite decide_True by done.
    by rewrite Hrows.
  - unfold import_data, set_full_path. rewrite Hl.
    rewrite decide_True by done. cbv beta iota zeta. unfold heap in *.
    rewrite lookup_insert_eq. cbn [snd].
    unfold import_arrays, check_image_shape, column. cbn [df_columns df_rows].
    rewrite Hempty. cbn [fmap list_fmap].
    destruct (decide ("full path" ∈ df_columns landmarks)).
    + by rewrite decide_True.
    + rewrite decide_True; [done|]. apply elem_of_app. right. left.
Qed.

End LoaderEffects.

Section TrainingData.
Import Table Loader Dataset Training.
Local Open Scope string_scope.

Lemma empty_table_index_error_witness :
  check_image_shape Examples.same_shapes Cases.no_files = Raise IndexError ∧
  (import_data Examples.same_shapes "data" 0 0 Examples.vocabulary_table
     {[ 0%nat := Cases.no_files ]}).2 = Raise IndexError.
Proof.
  apply (empty_table_index_error Examples.same_shapes "data" 0
           Examples.vocabulary_table {[ 0%nat := Cases.no_files ]}
           Cases.no_files Cases.no_files).
  - refine (bool_decide_unpack _ _). vm_compute. exact I.
  - reflexivity.
  - reflexivity.
  - refine (bool_decide_unpack _ _). vm_compute. exact I.
  - reflexivity.
Defined.

Lemma set_full_path_Return folder df :
  "file name" ∈ df_columns df →
  ∃ df', set_full_path folder df = Return df' ∧
    ∃ paths, column df' "full path" = Return paths.
Proof.
  intros Hkey. unfold set_full_path. rewrite decide_True by done.
  eexists. split; [done|]. unfold column. cbn [df_columns df_rows].
  eexists. rewrite decide_True; [done|].
  destruct (decide _); [done|]. apply elem_of_app. right. left.
Qed.

Lemma import_data_same fs folder l df_model (σ : heap) landmarks landmarks' :
  σ !! l = Some landmarks →
  set_full_path folder landmarks = Return landmarks' →
  import_data fs folder l l df_model σ
  = (<[l := landmarks']> σ, import_arrays fs landmarks' landmarks' df_model).
Proof.
  intros Hl Hset. unfold import_data. rewrite Hl, Hset.
  cbv beta iota zeta. unfold heap in *. by rewrite lookup_insert_eq.
Qed.


End TrainingData.

Section TrainingExamples.
Import Table Loader Dataset Training.
Local Open Scope string_scope.

Lemma same_shapes_uniform :
  uniform Examples.same_shapes [Str "data/a.tif"; Str "data/b.tif"]
    (12%nat, 16%nat).
Proof.
  intros p img Hp Himg.
  repeat (apply elem_of_cons in Hp as [->|Hp]); try (by inversion Hp);
    vm_compute in Himg; by injection Himg as <-.
Qed.



End TrainingExamples.

Section LoaderAlignment.
Import Table Loader Dataset Alignment.
Local Open Scope nat_scope.

Lemma positions_loop_inv landmarks (p : cell) names : ∀ acc row,
  for_each names (λ lmk positions,
    col ← col_label lmk;
    c ← loc_get landmarks "full path" p col;
    '(x, y) ← literal_eval c;
    Return (positions ++ [x; y])) acc = Return row →
  ∃ pairs : list (Z * Z),
    Forall2 (λ lmk xy, ∃ col c,
        lmk = Str col ∧
        loc_get landmarks "full path" p col = Return c ∧
        literal_eval c = Return xy) names pairs ∧
    row = (acc ++ pairs ≫= (λ xy, [xy.1; xy.2]))%list.
Proof.
  induction names as [|lmk names IH]; intros acc row H.
  - cbn in H. injection H as <-. exists []. split; [constructor|].
    cbn. by rewrite app_nil_r.
  - cbn [for_each] in H.
    destruct lmk as [|col]; [done|]. cbn [col_label mbind outcome_bind] in H.
    destruct (loc_get landmarks "full path" p col) as [c|] eqn:Hc; [|done].
    cbn [mbind outcome_bind] in H.
    destruct (literal_eval c) as [[x y]|] eqn:Hev; [|done].
    cbn [mbind outcome_bind] in H.
    apply IH in H as (pairs & Hpairs & ->).
    exists ((x, y) :: pairs). split.
    + constructor; [|done]. eauto.
    + cbn. by rewrite <- app_assoc.
Qed.

Lemma images_loop_inv fs landmarks df_model names ps : ∀ acc acc',
  vocabulary df_model = Return names →
  for_each ps (λ image_path (acc : list image * list (list Z)),
    image ← Image_open fs image_path;
    names ← vocabulary df_model;
    landmark_positions ← for_each names (λ lmk positions,
      col ← col_label lmk;
      c ← loc_get landmarks "full path" image_path col;
      '(x, y) ← literal_eval c;
      Return (positions ++ [x; y])) [];
    Return (acc.1 ++ [image], acc.2 ++ [landmark_positions])) acc
  = Return acc' →
  ∃ images rows,
    acc' = ((acc.1 ++ images)%list, (acc.2 ++ rows)%list) ∧
    Forall2 (λ p img, Image_open fs p = Return img) ps images ∧
    Forall2 (landmark_row landmarks names) ps rows.
Proof.
  induction ps as [|p ps IH]; intros acc acc' Hvoc H.
  - cbn in H. injection H as <-. exists [], [].
    rewrite !app_nil_r. by destruct acc.
  - match type of H with for_each _ ?b _ = _ => set (body := b) in * end.
    cbn [for_each] in H.
    destruct (body p acc) as [acc1|] eqn:Hstep; [|done].
    cbn [mbind outcome_bind] in H.
    apply IH in H as (images & rows & -> & Himgs & Hrows); [|done].
    unfold body in Hstep.
    destruct (Image_open fs p) as [img|] eqn:Himg; [|done].
    cbn [mbind outcome_bind] in Hstep. rewrite Hvoc in Hstep.
    cbn [mbind outcome_bind] in Hstep.
    destruct (for_each names _ []) as [row|] eqn:Hrow; [|done].
    cbn [mbind outcome_bind] in Hstep. injection Hstep as <-.
    apply positions_loop_inv in Hrow as (pairs & Hpairs & ->).
    cbn [fst snd]. exists (img :: images), ((pairs ≫= (λ xy : Z * Z, [xy.1; xy.2])) :: rows).
    split; [by rewrite <- !app_assoc|]. split; [by constructor|].
    constructor; [|done]. by exists pairs.
Qed.

(** X15.  The two arrays of [import_data] are aligned: whenever it returns
    arrays, there are the images opened at the distinct paths of the table
    of files, in the order of their first appearance, and for each of
    these paths the row of its coordinates in the order of the vocabulary;
    [X] holds the samples of these images one after the other, and [y]
    holds these rows one after the other. *)
Theorem import_data_aligned (fs : filesystem) (folder : string)
    (df_landmarks df_files : nat) (df_model : DataFrame) (σ : heap)
    (landmarks landmarks' files : DataFrame) (names : list cell)
    (X y : ndarray) :
  σ !! df_landmarks = Some landmarks →
  set_full_path folder landmarks = Return landmarks' →
  <[df_landmarks := landmarks']> σ !! df_files = Some files →
  vocabulary df_model = Return names →
  (import_data fs folder df_landmarks df_files df_model σ).2
  = Return (Some (X, y)) →
  ∃ paths images rows,
    column files "full path" = Return paths ∧
    Forall2 (λ p img, Image_open fs p = Return img) (unique paths) images ∧
    Forall2 (landmark_row landmarks' names) (unique paths) rows ∧
    nd_data X = images ≫= Transform.pixels ∧
    nd_data y = inject_Z <$> concat rows.
Proof.
  intros Hl Hset Hf Hvoc. unfold import_data. rewrite Hl, Hset.
  cbv beta iota zeta. rewrite Hf. cbn [snd]. unfold import_arrays.
  destruct (check_image_shape fs files) as [[s|]|]; [|done|done].
  cbn [mbind outcome_bind].
  destruct (column files "full path") as [paths|]; [|done].
  cbn [fmap outcome_fmap mbind outcome_bind].
  destruct (for_each (unique paths) _ _) as [acc'|] eqn:Hloop; [|done].
  apply (images_loop_inv _ _ _ names) in Hloop
    as (images & rows & -> & Himgs & Hrows); [|done].
  cbn [mbind outcome_bind app fst snd].
  destruct (np_asarray_images images) as [a|] eqn:Ha; [|done].
  cbn [mbind outcome_bind].
  destruct (column landmarks' "full path") as [lpaths|]; [|done].
  cbn [fmap outcome_fmap mbind outcome_bind].
  destruct (reshape a _) as [X'|] eqn:HX; [|done].
  cbn [mbind outcome_bind].
  destruct (np_array_rows rows) as [y'|] eqn:Hy; [|done].
  cbn [mbind outcome_bind]. intros [= <- <-].
  exists paths, images, rows. split; [done|]. split; [done|]. split; [done|].
  split.
  - unfold reshape in HX. destruct (decide _); [|done].
    injection HX as <-. cbn [nd_data].
    unfold np_asarray_images in Ha. destruct images as [|img images].
    + by injection Ha as <-.
    + destruct (decide _); [|done]. by injection Ha as <-.
  - unfold np_array_rows in Hy. destruct rows as [|r rows].
    + by injection Hy as <-.
    + destruct (decide _); [|done]. by injection Hy as <-.
Qed.

Lemma import_data_aligned_witness :
  ∃ X y landmarks' paths images rows,
    (import_data Examples.same_shapes "data" 0 0 Examples.vocabulary_table
       Examples.one_table).2 = Return (Some (X, y)) ∧
    column landmarks' "full path" = Return paths ∧
    Forall2 (λ p img, Image_open Examples.same_shapes p = Return img)
      (unique paths) images ∧
    Forall2 (landmark_row landmarks' Examples.names) (unique paths) rows ∧
    nd_data X = images ≫= Transform.pixels ∧
    nd_data y = inject_Z <$> concat rows.
Proof.
  destruct examples_paths as (landmarks' & Hset & Hheap & Hcol & Hdesc).
  destruct (import_arrays_uniform Examples.same_shapes landmarks' landmarks'
              Examples.vocabulary_table
              [Str "data/a.tif"; Str "data/b.tif"]
              [Str "data/a.tif"; Str "data/b.tif"] Examples.names 12 16)
    as (X & y & HXy & _);
    [done|done|apply examples_referenced; by left|exact same_shapes_uniform|
     exact examples_vocabulary|done|done|done|].
  assert ((import_data Examples.same_shapes "data" 0 0
             Examples.vocabulary_table Examples.one_table).2
          = Return (Some (X, y))) as Himport.
  { rewrite (import_data_same Examples.same_shapes "data" 0
               Examples.vocabulary_table Examples.one_table Examples.landmarks
               landmarks' eq_refl Hset). exact HXy. }
  exists X, y, landmarks'.
  destruct (import_data_aligned Examples.same_shapes "data" 0 0
              Examples.vocabulary_table Examples.one_table Examples.landmarks
              landmarks' landmarks' Examples.names X y eq_refl Hset Hheap
              examples_vocabulary Himport)
    as (paths & images & rows & H).
  by exists paths, images, rows.
Defined.

End LoaderAlignment.

(** ** The scale factors of the prediction *)

Section PredictGeneral.
Import Table Transform Loader Predict Dataset Rescale.
Local Open Scope nat_scope.

Variable resize_px : image → nat → nat → nat → nat → Q.


End PredictGeneral.

Section PredictLastImage.
Import Table Transform Loader Predict Dataset Rescale.
Local Open Scope nat_scope.

Variable resize_px : image → nat → nat → nat → nat → Q.

Lemma unique_nonempty (l : list cell) : l ≠ [] → unique l ≠ [].
Proof.
  destruct l as [|p l]; [done|]. intros _ Hnil.
  assert (p ∈ unique (p :: l)) as Hin by (apply elem_of_unique; by left).
  rewrite Hnil in Hin. inversion Hin.
Qed.


(** X16.  On a table of files without rows [predict_landmarks] raises
    [NameError]: the loading loop does not run, and [image] is read after
    it without having been assigned. *)
Theorem predict_landmarks_no_files (fs : filesystem)
    (df_files df_model : DataFrame) (model : keras_model)
    (project_folder : string) (normalization : bool) (lmk_filename : string) :
  column df_files "full path" = Return [] →
  predict_landmarks resize_px fs df_files df_model model project_folder
    normalization lmk_filename = Raise NameError.
Proof.
  intros Hpaths. unfold predict_landmarks. rewrite Hpaths. reflexivity.
Qed.

End PredictLastImage.

Section PredictGeneralExamples.
Import Table Transform Loader Predict Dataset Rescale.
Local Open Scope nat_scope.




Lemma predict_landmarks_no_files_witness :
  predict_landmarks Examples.resize_nearest Examples.same_shapes
    Cases.no_files Examples.vocabulary_table Examples.network "proj" true
    "predicted.csv" = Raise NameError.
Proof.
  apply (predict_landmarks_no_files Examples.resize_nearest
           Examples.same_shapes Cases.no_files Examples.vocabulary_table
           Examples.network "proj" true "predicted.csv").
  reflexivity.
Defined.

End PredictGeneralExamples.

(** ** Failures and files of the training monitor *)

Section CheckpointErrors.
Import Checkpoint Policy.

Context {W : Type}.
Implicit Types (self : WindowCallback W) (x : world W) (model : W).

Lemma lookup_logs (logs : gmap string Q) (key : string) :
  ((Num <$> logs) ∪ (∅ : gmap string pyval)) !! key = Num <$> logs !! key.
Proof. rewrite lookup_union, lookup_fmap, lookup_empty. by destruct (logs !! key). Qed.

Lemma display_without_validation (logs : gmap string Q) :
  logs !! "val_mae" = None → logs !! "val_mean_absolute_error" = None →
  logs !! "val_loss" = None →
  display ((Num <$> logs) ∪ ∅) = Raise KeyError.
Proof.
  intros H1 H2 H3. unfold display.
  assert (∀ key, (v ← item ((Num <$> logs) ∪ ∅) key; displayable v)
                 = Return () ∨
                 (v ← item ((Num <$> logs) ∪ ∅) key; displayable v)
                 = Raise KeyError) as Hitem.
  { intros key. unfold item. rewrite lookup_logs.
    destruct (logs !! key); [left|right]; done. }
  assert (∀ key, logs !! key = None →
                 ¬ is_Some (((Num <$> logs) ∪ (∅ : gmap string pyval)) !! key))
    as Hno.
  { intros key Hk. rewrite lookup_logs, Hk. by intros [? ?]. }
  rewrite (decide_False (P := is_Some (_ !! "val_mae"))) by auto.
  rewrite (decide_False (P := is_Some (_ !! "val_mean_absolute_error")))
    by auto.
  assert ((v ← item ((Num <$> logs) ∪ ∅) "val_loss"; displayable v)
          = Raise KeyError) as ->.
  { unfold item. by rewrite lookup_logs, H3. }
  repeat case_decide;
    match goal with
    | |- context [item _ ?k ≫= _] => destruct (Hitem k) as [->| ->]
    end; reflexivity.
Qed.

(** X18.  A training whose logs carry no validation metric stops the
    monitor at the end of the first epoch with [KeyError]: none of
    ['val_mae'], ['val_mean_absolute_error'] is among the metrics, so
    [self.metrics['val_loss']] is read and is missing. *)
Theorem fit_without_validation (n f : Z) (fold name : string) (model : W)
    (logs : gmap string Q) (w : W) (rest : list (gmap string Q * W))
    (x : world W) :
  logs !! "val_mae" = None → logs !! "val_mean_absolute_error" = None →
  logs !! "val_loss" = None →
  fit (init W n fold f name) model ((logs, w) :: rest) x = Raise KeyError.
Proof.
  intros H1 H2 H3. unfold fit. cbv zeta. cbn [epochs].
  assert (on_epoch_end (on_train_begin (init W n fold f name) ∅) 0 logs w x
          = Raise KeyError) as ->; [|reflexivity].
  unfold on_epoch_end. cbn [on_train_begin init metrics current_epoch attr].
  rewrite fmap_empty. cbn [mbind outcome_bind].
  by rewrite display_without_validation.
Qed.

Lemma on_epoch_end_first n f path self epoch logs model x :
  tracking n f path 0 None self →
  is_Some (logs !! "loss") → is_Some (logs !! "val_loss") →
  ∃ self',
    on_epoch_end self epoch logs model x = Return (self', x) ∧
    tracking n f path 1 (Some (val_loss logs, model)) self' ∧
    folder self' = folder self ∧ model_name self' = model_name self.
Proof.
  intros (Hcur & Hleft & Hfreq & Hpath & m & Hm & Hnum & Hst) Hl Hv.
  destruct (metrics_update logs m Hnum Hl Hv) as (Hnum' & Hl' & Hv').
  unfold on_epoch_end. rewrite Hm, Hcur. simpl.
  rewrite (display_complete _ Hnum' Hl') by (by rewrite Hv'). simpl.
  eexists. split; [done|]. simpl. split_and!; try done.
  unfold tracking; simpl; split_and!; try done; try lia.
  eexists; split; [done|]; split; [done|]; done.
Qed.

Lemma on_epoch_end_zero_freq n path k previous snapshot self epoch logs model x :
  tracking n 0 path k (Some (previous, snapshot)) self →
  is_Some (logs !! "loss") → is_Some (logs !! "val_loss") →
  on_epoch_end self epoch logs model x = Raise ZeroDivisionError.
Proof.
  intros (Hcur & Hleft & Hfreq & Hpath & m & Hm & Hnum & Hk1 & Hprev & Hsnap)
    Hl Hv.
  destruct (metrics_update logs m Hnum Hl Hv) as (Hnum' & Hl' & Hv').
  unfold on_epoch_end. rewrite Hm, Hcur. simpl.
  rewrite (display_complete _ Hnum' Hl') by (by rewrite Hv'). simpl.
  rewrite decide_True by lia.
  unfold item. rewrite Hv', Hprev. simpl.
  by rewrite Hfreq.
Qed.

(** X19.  With a save frequency of zero the monitor raises
    [ZeroDivisionError] at the end of the second epoch, where
    [epochs_left % save_freq] is first evaluated; a training of one epoch
    ends normally and writes the network of this epoch once, when the
    training ends. *)
Theorem fit_zero_save_freq (n : Z) (fold name : string) (model : W)
    (h1 h2 : gmap string Q * W) (rest : list (gmap string Q * W))
    (x : world W) :
  complete_logs [h1; h2] →
  fit (init W n fold 0 name) model (h1 :: h2 :: rest) x
  = Raise ZeroDivisionError ∧
  ∃ self' x',
    fit (init W n fold 0 name) model [h1] x = Return (self', x') ∧
    log x' = log x ++ [FinalSave (os_path_join fold name +:+ ".h5") h1.2].
Proof.
  intros Hlogs. apply Forall_cons in Hlogs as [[Hl1 Hv1] Hlogs].
  apply Forall_cons in Hlogs as [[Hl2 Hv2] _].
  destruct h1 as [logs1 w1], h2 as [logs2 w2]. cbn [fst snd] in *.
  destruct (on_epoch_end_first n 0 _ _ 0 logs1 w1 x
              (on_train_begin_tracking n fold 0 name) Hl1 Hv1)
    as (self1 & Hstep1 & Htr1 & Hfo & Hmn).
  split.
  - unfold fit. cbv zeta. cbn [epochs]. rewrite Hstep1.
    cbn [mbind outcome_bind].
    by rewrite (on_epoch_end_zero_freq n _ 1 _ _ self1 (0 + 1) logs2 w2 x Htr1).
  - unfold fit. cbv zeta. cbn [epochs]. rewrite Hstep1.
    cbn [mbind outcome_bind]. eexists _, _. split; [done|].
    unfold on_train_end, save. cbn [log]. by rewrite Hfo, Hmn.
Qed.

Lemma on_epoch_end_disk self epoch logs model x self' x' :
  on_epoch_end self epoch logs model x = Return (self', x') →
  ∀ p, p ≠ filepath self → disk x' !! p = disk x !! p.
Proof.
  unfold on_epoch_end.
  destruct (metrics self) as [m|]; simpl; [|done].
  destruct (current_epoch self) as [k|]; simpl; [|done].
  destruct (display _); simpl; [|done].
  destruct (decide (k + 1 > 1)); simpl.
  - destruct (item (_ ∪ m) _) as [now|]; simpl; [|done].
    destruct (item m _) as [before|]; simpl; [|done].
    destruct (py_lt now before) as [improved|]; simpl; [|done].
    destruct (decide (save_freq self = 0)); simpl; [done|].
    destruct (decide (_ `mod` _ = 0)); simpl.
    + destruct (attr _) as [w|]; simpl; [|done].
      intros [= <- <-] p Hp. simpl. by rewrite lookup_insert_ne.
    + by intros [= <- <-].
  - by intros [= <- <-].
Qed.

Lemma epochs_disk : ∀ history self epoch model x self' model' x',
  epochs history epoch self model x = Return (self', model', x') →
  model' = final_network model history ∧
  ∀ p, p ≠ filepath self → disk x' !! p = disk x !! p.
Proof.
  induction history as [|[logs m] history IH];
    intros self epoch model x self' model' x'; simpl.
  { by intros [= <- <- <-]. }
  destruct (on_epoch_end self epoch logs m x) as [[self1 x1]|] eqn:Hstep;
    simpl; [|done].
  intros Hrun. pose proof (on_epoch_end_paths _ _ _ _ _ _ _ Hstep)
    as (_ & _ & Hp1 & _).
  apply IH in Hrun as [-> Hdisk]. split.
  - by rewrite final_network_cons.
  - intros p Hp. rewrite Hdisk by congruence.
    by eapply on_epoch_end_disk.
Qed.

(** X20.  A training that ends leaves on disk, at the checkpoint path, the
    network as it is after the last epoch (not the retained snapshot), and
    every other file as it was: the monitor never writes to another
    path. *)
Theorem fit_disk (n f : Z) (fold name : string) (model : W)
    (history : list (gmap string Q * W)) (x : world W) self' x' :
  fit (init W n fold f name) model history x = Return (self', x') →
  let path := os_path_join fold name +:+ ".h5" in
  disk x' !! path = Some (final_network model history) ∧
  ∀ p, p ≠ path → disk x' !! p = disk x !! p.
Proof.
  intros Hfit path. unfold fit in Hfit.
  destruct (epochs _ _ _ _ _) as [[[self1 model1] x1]|] eqn:Hrun;
    simpl in Hfit; [|done].
  injection Hfit as <- <-.
  pose proof (epochs_paths _ _ _ _ _ _ _ _ Hrun) as (Hfo & Hmn & _).
  apply epochs_disk in Hrun as [-> Hdisk].
  unfold on_train_end, save. cbn [disk]. rewrite Hfo, Hmn. simpl.
  fold path. split; [apply lookup_insert_eq|].
  intros p Hp. rewrite lookup_insert_ne by done. by apply Hdisk.
Qed.

End CheckpointErrors.

Section CheckpointErrorExamples.
Import Checkpoint Policy.

Lemma fit_without_validation_witness :
  fit (init nat 5 "proj" 2 "model") 0%nat
    [({[ "loss" := 1%Q; "mae" := 1%Q ]}, 1%nat)] (mkWorld ∅ [])
  = Raise KeyError.
Proof.
  apply (fit_without_validation 5 2 "proj" "model" 0%nat
           {[ "loss" := 1%Q; "mae" := 1%Q ]} 1%nat [] (mkWorld ∅ [])).
  - reflexivity.
  - reflexivity.
  - reflexivity.
Defined.

Lemma fit_zero_save_freq_witness :
  fit (init nat 5 "proj" 0 "model") 0%nat
    ((epoch_logs (1 # 2), 1%nat) :: (epoch_logs (1 # 2), 2%nat)
     :: [(epoch_logs (3 # 10), 3%nat)]) (mkWorld ∅ [])
  = Raise ZeroDivisionError ∧
  ∃ self' x',
    fit (init nat 5 "proj" 0 "model") 0%nat [(epoch_logs (1 # 2), 1%nat)]
      (mkWorld ∅ []) = Return (self', x') ∧
    log x' = [] ++ [FinalSave (os_path_join "proj" "model" +:+ ".h5") 1%nat].
Proof.
  apply (fit_zero_save_freq 5 "proj" "model" 0%nat
           (epoch_logs (1 # 2), 1%nat) (epoch_logs (1 # 2), 2%nat)
           [(epoch_logs (3 # 10), 3%nat)] (mkWorld ∅ [])).
  unfold complete_logs, epoch_logs. repeat constructor; simpl; by eexists.
Defined.

Lemma fit_disk_witness :
  ∃ self' x',
    fit (init nat 5 "proj" 2 "model") 0%nat five_epochs (mkWorld ∅ [])
    = Return (self', x') ∧
    disk x' !! (os_path_join "proj" "model" +:+ ".h5")
    = Some (final_network 0%nat five_epochs) ∧
    ∀ p, p ≠ os_path_join "proj" "model" +:+ ".h5" →
         disk x' !! p = (∅ : gmap string nat) !! p.
Proof.
  destruct five_epochs_run as (self' & x' & Hfit & _).
  exists self', x'. split; [exact Hfit|].
  exact (fit_disk 5 2 "proj" "model" 0%nat five_epochs (mkWorld ∅ [])
           self' x' Hfit).
Defined.

End CheckpointErrorExamples.

(** ** The network *)

Section NetworkFacts.
Import Table Network.
Local Open Scope nat_scope.

Lemma half_le (n k : nat) : 2 * k ≤ n → k ≤ n / 2.
Proof. intros H. apply Nat.div_le_lower_bound; lia. Qed.

Lemma half_ge (n k : nat) : k ≤ n / 2 → 2 * k ≤ n.
Proof. intros H. pose proof (Nat.Div0.mul_div_le n 2). nia. Qed.

Lemma window_count_half n : 2 ≤ n → window_count n 2 2 = Return (n / 2).
Proof.
  intros H. unfold window_count. rewrite decide_False by lia. f_equal.
  replace n with (n - 2 + 1 * 2) at 2 by lia.
  by rewrite Nat.div_add.
Qed.

Lemma window_count_short n : n < 2 → window_count n 2 2 = Raise ValueError.
Proof. intros H. unfold window_count. by rewrite decide_True. Qed.

End NetworkFacts.

Section NetworkTheorems.
Import Table Network.
Local Open Scope nat_scope.

Lemma dimension_of_nat (n : nat) : Transform.dimension (Z.of_nat n) = Return n.
Proof.
  unfold Transform.dimension. rewrite decide_False by lia.
  by rewrite Nat2Z.id.
Qed.

Ltac add_layers :=
  repeat (cbn [add compute_output_shape mbind outcome_bind output_shape
               input_shape layers compiled app];
          try rewrite !window_count_half by (repeat apply half_le; lia)).

(** X21.  [create_CNN] builds a network that fits the arrays of the
    loader: for images of at least 32 by 32 samples it returns a model of
    44 layers, all trainable, whose input has the shape [(h, w, 1)] of one
    image of [X] and whose output has [2 * n] numbers, [n] being the number
    of distinct landmark names (at least one), as a row of [y]; it is compiled with Adam
    at the default rate, the loss ['mse'] and the metric ['mae'].  For a
    smaller image one of the five poolings has no window left and the
    construction raises [ValueError]. *)
Theorem create_CNN_shapes (h w : nat) (df_model : DataFrame)
    (names : list cell) :
  vocabulary df_model = Return names → names ≠ [] →
  (32 ≤ h → 32 ≤ w →
   ∃ model,
     create_CNN (Z.of_nat h, Z.of_nat w) df_model = Return model ∧
     input_shape model = [h; w; 1] ∧
     output_shape model = [2 * length names] ∧
     length (layers model) = 44 ∧
     Forall (λ l, l.2 = true) (layers model) ∧
     compiled model
     = Some {| optimizer := "Adam"; learning_rate := 1 # 1000;
               loss := "mse"; metric_names := ["mae"%string] |}) ∧
  (h < 32 ∨ w < 32 →
   create_CNN (Z.of_nat h, Z.of_nat w) df_model = Raise ValueError).
Proof.
  intros Hvoc _. split.
  - intros Hh Hw. unfold create_CNN. rewrite Hvoc.
    cbn [mbind outcome_bind fst snd]. rewrite !dimension_of_nat.
    cbv zeta. add_layers.
    eexists. split; [reflexivity|]. cbn [input_shape output_shape layers
      compiled compile].
    split; [done|]. split; [done|]. split; [done|]. split; [|done].
    repeat constructor.
  - intros Hsmall. unfold create_CNN. rewrite Hvoc.
    cbn [mbind outcome_bind fst snd]. rewrite !dimension_of_nat.
    cbv zeta.
    repeat (cbn [add compute_output_shape mbind outcome_bind output_shape
                 input_shape layers compiled app];
            match goal with
            | |- context [window_count ?n 2 2] =>
                destruct (decide (2 ≤ n));
                [rewrite (window_count_half n) by done
                |rewrite (window_count_short n) by lia; reflexivity]
            end).
    exfalso.
    repeat match goal with
           | H : _ ≤ _ / 2 |- _ => apply half_ge in H; cbn [Nat.mul Nat.add] in H
           end.
    lia.
Qed.

End NetworkTheorems.

Section FineTune.
Import Table Network.
Local Open Scope nat_scope.

Lemma create_CNN_layers (img_shape : Z * Z) df_model model :
  create_CNN img_shape df_model = Return model →
  ∃ n h w,
    Transform.dimension img_shape.1 = Return h ∧
    Transform.dimension img_shape.2 = Return w ∧
    input_shape model = [h; w; 1] ∧
    layers model
    = (λ l, (l, true)) <$>
      [Convolution2D 32 (3, 3) Same false; LeakyReLU (1 # 10);
       BatchNormalization;
       Convolution2D 32 (3, 3) Same false; LeakyReLU (1 # 10);
       BatchNormalization; MaxPool2D (2, 2);
       Convolution2D 64 (3, 3) Same false; LeakyReLU (1 # 10);
       BatchNormalization;
       Convolution2D 64 (3, 3) Same false; LeakyReLU (1 # 10);
       BatchNormalization; MaxPool2D (2, 2);
       Convolution2D 96 (3, 3) Same false; LeakyReLU (1 # 10);
       BatchNormalization;
       Convolution2D 96 (3, 3) Same false; LeakyReLU (1 # 10);
       BatchNormalization; MaxPool2D (2, 2);
       Convolution2D 128 (3, 3) Same false; LeakyReLU (1 # 10);
       BatchNormalization;
       Convolution2D 128 (3, 3) Same false; LeakyReLU (1 # 10);
       BatchNormalization; MaxPool2D (2, 2);
       Convolution2D 256 (3, 3) Same false; LeakyReLU (1 # 10);
       BatchNormalization;
       Convolution2D 256 (3, 3) Same false; LeakyReLU (1 # 10);
       BatchNormalization; MaxPool2D (2, 2);
       Convolution2D 512 (3, 3) Same false; LeakyReLU (1 # 10);
       BatchNormalization;
       Convolution2D 512 (3, 3) Same false; LeakyReLU (1 # 10);
       BatchNormalization;
       Flatten; Dense 512 (Some "relu"%string); Dense (2 * n) None].
Proof.
  unfold create_CNN.
  destruct (vocabulary df_model) as [names|]; [|done].
  cbn [mbind outcome_bind].
  destruct (Transform.dimension img_shape.1) as [h|]; [|done].
  destruct (Transform.dimension img_shape.2) as [w|]; [|done].
  cbn [mbind outcome_bind]. cbv zeta.
  repeat (cbn [add compute_output_shape mbind outcome_bind output_shape
               input_shape layers compiled app];
          match goal with
          | |- context [window_count ?n 2 2] =>
              destruct (window_count n 2 2); [|done]
          end).
  cbn [add compute_output_shape mbind outcome_bind output_shape
       input_shape layers compiled app].
  intros [= <-]. by exists (length names), h, w.
Qed.

(** X22.  [fine_tune_CNN] changes only what it says: the shapes and the
    layers of the model stay, every [BatchNormalization] layer is made not
    trainable, the [trainable] attribute of every other layer stays, and
    the model is compiled again with Adam at the rate [1e-5].  On a model
    built by [create_CNN] this freezes 12 of the 44 layers. *)
Theorem fine_tune_CNN_freezes (CNN_model : Sequential) :
  let tuned := fine_tune_CNN CNN_model in
  input_shape tuned = input_shape CNN_model ∧
  output_shape tuned = output_shape CNN_model ∧
  (layers tuned).*1 = (layers CNN_model).*1 ∧
  (∀ i l t, layers CNN_model !! i = Some (l, t) →
     layers tuned !! i
     = Some (l, if is_BatchNormalization l then false else t)) ∧
  (learning_rate <$> compiled tuned) = Some (1 # 100000)%Q ∧
  (∀ img_shape df_model, create_CNN img_shape df_model = Return CNN_model →
     length (filter (λ l, l.2 = false) (layers tuned)) = 12 ∧
     length (filter (λ l, l.2 = true) (layers tuned)) = 32).
Proof.
  intros tuned. unfold tuned, fine_tune_CNN. cbv zeta.
  cbn [compile input_shape output_shape layers compiled fmap option_fmap
       option_map learning_rate].
  split; [done|]. split; [done|]. split; [|split; [|split; [done|]]].
  - rewrite <- list_fmap_compose. apply list_fmap_ext.
    intros _ [l t] _. cbn. by destruct (is_BatchNormalization l).
  - intros i l t Hi. rewrite list_lookup_fmap, Hi. cbn.
    by destruct (is_BatchNormalization l).
  - intros img_shape df_model Hcreate.
    apply create_CNN_layers in Hcreate as (n & h & w & _ & _ & _ & ->).
    by vm_compute.
Qed.

End FineTune.

Section NetworkExamples.
Import Table Loader Network Training.
Local Open Scope nat_scope.

Lemma create_CNN_shapes_witness :
  (32 ≤ 64 → 32 ≤ 32 →
   ∃ model,
     create_CNN (Z.of_nat 64, Z.of_nat 32) Examples.vocabulary_table
     = Return model ∧
     input_shape model = [64; 32; 1] ∧
     output_shape model = [2 * length Examples.names] ∧
     length (layers model) = 44 ∧
     Forall (λ l, l.2 = true) (layers model) ∧
     compiled model
     = Some {| optimizer := "Adam"; learning_rate := 1 # 1000;
               loss := "mse"; metric_names := ["mae"%string] |}) ∧
  (64 < 32 ∨ 32 < 32 →
   create_CNN (Z.of_nat 64, Z.of_nat 32) Examples.vocabulary_table
   = Raise ValueError).
Proof.
  apply (create_CNN_shapes 64 32 Examples.vocabulary_table Examples.names).
  - exact examples_vocabulary.
  - discriminate.
Defined.


Example train_CNN_with_window_callback_ex :
  train_CNN_with_window_callback Examples.same_shapes Cases.saved "data"
    "data" Examples.vocabulary_table = Raise NameError.
Proof. vm_compute. reflexivity. Qed.

End NetworkExamples.

(** ** Events of the main window *)

Section GuiFacts.
Import Table Transform Loader Network Gui.





End GuiFacts.

Section GuiTheorems.
Import Table Transform Loader Network Gui.


(** X25.  The events ["Next"] and ["Previous"] keep the index of the
    current image inside the table of files: from an index of a table of
    [n] files, any sequence of the two events leads to an index of the
    table; ["Previous"] undoes ["Next"] and ["Next"] undoes ["Previous"]
    wherever the first of the two moves. *)
Theorem navigate_in_range (n i : Z) :
  0 ≤ i < n →
  (∀ events, 0 ≤ foldl (navigate (Some n)) i events < n) ∧
  (i < n - 1 →
   navigate (Some n) (navigate (Some n) i Next) Previous = i) ∧
  (0 < i →
   navigate (Some n) (navigate (Some n) i Previous) Next = i).
Proof.
  intros Hi. split; [|split].
  - intros events. revert i Hi.
    induction events as [|ev events IH]; intros i Hi; [done|].
    cbn [foldl]. apply IH.
    destruct ev; cbn [navigate]; destruct (decide _); lia.
  - intros Hlt. cbn [navigate].
    rewrite (decide_True (P := i < n - 1)) by done.
    rewrite decide_True by lia. lia.
  - intros Hlt. cbn [navigate].
    rewrite (decide_True (P := i > 0)) by lia.
    rewrite decide_True by lia. lia.
Qed.

Lemma navigate_in_range_witness :
  (∀ events, 0 ≤ foldl (navigate (Some 3)) 1 events < 3) ∧
  (1 < 3 - 1 → navigate (Some 3) (navigate (Some 3) 1 Next) Previous = 1) ∧
  (0 < 1 → navigate (Some 3) (navigate (Some 3) 1 Previous) Next = 1).
Proof.
  apply (navigate_in_range 3 1). lia.
Defined.

(** X26.  An image with a deleted landmark is not used for training: after
    the event ['-DELETE_LDMK-'] on a landmark that is a column of the
    table, whatever the validation fraction and the draw, the file of the
    deleted landmark is in neither of the tables that the separation
    returns. *)
Theorem deleted_landmark_excludes_file (df df' : DataFrame)
    (curr_file curr_landmark : string) (test_size : Q) (picks : list nat)
    (train val : DataFrame) :
  curr_landmark ∈ df_columns df →
  delete_landmark df curr_file curr_landmark = Return df' →
  Split.training_data_split df' test_size picks = Return (train, val) →
  Str curr_file ∉ (Split.file_names train ++ Split.file_names val)%list.
Proof.
  intros Hcol Hdel Hsplit Hin.
  unfold Split.file_names in Hin. rewrite <- fmap_app in Hin.
  apply list_elem_of_fmap in Hin as (r & Hname & Hr).
  destruct (training_rows_origin _ _ _ _ _ Hsplit r Hr) as (r1 & Hr1 & Heq).
  apply elem_of_dropna in Hr1 as [Hr1 Hall].
  unfold delete_landmark in Hdel.
  pose proof (loc_set_columns _ _ _ _ _ _ Hdel) as [Hcol' _].
  apply loc_set_Return in Hdel as (_ & Hrows & _).
  rewrite Hrows in Hr1. apply list_elem_of_fmap in Hr1 as (r0 & -> & Hr0).
  rewrite Heq in Hname. specialize (Hall curr_landmark Hcol').
  unfold Frame.set_row in Hname, Hall.
  destruct (selects "file name" (Str curr_file) r0) eqn:Hsel.
  - cbn [snd] in Hall. unfold row_get in Hall.
    by rewrite lookup_insert_eq in Hall.
  - unfold selects in Hsel. rewrite <- Hname in Hsel. cbn in Hsel.
    by rewrite bool_decide_eq_true_2 in Hsel.
Qed.

Lemma deleted_landmark_excludes_file_witness :
  ∃ df' train val,
    delete_landmark Examples.five_samples "d.tif" "L1" = Return df' ∧
    Split.training_data_split df' (1 # 5) [] = Return (train, val) ∧
    Str "d.tif" ∉ (Split.file_names train ++ Split.file_names val)%list.
Proof.
  eexists _, _, _. split; [vm_compute; reflexivity|].
  split; [vm_compute; reflexivity|].
  eapply (deleted_landmark_excludes_file Examples.five_samples _ "d.tif" "L1"
            (1 # 5) []).
  - refine (bool_decide_unpack _ _). vm_compute. exact I.
  - vm_compute. reflexivity.
  - vm_compute. reflexivity.
Defined.

End GuiTheorems.
